(** * Adapters of langchain-community: Upstash vector store, Redis byte store,
      Postgres chat history

    A shallow embedding of three adapter classes and the properties their
    design contract states about them:

    - [UpstashVectorStore] (vectorstores/upstash.ts): the metadata codec of
      [addVectors] / [similaritySearchVectorWithScore], the chunked upsert,
      the query pass-through and [delete], then [addDocuments],
      [fromDocuments] and [fromTexts];
    - [RedisByteStore] (storage/ioredis.ts): key prefixing, then
      [yieldKeys];
    - [PostgresChatMessageHistory] (stores/message/postgres.ts): the
      constructor, then [ensureTable], [addMessage], [getMessages] and
      [clear];
    - [VectaraStore] (vectorstores/vectara.ts): the constructor, the
      document loops and the queries.

    JavaScript objects used as string-keyed records are finite maps
    ([gmap string _]); arrays are lists; [x[i]] on an array is list lookup,
    with [None] standing for [undefined]; promises are values of [Settled];
    the calls an adapter issues to the wrapped index are recorded in a log.
    Two classes of @langchain/core that the Upstash store relies on are
    modelled with it: the constructor of [Document], which turns the text
    it is given into a string, and [AsyncCaller], which runs a refused
    call again. *)

From stdpp Require Import gmap strings list fin_maps pretty.

Set Default Proof Using "Type".

(** ** Values shared by the adapters *)

(** What a rejected promise or a [throw] carries. *)
Inductive JsError : Type :=
| TypeError (message : string)
| Error (message : string)
| UpstreamError (detail : string).

(** A settled promise, or the outcome of a call that may throw. *)
Inductive Settled (A : Type) : Type :=
| Resolved (value : A)
| Rejected (reason : JsError).
Arguments Resolved {A} value.
Arguments Rejected {A} reason.

Definition isRejected {A} (p : Settled A) : bool :=
  match p with Rejected _ => true | Resolved _ => false end.

(** JavaScript truthiness of a string-or-undefined and of a
    boolean-or-undefined. *)
Definition truthyString (s : option string) : bool :=
  match s with
  | Some s => negb (String.eqb s "")
  | None => false
  end.

Definition truthyBool (b : option bool) : bool :=
  match b with Some true => true | _ => false end.

(** Modelled from the spec: [chunkArray] of @langchain/core/utils/chunk_array
    is imported by upstash.ts and is not among the sources. It partitions
    the input into contiguous chunks of at most [chunkSize] elements,
    preserving the original order within each chunk and across chunk
    boundaries; zero elements give zero chunks. The fuel is the length of
    the input, one unit per chunk. *)
Fixpoint chunkArrayFrom {T} (fuel : nat) (arr : list T) (chunkSize : nat)
  : list (list T) :=
  match fuel, arr with
  | S fuel', _ :: _ =>
      take chunkSize arr :: chunkArrayFrom fuel' (drop chunkSize arr) chunkSize
  | _, _ => []
  end.

Definition chunkArray {T} (arr : list T) (chunkSize : nat) : list (list T) :=
  chunkArrayFrom (length arr) arr chunkSize.

(** [Promise.all]: every value when all promises resolve, a rejection as
    soon as one rejects. Which rejection is reported when several promises
    reject depends on the order in which they settle; here it is the first
    in array order. *)
Fixpoint Promise_all {A} (promises : list (Settled A)) : Settled (list A) :=
  match promises with
  | [] => Resolved []
  | Rejected e :: _ => Rejected e
  | Resolved a :: rest =>
      match Promise_all rest with
      | Resolved values => Resolved (a :: values)
      | Rejected e => Rejected e
      end
  end.

(** [arr.map((x, index) => f(index, x))] for a callback that may throw: the
    first exception abandons the map. *)
Fixpoint mapIndexed {A B} (f : nat → A → Settled B) (index : nat) (arr : list A)
  : Settled (list B) :=
  match arr with
  | [] => Resolved []
  | x :: rest =>
      match f index x with
      | Rejected e => Rejected e
      | Resolved y =>
          match mapIndexed f (S index) rest with
          | Rejected e => Rejected e
          | Resolved ys => Resolved (y :: ys)
          end
      end
  end.

(** ** UpstashVectorStore *)
Module Upstash.

Section Model.

(** JavaScript numbers (vector components, scores). The adapter performs no
    arithmetic on them, so their representation is left open. *)
Context {number : Type}.

(** The values a metadata record may hold ([Record<string, any>]). *)
#[local] Unset Elimination Schemes.
Inductive JsValue : Type :=
| JsUndefined
| JsNull
| JsBool (b : bool)
| JsNumber (n : number)
| JsString (s : string)
| JsArray (items : list JsValue)
| JsObject (props : list (string * JsValue)).
#[local] Set Elimination Schemes.

(** [DocumentInterface], and the instances of the class [Document]: a
    text, which is a string, and a metadata record. *)
Record DocumentInterface : Type := Document {
  pageContent : string;
  metadata : gmap string JsValue
}.

(** [Number.prototype.toString]. *)
Variable showNumber : number → string.

(** Whether an object has a property of its own named [key]. *)
Definition hasOwnProperty {V} (key : string) (props : list (string * V)) : bool :=
  existsb (λ p, String.eqb p.1 key) props.

(** The conversion of a value of a JSON record to a string, as [join] does
    it for the elements of an array; [None] when the conversion throws. A
    string is itself, a boolean its literal, a number what [showNumber]
    gives, an array its elements joined by commas, where [join] writes
    nothing for an element that is [null] or [undefined]. An object is
    "[object Object]", unless it has a property of its own named toString:
    such a property of a JSON record is not a function, and the conversion
    throws. *)
Fixpoint toString (v : JsValue) : option string :=
  match v with
  | JsUndefined | JsNull => Some ""
  | JsBool true => Some "true"
  | JsBool false => Some "false"
  | JsNumber n => Some (showNumber n)
  | JsString s => Some s
  | JsArray items =>
      (fix join (items : list JsValue) : option string :=
         match items with
         | [] => Some ""
         | [item] => toString item
         | item :: rest =>
             match toString item, join rest with
             | Some first, Some others => Some (first +:+ "," +:+ others)
             | _, _ => None
             end
         end) items
  | JsObject props =>
      if hasOwnProperty "toString" props then None else Some "[object Object]"
  end.

(** The text [new Document] makes of the [pageContent] it is given. The
    class [Document] belongs to @langchain/core and is not among the
    sources; its constructor sets
    [this.pageContent = fields.pageContent !== undefined
       ? fields.pageContent.toString() : ""]:
    a missing text becomes the empty string, a string is kept, any other
    value is replaced by its [toString()]. The constructor throws a
    TypeError on [null], which has no [toString], on an object whose own
    toString is not a function, and on an array that cannot be
    converted. *)
Definition textOf (value : JsValue) : Settled string :=
  match value with
  | JsUndefined => Resolved ""
  | JsNull =>
      Rejected (TypeError "Cannot read properties of null (reading 'toString')")
  | JsObject props =>
      if hasOwnProperty "toString" props
      then Rejected (TypeError "fields.pageContent.toString is not a function")
      else Resolved "[object Object]"
  | _ =>
      match toString value with
      | Some text => Resolved text
      | None => Rejected (TypeError "Cannot convert object to primitive value")
      end
  end.

(** [new Document({ metadata, pageContent })]: the text as above, the
    metadata as given. *)
Definition newDocument (text : JsValue) (meta : gmap string JsValue)
  : Settled DocumentInterface :=
  match textOf text with
  | Resolved text => Resolved {| pageContent := text; metadata := meta |}
  | Rejected e => Rejected e
  end.

(** The reserved metadata key. *)
Definition _pageContentLC : string := "_pageContentLC".

(** [{ ...target, ...source }]: properties of [source] are written after
    those of [target] and replace them on equal keys. *)
Definition objectSpread (target source : gmap string JsValue) : gmap string JsValue :=
  source ∪ target.

(** [obj[key]], [undefined] when the property is absent. *)
Definition getProperty (key : string) (obj : gmap string JsValue) : JsValue :=
  default JsUndefined (obj !! key).

(** Lines 106-109 of addVectors:
    [{ _pageContentLC: doc.pageContent, ...doc.metadata }]. *)
Definition encodeMetadata (doc : DocumentInterface) : gmap string JsValue :=
  objectSpread {[ _pageContentLC := JsString (pageContent doc) ]} (metadata doc).

(** Lines 179-185 of similaritySearchVectorWithScore:
    [const { _pageContentLC, ...metadata } = raw;
     new Document({ metadata, pageContent: _pageContentLC })]. *)
Definition decodeMetadata (raw : gmap string JsValue) : Settled DocumentInterface :=
  newDocument (getProperty _pageContentLC raw) (delete _pageContentLC raw).

(** *** The wrapped index and the calls issued to it *)

(** One element of an upsert request. [id] is [documentIds[index]], which
    is [undefined] when the id array is shorter than the vector array. *)
Record UpstashVector : Type := {
  id : option string;
  vector : list number;
  vectorMetadata : gmap string JsValue
}.

(** The argument of [index.query]. [includeVectors] is the only field the
    optional [options] object of [_runUpstashQuery] may add. *)
Record QueryArgs : Type := {
  queryVector : list number;
  topK : Z;
  includeMetadata : bool;
  filter : option string;
  includeVectors : option bool
}.

(** One hit of a query response; [hitMetadata] is absent when the index
    stored none. *)
Record QueryHit : Type := {
  hitId : string;
  score : number;
  hitMetadata : option (gmap string JsValue)
}.

(** [ids: string | string[]] of [UpstashDeleteParams]. *)
Inductive Ids : Type :=
| IdOne (one : string)
| IdMany (many : list string).

(** A call received by the index. *)
Inductive SinkCall : Type :=
| CallUpsert (chunk : list UpstashVector)
| CallQuery (args : QueryArgs)
| CallDelete (target : Ids)
| CallReset.

(** The wrapped [UpstashIndex], an external collaborator. Each operation
    answers from the calls the index has received before and the argument
    of the present call, which covers stateless and stateful indexes
    alike. *)
Record UpstashIndex : Type := {
  index_upsert : list SinkCall → list UpstashVector → Settled unit;
  index_query : list SinkCall → QueryArgs → Settled (list QueryHit);
  index_delete : list SinkCall → Ids → Settled unit;
  index_reset : list SinkCall → Settled unit
}.

(** What a method of the store can change: the log of calls received by the
    index, oldest first, and the number of identifiers drawn from [uuid.v4].
    The log a method leaves is the log once the calls it started have all
    settled: when addVectors is rejected because one call failed, the runs
    the caller still owes to the other calls are part of it. *)
Record World : Type := {
  calls : list SinkCall;
  uuidCount : nat
}.

Definition logCall (c : SinkCall) (w : World) : World :=
  {| calls := calls w ++ [c]; uuidCount := uuidCount w |}.

(** An [async] method: it runs from a world, settles and leaves a world. *)
Definition Async (A : Type) : Type := World → Settled A * World.

Definition ret {A} (a : A) : Async A := λ w, (Resolved a, w).

(** [await]: a rejection abandons the rest of the method. *)
Definition bind {A B} (m : Async A) (k : A → Async B) : Async B :=
  λ w, match m w with
       | (Resolved a, w') => k a w'
       | (Rejected e, w') => (Rejected e, w')
       end.

Definition settle {A} (p : Settled A) : Async A := λ w, (p, w).

(** A method run from [w] fails before any call reaches the index. *)
Definition rejectsBeforeAnyCall {A} (m : Async A) (w : World) : Prop :=
  isRejected (m w).1 = true ∧ calls (m w).2 = calls w.

Local Notation "x <- m ;; k" := (bind m (λ x, k))
  (at level 100, m at next level, right associativity, only parsing).

(** *** The caller *)

(** Modelled from the spec: the store's [AsyncCaller]
    (@langchain/core/utils/async_caller, built at line 68 from the
    arguments of the constructor, not among the sources) is the call
    scheduler of the spec, which may retry; how it retries is taken from
    the library. [caller.call(thunk)] runs the
    thunk; when a run fails the call is either given up or, after a delay,
    the thunk is run again, up to [maxRetries] more times (6 unless the
    caller says otherwise). [givesUp e] tells whether the call is given up
    on the error [e], and with which error it is then rejected: the handler
    [onFailedAttempt] of the caller throws on [e], or [e] is of a kind that
    is never followed by another run. A call whose runs have all failed is
    rejected with the main error of its runs. The bound on concurrent
    calls is unlimited unless the caller says otherwise and only delays
    calls; it is not modelled. *)
Record AsyncCaller : Type := {
  maxRetries : nat;
  givesUp : JsError → option JsError
}.

(** Where a call stands after a run of its thunk: the run succeeded; it
    failed, as the earlier runs did, with the errors listed, oldest first,
    and will be run again if runs are left; or the call was given up. *)
Inductive Attempt : Type :=
| Accepted
| Refused (first : JsError) (later : list JsError)
| Abandoned (e : JsError).

(** [error.message]. *)
Definition messageOf (e : JsError) : string :=
  match e with
  | TypeError message | Error message | UpstreamError message => message
  end.

(** The number of [errors] with the message [message]. *)
Fixpoint occurrences (message : string) (errors : list JsError) : nat :=
  match errors with
  | [] => 0
  | e :: rest =>
      (if String.eqb (messageOf e) message then 1 else 0) + occurrences message rest
  end.

(** The main error of the failed runs of a call: the error whose message
    occurred most often, and the latest such error when several messages
    occurred as often. [seen] lists the errors gone through, [main] is the
    main error among them and [mainCount] the number of times its message
    occurred when it was chosen. *)
Fixpoint mainErrorFrom (seen : list JsError) (main : JsError) (mainCount : nat)
    (errors : list JsError) : JsError :=
  match errors with
  | [] => main
  | e :: rest =>
      let count := S (occurrences (messageOf e) seen) in
      if mainCount <=? count
      then mainErrorFrom (seen ++ [e]) e count rest
      else mainErrorFrom (seen ++ [e]) main mainCount rest
  end.

Definition mainError (first : JsError) (later : list JsError) : JsError :=
  mainErrorFrom [first] first 1 later.

(** The promise of a call once no run is left. *)
Definition promiseOf (attempt : Attempt) : Settled unit :=
  match attempt with
  | Accepted => Resolved ()
  | Refused first later => Rejected (mainError first later)
  | Abandoned e => Rejected e
  end.

(** *** The store *)

(** [options?: { ids?: string[] }] of addVectors. *)
Record AddOptions : Type := { optionIds : option (list string) }.

(** [UpstashDeleteParams] as it arrives at run time: either field may be
    missing. The declared type is the union of [{ ids }] and
    [{ deleteAll }], each excluding the other field. *)
Record UpstashDeleteParams : Type := {
  ids : option Ids;
  deleteAll : option bool
}.

(** Truthiness of [params.ids]: a string is truthy unless empty, an array
    always. *)
Definition truthyIds (target : Ids) : bool :=
  match target with
  | IdOne one => negb (String.eqb one "")
  | IdMany _ => true
  end.

Definition CONCURRENT_UPSERT_LIMIT : nat := 1000.

(** The object literal passed to [index.query] in _runUpstashQuery:
    [{ vector: query, topK: k, includeMetadata: true, filter, ...options }]. *)
Definition queryArgs (query : list number) (k : Z) (filter : option string)
    (options : option bool) : QueryArgs :=
  {| queryVector := query;
     topK := k;
     includeMetadata := true;
     filter := filter;
     includeVectors := options |}.

Section Store.

(** [this.caller], [this.index], and [uuid.v4] as the sequence of
    identifiers it hands out: [uuid_v4 n] is the identifier of the [n]-th
    draw. *)
Variable caller : AsyncCaller.
Variable index : UpstashIndex.
Variable uuid_v4 : nat → string.

(** [Array.from({ length }, () => uuid.v4())]. *)
Definition generateIds (count : nat) : Async (list string) :=
  λ w, (Resolved (uuid_v4 <$> seq (uuidCount w) count),
        {| calls := calls w; uuidCount := uuidCount w + count |}).

(** The callback of [vectors.map] in addVectors (lines 105-118). Reading
    [documents[index].pageContent] throws a TypeError when [documents] has
    no element at [index]. *)
Definition toUpstashVector (documentIds : list string)
    (documents : list DocumentInterface) (index : nat) (vector : list number)
  : Settled UpstashVector :=
  match documents !! index with
  | Some doc =>
      Resolved {| id := documentIds !! index;
                  vector := vector;
                  vectorMetadata := encodeMetadata doc |}
  | None =>
      Rejected (TypeError "Cannot read properties of undefined (reading 'pageContent')")
  end.

(** One run of the thunk [async () => this.index.upsert(chunk)] of
    addVectors (line 123), and what the caller makes of its outcome after
    the runs that failed with the errors [earlier]. *)
Definition attemptOf (earlier : list JsError) (outcome : Settled unit) : Attempt :=
  match outcome with
  | Resolved _ => Accepted
  | Rejected e =>
      match givesUp caller e with
      | Some thrown => Abandoned thrown
      | None =>
          match earlier with
          | [] => Refused e []
          | first :: later => Refused first (later ++ [e])
          end
      end
  end.

Definition attemptUpsert (earlier : list JsError) (chunk : list UpstashVector)
    (history : list SinkCall) : Attempt * list SinkCall :=
  (attemptOf earlier (index_upsert index history chunk),
   history ++ [CallUpsert chunk]).

(** [vectorChunks.map(chunk => this.caller.call(...))] (lines 121-125):
    the thunk of every chunk is run once, in order, whatever the outcome of
    the earlier ones. *)
Fixpoint firstAttempts (vectorChunks : list (list UpstashVector))
    (history : list SinkCall)
  : list (list UpstashVector * Attempt) * list SinkCall :=
  match vectorChunks with
  | [] => ([], history)
  | chunk :: rest =>
      let '(attempt, h1) := attemptUpsert [] chunk history in
      let '(attempts, h2) := firstAttempts rest h1 in
      ((chunk, attempt) :: attempts, h2)
  end.

(** The chunks whose last run was refused: those the caller runs again. *)
Definition pending (attempts : list (list UpstashVector * Attempt))
  : list (list UpstashVector) :=
  omap (λ a, match a.2 with Refused _ _ => Some a.1 | _ => None end) attempts.

(** The delay before a run is repeated is a second at least, so the
    repeated runs come after the first run of every chunk. The index is
    taken to answer promptly, so that the refused chunks are run again in
    rounds; within a round the delays differ by a random amount, and the
    order of the chunks is taken. *)
Fixpoint retryRound (attempts : list (list UpstashVector * Attempt))
    (history : list SinkCall)
  : list (list UpstashVector * Attempt) * list SinkCall :=
  match attempts with
  | [] => ([], history)
  | (chunk, Refused first later) :: rest =>
      let '(attempt, h1) := attemptUpsert (first :: later) chunk history in
      let '(attempts', h2) := retryRound rest h1 in
      ((chunk, attempt) :: attempts', h2)
  | settled :: rest =>
      let '(attempts', h2) := retryRound rest history in
      (settled :: attempts', h2)
  end.

Fixpoint retryRounds (rounds : nat) (attempts : list (list UpstashVector * Attempt))
    (history : list SinkCall)
  : list (list UpstashVector * Attempt) * list SinkCall :=
  match rounds with
  | 0 => (attempts, history)
  | S rounds' =>
      let '(attempts', h1) := retryRound attempts history in
      retryRounds rounds' attempts' h1
  end.

(** The index refused [chunk] the first time it was handed it, when the
    chunks [vectorChunks] were submitted from the log [history] on, and the
    call was not given up: the chunk is one the caller runs again. *)
Definition refusedAtFirst (vectorChunks : list (list UpstashVector))
    (history : list SinkCall) (chunk : list UpstashVector) : Prop :=
  ∃ i e, vectorChunks !! i = Some chunk
         ∧ index_upsert index (history ++ (CallUpsert <$> take i vectorChunks)) chunk
           = Rejected e
         ∧ givesUp caller e = None.

(** The promises of the calls of all the chunks, settled, and the log they
    leave, from the log [history] at the time the first chunk is
    submitted. *)
Definition submitChunks (vectorChunks : list (list UpstashVector))
    (history : list SinkCall) : list (Settled unit) * list SinkCall :=
  let '(first, h1) := firstAttempts vectorChunks history in
  let '(final, h2) := retryRounds (maxRetries caller) first h1 in
  ((λ a, promiseOf a.2) <$> final, h2).

Definition batchRequests (vectorChunks : list (list UpstashVector)) (w : World)
  : list (Settled unit) * World :=
  let '(promises, history) := submitChunks vectorChunks (calls w) in
  (promises, {| calls := history; uuidCount := uuidCount w |}).

(** The promises [batchRequests] obtains, read off the caller and the
    index alone. *)
Definition submissionOutcomes (vectorChunks : list (list UpstashVector))
    (history : list SinkCall) : list (Settled unit) :=
  (submitChunks vectorChunks history).1.

(** [options?.ids ?? Array.from(...)], as a value: the identifiers
    addVectors works with when it starts in world [w]. *)
Definition documentIdsOf (vectors : list (list number))
    (options : option AddOptions) (w : World) : list string :=
  match options ≫= optionIds with
  | Some supplied => supplied
  | None => uuid_v4 <$> seq (uuidCount w) (length vectors)
  end.

(** addVectors (lines 97-129), with the chunk size as a parameter. *)
Definition addVectorsWith (chunkSize : nat) (vectors : list (list number))
    (documents : list DocumentInterface) (options : option AddOptions)
  : Async (list string) :=
  documentIds <- match options ≫= optionIds with
                 | Some supplied => ret supplied
                 | None => generateIds (length vectors)
                 end ;;
  upstashVectors <-
    settle (mapIndexed (toUpstashVector documentIds documents) 0 vectors) ;;
  let vectorChunks := chunkArray upstashVectors chunkSize in
  _ <- (λ w, let '(promises, w') := batchRequests vectorChunks w in
             (Promise_all promises, w')) ;;
  ret documentIds.

Definition addVectors : list (list number) → list DocumentInterface →
    option AddOptions → Async (list string) :=
  addVectorsWith CONCURRENT_UPSERT_LIMIT.

(** delete (lines 137-143); the name [delete] is taken by finite maps. *)
Definition deleteVectors (params : UpstashDeleteParams) : Async unit :=
  if truthyBool (deleteAll params) then
    λ w, (index_reset index (calls w), logCall CallReset w)
  else
    match ids params with
    | Some target =>
        if truthyIds target then
          λ w, (index_delete index (calls w) target, logCall (CallDelete target) w)
        else ret tt
    | None => ret tt
    end.

(** _runUpstashQuery (lines 145-160). *)
Definition _runUpstashQuery (query : list number) (k : Z)
    (filter : option string) (options : option bool) : Async (list QueryHit) :=
  λ w, let args := queryArgs query k filter options in
       (index_query index (calls w) args, logCall (CallQuery args) w).

(** The callback of [results.map] in similaritySearchVectorWithScore
    (lines 178-188): [res.metadata ?? {}] is decoded, the score is copied.
    The callback throws when the constructor of the document does. *)
Definition toScoredDocument (res : QueryHit) : Settled (DocumentInterface * number) :=
  match decodeMetadata (default ∅ (hitMetadata res)) with
  | Resolved document => Resolved (document, score res)
  | Rejected e => Rejected e
  end.

(** similaritySearchVectorWithScore (lines 171-191). *)
Definition similaritySearchVectorWithScore (query : list number) (k : Z)
    (filter : option string) : Async (list (DocumentInterface * number)) :=
  results <- _runUpstashQuery query k filter None ;;
  settle (mapIndexed (λ _, toScoredDocument) 0 results).

End Store.

End Model.

Arguments JsValue number : clear implicits.
Arguments DocumentInterface number : clear implicits.
Arguments UpstashVector number : clear implicits.
Arguments QueryArgs number : clear implicits.
Arguments QueryHit number : clear implicits.
Arguments SinkCall number : clear implicits.
Arguments UpstashIndex number : clear implicits.
Arguments World number : clear implicits.
Arguments Async number A : clear implicits.

End Upstash.

(** ** RedisByteStore *)
Module IoRedis.

(** The configuration of the store, without its client. A string is the
    sequence of its units; [length], [slice] and concatenation all count in
    the same units. *)
Record RedisByteStore : Type := {
  namespace : option string;
  ttl : option Z;
  yieldKeysScanBatchSize : Z
}.

Definition delimiter : string := "/".

(** [s.slice(start)] for a start index that is not negative: the string
    without its first [start] units, empty when [start] is past the end. *)
Fixpoint slice (start : nat) (s : string) : string :=
  match start, s with
  | 0, _ => s
  | S start', String _ rest => slice start' rest
  | S _, EmptyString => EmptyString
  end.

(** _getPrefixedKey (lines 59-65). *)
Definition _getPrefixedKey (this : RedisByteStore) (key : string) : string :=
  if truthyString (namespace this) then
    default "" (namespace this) +:+ delimiter +:+ key
  else key.

(** _getDeprefixedKey (lines 67-73). *)
Definition _getDeprefixedKey (this : RedisByteStore) (key : string) : string :=
  if truthyString (namespace this) then
    slice (String.length (default "" (namespace this)) + String.length delimiter) key
  else key.

End IoRedis.

(** ** PostgresChatMessageHistory *)
Module Postgres.

Section Model.

(** [pg.Pool] and [pg.PoolConfig] are opaque to the constructor, and
    [pg.escapeIdentifier] belongs to the driver. *)
Context {Pool PoolConfig : Type}.
Variable escapeIdentifier : string → string.

Record PostgresChatMessageHistoryInput : Type := {
  tableName : option string;
  sessionId : string;
  poolConfig : option PoolConfig;
  pool : option Pool;
  escapeTableName : option bool
}.

(** The value of [this.pool]: the pool handed in, or
    [new pg.Pool(poolConfig)]. *)
Inductive PoolHandle : Type :=
| SuppliedPool (supplied : Pool)
| NewPool (config : option PoolConfig).

Record PostgresChatMessageHistory : Type := {
  this_pool : PoolHandle;
  this_tableName : string;
  this_sessionId : string;
  initialized : bool
}.

(** The initializer of the [tableName] field. *)
Definition defaultTableName : string := "langchain_chat_histories".

(** [const _tableName = tableName || this.tableName] (line 100): the empty
    string is falsy and gives way to the default like a missing name. *)
Definition _tableName (fields : PostgresChatMessageHistoryInput) : string :=
  if truthyString (tableName fields)
  then default "" (tableName fields)
  else defaultTableName.

(** constructor (lines 90-105). An object is truthy, so [!pool] holds
    exactly when no pool was passed. *)
Definition constructor (fields : PostgresChatMessageHistoryInput)
  : Settled PostgresChatMessageHistory :=
  if negb (bool_decide (is_Some (pool fields)))
     && negb (bool_decide (is_Some (poolConfig fields))) then
    Rejected
      (Error "PostgresChatMessageHistory requires either a pool instance or pool config")
  else
    let thisPool := match pool fields with
                    | Some supplied => SuppliedPool supplied
                    | None => NewPool (poolConfig fields)
                    end in
    Resolved {| this_pool := thisPool;
                this_tableName := if truthyBool (escapeTableName fields)
                                  then escapeIdentifier (_tableName fields)
                                  else _tableName fields;
                this_sessionId := sessionId fields;
                initialized := false |}.

End Model.

Arguments PostgresChatMessageHistoryInput Pool PoolConfig : clear implicits.
Arguments PostgresChatMessageHistory Pool PoolConfig : clear implicits.
Arguments PoolHandle Pool PoolConfig : clear implicits.

End Postgres.

(** ** Concrete inputs *)
Module Samples.

Import Upstash.

(** Numbers as integers, written in decimal. *)
Definition showZ (n : Z) : string := pretty n.

(** The caller of a store built without caller arguments, on errors that
    do not make it give a call up, and a caller that never runs a thunk
    again. *)
Definition retryingCaller : AsyncCaller :=
  {| maxRetries := 6; givesUp := λ _, None |}.

Definition singleAttemptCaller : AsyncCaller :=
  {| maxRetries := 0; givesUp := λ _, None |}.

Definition catDocument : DocumentInterface Z :=
  {| pageContent := "cat";
     metadata := {[ "species" := JsString "felis"; "legs" := JsNumber 4%Z ]} |}.

Definition dogDocument : DocumentInterface Z :=
  {| pageContent := "dog"; metadata := ∅ |}.

Definition birdDocument : DocumentInterface Z :=
  {| pageContent := "bird"; metadata := {[ "wings" := JsBool true ]} |}.

(** A document whose metadata uses the reserved key. *)
Definition collidingDocument : DocumentInterface Z :=
  {| pageContent := "the text";
     metadata := {[ "_pageContentLC" := JsString "caller value";
                    "page" := JsNumber 3%Z ]} |}.

(** An index that accepts every call and holds no vectors. *)
Definition acceptingIndex : UpstashIndex Z :=
  {| index_upsert := λ _ _, Resolved ();
     index_query := λ _ _, Resolved [];
     index_delete := λ _ _, Resolved ();
     index_reset := λ _, Resolved () |}.

(** An index that refuses the second call it receives. *)
Definition secondCallFails : UpstashIndex Z :=
  {| index_upsert := λ history _,
       if decide (length history = 1) then Rejected (UpstreamError "503")
       else Resolved ();
     index_query := λ _ _, Resolved [];
     index_delete := λ _ _, Resolved ();
     index_reset := λ _, Resolved () |}.

(** An index that refuses every upsert holding the vector (0, 1). *)
Definition secondVectorRefused : UpstashIndex Z :=
  {| index_upsert := λ _ chunk,
       if existsb (λ uv, match vector uv with
                         | [a; b] => Z.eqb a 0 && Z.eqb b 1
                         | _ => false
                         end) chunk
       then Rejected (UpstreamError "503")
       else Resolved ();
     index_query := λ _ _, Resolved [];
     index_delete := λ _ _, Resolved ();
     index_reset := λ _, Resolved () |}.

Definition catHit : QueryHit Z :=
  {| hitId := "a"; score := 97%Z; hitMetadata := Some (encodeMetadata catDocument) |}.

Definition bareHit : QueryHit Z :=
  {| hitId := "b"; score := 42%Z; hitMetadata := None |}.

Definition dogHit : QueryHit Z :=
  {| hitId := "c"; score := 97%Z; hitMetadata := Some (encodeMetadata dogDocument) |}.

(** An index that answers every query with three hits, the second without
    metadata, the first and third with equal scores. *)
Definition threeHits : UpstashIndex Z :=
  {| index_upsert := λ _ _, Resolved ();
     index_query := λ _ _, Resolved [catHit; bareHit; dogHit];
     index_delete := λ _ _, Resolved ();
     index_reset := λ _, Resolved () |}.

(** A hit whose metadata holds [null] under the reserved key, and an index
    that answers every query with the cat and that hit. *)
Definition nullTextHit : QueryHit Z :=
  {| hitId := "d"; score := 5%Z;
     hitMetadata := Some {[ "_pageContentLC" := JsNull; "page" := JsNumber 3%Z ]} |}.

Definition nullTextAnswer : UpstashIndex Z :=
  {| index_upsert := λ _ _, Resolved ();
     index_query := λ _ _, Resolved [catHit; nullTextHit];
     index_delete := λ _ _, Resolved ();
     index_reset := λ _, Resolved () |}.

Definition sampleVectors : list (list Z) := [[1; 0]; [0; 1]; [1; 1]]%Z.

Definition sampleDocuments : list (DocumentInterface Z) :=
  [catDocument; dogDocument; birdDocument].

Definition sampleUuid (n : nat) : string := "uuid-" +:+ pretty n.

Definition freshWorld : World Z := {| calls := []; uuidCount := 0 |}.

(** Delete requests: both modes at once, and no mode at all (twice). *)
Definition bothModes : UpstashDeleteParams :=
  {| ids := Some (IdMany ["a"; "b"]); deleteAll := Some true |}.

Definition neitherMode : UpstashDeleteParams :=
  {| ids := None; deleteAll := None |}.

Definition deleteAllFalse : UpstashDeleteParams :=
  {| ids := None; deleteAll := Some false |}.

End Samples.

(** ** UpstashVectorStore: the methods built on addVectors *)
Module UpstashStore.

Import Upstash.

Section Model.

Context {number : Type}.

Local Notation "x <- m ;; k" := (bind m (λ x, k))
  (at level 100, m at next level, right associativity, only parsing).

(** The vectors an index has been asked to upsert, in the order of the
    calls and, within a call, of the chunk. *)
Definition upsertedVectors (log : list (SinkCall number))
  : list (UpstashVector number) :=
  log ≫= λ c, match c with CallUpsert chunk => chunk | _ => [] end.

(** [metadatas: UpstashMetadata | UpstashMetadata[]] of fromTexts. *)
Inductive Metadatas : Type :=
| OneMetadata (shared : gmap string (JsValue number))
| ManyMetadatas (each : list (gmap string (JsValue number))).

(** [Array.isArray(metadatas) ? metadatas[i] : metadatas] (line 212). An
    array shorter than the texts gives [undefined], which the constructor
    of the document replaces by the empty record. *)
Definition metadataAt (metadatas : Metadatas) (i : nat)
  : gmap string (JsValue number) :=
  match metadatas with
  | OneMetadata shared => shared
  | ManyMetadatas each => default ∅ (each !! i)
  end.

(** The loop of fromTexts (lines 209-218), from index [i] on; the
    constructor of the document keeps a text that is a string. *)
Fixpoint textDocuments (texts : list string) (metadatas : Metadatas) (i : nat)
  : list (DocumentInterface number) :=
  match texts with
  | [] => []
  | text :: rest =>
      {| pageContent := text; metadata := metadataAt metadatas i |}
      :: textDocuments rest metadatas (S i)
  end.

Section Store.

(** [this.caller], [this.index], [uuid.v4] and
    [this.embeddings.embedDocuments]; the embedder is an external
    collaborator that answers with vectors or fails. *)
Variable caller : AsyncCaller.
Variable index : UpstashIndex number.
Variable uuid_v4 : nat → string.
Variable embedDocuments : list string → Settled (list (list number)).

(** addDocuments (lines 79-88). *)
Definition addDocuments (documents : list (DocumentInterface number))
    (options : option AddOptions) : Async number (list string) :=
  let texts := pageContent <$> documents in
  embeddings <- settle (embedDocuments texts) ;;
  addVectors caller index uuid_v4 embeddings documents options.

(** fromDocuments (lines 230-238): the constructor contacts nothing; the
    instance is the store made of [caller], [index], [uuid_v4] and
    [embedDocuments]. *)
Definition fromDocuments (docs : list (DocumentInterface number))
  : Async number unit :=
  _ <- addDocuments docs None ;;
  ret ().

(** fromTexts (lines 203-221). *)
Definition fromTexts (texts : list string) (metadatas : Metadatas)
  : Async number unit :=
  fromDocuments (textDocuments texts metadatas 0).

(** fromExistingIndex (lines 246-252). *)
Definition fromExistingIndex : Async number unit := ret ().

End Store.

End Model.

Arguments Metadatas number : clear implicits.

End UpstashStore.

(** ** RedisByteStore: yieldKeys *)
Module RedisStore.

Import IoRedis.

(** [s.endsWith(suffix)]. *)
Definition endsWith (s suffix : string) : bool :=
  (String.length suffix <=? String.length s)
  && String.eqb (slice (String.length s - String.length suffix) s) suffix.

(** The MATCH pattern of yieldKeys (lines 129-135). *)
Definition scanPattern (this : RedisByteStore) (prefix : option string) : string :=
  if truthyString prefix then
    let wildcardPrefix :=
      if endsWith (default "" prefix) "*" then default "" prefix
      else default "" prefix +:+ "*" in
    _getPrefixedKey this wildcardPrefix
  else _getPrefixedKey this "*".

(** One [client.scan(cursor, "MATCH", pattern, "COUNT", count)]. The first
    call passes the number 0, which reaches the server as the cursor "0". *)
Record ScanCall : Type := {
  scanCursor : string;
  scanMatch : string;
  scanCount : Z
}.

(** How far a run of the generator got: to its end, to an exception, or it
    is suspended before the scan at [cursor], with more to do. *)
Inductive Ending : Type :=
| Completed
| Threw (reason : JsError)
| Suspended (cursor : string).

Section Model.

(** [this.client.scan]: an external collaborator, which answers the scan
    number [n] of a run with the next cursor and a batch of keys, or
    fails. *)
Variable client_scan : nat → ScanCall → Settled (string * list string).
Variable this : RedisByteStore.

(** The scans of yieldKeys (lines 136-157) from the scan number [issued]
    at [cursor] on: the first scan and then the loop
    [while (cursor !== "0")]. The result lists the keys yielded and the
    scans made, in order; [fuel] bounds the number of scans the consumer
    lets the generator make. *)
Fixpoint scanFrom (fuel issued : nat) (cursor pattern : string)
  : list string * list ScanCall * Ending :=
  match fuel with
  | 0 => ([], [], Suspended cursor)
  | S fuel' =>
      let call := {| scanCursor := cursor; scanMatch := pattern;
                     scanCount := yieldKeysScanBatchSize this |} in
      match client_scan issued call with
      | Rejected e => ([], [call], Threw e)
      | Resolved (next, batch) =>
          let yielded := _getDeprefixedKey this <$> batch in
          if String.eqb next "0" then (yielded, [call], Completed)
          else
            let '(keys, scans, ending) := scanFrom fuel' (S issued) next pattern in
            (yielded ++ keys, call :: scans, ending)
      end
  end.

(** yieldKeys (lines 128-158). *)
Definition yieldKeys (fuel : nat) (prefix : option string)
  : list string * list ScanCall * Ending :=
  scanFrom fuel 0 "0" (scanPattern this prefix).

(** The batch the client returned to the scan number [n], empty when the
    scan failed. *)
Definition batchOf (n : nat) (call : ScanCall) : list string :=
  match client_scan n call with
  | Resolved (_, batch) => batch
  | Rejected _ => []
  end.

End Model.

(** Whether the delimiter occurs in a string. *)
Fixpoint hasDelimiter (s : string) : bool :=
  match s with
  | EmptyString => false
  | String c rest => String.eqb (String c EmptyString) delimiter || hasDelimiter rest
  end.

End RedisStore.

(** ** PostgresChatMessageHistory: the methods *)
Module PostgresHistory.

Import Upstash Postgres.

(** What [pool.query] throws: an error object, with or without a [code]. *)
Record QueryError : Type := {
  code : option string;
  detail : string
}.

(** The outcome of a method or of a query. *)
Inductive Outcome (A : Type) : Type :=
| Done (value : A)
| Failed (error : QueryError).
Arguments Done {A} value.
Arguments Failed {A} error.

Section Model.

Context {number Pool PoolConfig Message : Type}.

(** [StoredMessage]: [{ type, data }]. A message to store has a string for
    type; the type read back from a row is whatever the row holds. *)
Record StoredMessage : Type := {
  type : JsValue number;
  data : gmap string (JsValue number)
}.

(** A bound parameter of a query: the session id, or the JSON object of a
    message. *)
Inductive QueryValue : Type :=
| TextValue (s : string)
| JsonValue (object : gmap string (JsValue number)).

(** [pool.query(text, values)]. *)
Record Query : Type := {
  text : string;
  values : list QueryValue
}.

(** The pool, an external collaborator: it answers a query, given the
    queries received before, with the [message] column of the rows of its
    result, or fails. *)
Variable pool_query : list Query → Query → Outcome (list (gmap string (JsValue number))).

(** [mapChatMessagesToStoredMessages([message])[0]] and
    [mapStoredMessagesToChatMessages] of @langchain/core. *)
Variable toStoredMessage : Message → StoredMessage.
Variable mapStoredMessagesToChatMessages : list StoredMessage → list Message.

(** The object and the queries received by the pool so far. *)
Record Session : Type := {
  this : PostgresChatMessageHistory Pool PoolConfig;
  queries : list Query
}.

Definition Method (A : Type) : Type := Session → Outcome A * Session.

(** [await this.pool.query(text, values)]. *)
Definition query (q : Query) : Method (list (gmap string (JsValue number))) :=
  λ s, (pool_query (queries s) q, {| this := this s; queries := queries s ++ [q] |}).

(** [this.initialized = true]. *)
Definition markInitialized (s : Session) : Session :=
  {| this := {| this_pool := this_pool (this s);
                this_tableName := this_tableName (this s);
                this_sessionId := this_sessionId (this s);
                initialized := true |};
     queries := queries s |}.

(** The statement of ensureTable (lines 114-119). *)
Definition createTableText (tableName : string) : string :=
  "
        CREATE TABLE IF NOT EXISTS " +:+ tableName +:+ " (
            id SERIAL PRIMARY KEY,
            session_id VARCHAR(255) NOT NULL,
            message JSONB NOT NULL
        );".

Definition insertText (tableName : string) : string :=
  "INSERT INTO " +:+ tableName +:+ " (session_id, message) VALUES ($1, $2)".

Definition selectText (tableName : string) : string :=
  "SELECT message FROM " +:+ tableName +:+ " WHERE session_id = $1 ORDER BY id".

Definition deleteText (tableName : string) : string :=
  "DELETE FROM " +:+ tableName +:+ " WHERE session_id = $1".

(** [!("code" in e) || e.code !== "23505"] (line 130). *)
Definition mustRethrow (e : QueryError) : bool :=
  match code e with
  | Some c => negb (String.eqb c "23505")
  | None => true
  end.

(** The query of ensureTable: the statement, without bound parameters. *)
Definition createQuery (h : PostgresChatMessageHistory Pool PoolConfig) : Query :=
  {| text := createTableText (this_tableName h); values := [] |}.

(** ensureTable (lines 111-135). *)
Definition ensureTable : Method unit :=
  λ s,
    if initialized (this s) then (Done (), s)
    else
      let '(reply, s1) := query (createQuery (this s)) s in
      match reply with
      | Failed e => if mustRethrow e then (Failed e, s1) else (Done (), markInitialized s1)
      | Done _ => (Done (), markInitialized s1)
      end.

(** [await m; k]. *)
Definition andThen {A B} (m : Method A) (k : A → Method B) : Method B :=
  λ s, match m s with
       | (Done a, s1) => k a s1
       | (Failed e, s1) => (Failed e, s1)
       end.

(** [{ ...data, type }] (line 143). *)
Definition rowOfStored (stored : StoredMessage) : gmap string (JsValue number) :=
  <["type" := type stored]> (data stored).

(** [const { type, ...data } = row.message; return { type, data }]
    (lines 155-156). *)
Definition storedOfRow (message : gmap string (JsValue number)) : StoredMessage :=
  {| type := getProperty "type" message; data := delete "type" message |}.

(** addMessage (lines 137-144). *)
Definition addMessage (message : Message) : Method unit :=
  andThen ensureTable (λ _ s,
    let stored := toStoredMessage message in
    let q := {| text := insertText (this_tableName (this s));
                values := [TextValue (this_sessionId (this s));
                           JsonValue (rowOfStored stored)] |} in
    andThen (query q) (λ _ s', (Done (), s')) s).

(** getMessages (lines 146-160). *)
Definition getMessages : Method (list Message) :=
  andThen ensureTable (λ _ s,
    let q := {| text := selectText (this_tableName (this s));
                values := [TextValue (this_sessionId (this s))] |} in
    andThen (query q) (λ rows s',
      (Done (mapStoredMessagesToChatMessages (storedOfRow <$> rows)), s')) s).

(** clear (lines 162-167). *)
Definition clear : Method unit :=
  andThen ensureTable (λ _ s,
    let q := {| text := deleteText (this_tableName (this s));
                values := [TextValue (this_sessionId (this s))] |} in
    andThen (query q) (λ _ s', (Done (), s')) s).

(** A call of one of the three methods, and a sequence of calls made one
    after the other, whatever each returns. *)
Inductive Call : Type :=
| CallAddMessage (message : Message)
| CallGetMessages
| CallClear.

Definition call (c : Call) (s : Session) : Session :=
  match c with
  | CallAddMessage message => (addMessage message s).2
  | CallGetMessages => (getMessages s).2
  | CallClear => (clear s).2
  end.

Definition callAll (cs : list Call) (s : Session) : Session :=
  foldl (λ s c, call c s) s cs.

(** The statement a call sends once the table exists, and the JSON objects
    bound to the queries of a log. *)
Definition statementOf (tableName : string) (c : Call) : string :=
  match c with
  | CallAddMessage _ => insertText tableName
  | CallGetMessages => selectText tableName
  | CallClear => deleteText tableName
  end.

(** The query a call sends after ensureTable, for an object [h]. *)
Definition queryOf (h : PostgresChatMessageHistory Pool PoolConfig) (c : Call) : Query :=
  {| text := statementOf (this_tableName h) c;
     values := TextValue (this_sessionId h)
               :: match c with
                  | CallAddMessage message =>
                      [JsonValue (rowOfStored (toStoredMessage message))]
                  | _ => []
                  end |}.

Definition boundObjects (log : list Query) : list (gmap string (JsValue number)) :=
  log ≫= λ q, values q ≫= λ v,
    match v with JsonValue object => [object] | TextValue _ => [] end.

End Model.

Arguments StoredMessage number : clear implicits.
Arguments QueryValue number : clear implicits.
Arguments Query number : clear implicits.
Arguments Session number Pool PoolConfig : clear implicits.
Arguments Call Message : clear implicits.

End PostgresHistory.

(** ** VectaraStore *)
Module Vectara.

Import Upstash.

(** An [Error] object: its message and, when the code sets one, its
    [code]. *)
Record ErrorObject : Type := {
  message : string;
  errorCode : option Z
}.

(** The outcome of a method, of a [fetch] or of a loop body. *)
Inductive Result (A : Type) : Type :=
| Returned (value : A)
| Thrown (error : ErrorObject).
Arguments Returned {A} value.
Arguments Thrown {A} error.

Definition isThrown {A} (r : Result A) : bool :=
  match r with Thrown _ => true | Returned _ => false end.

(** [new Error(message)] and the same with [error.code = 500]. *)
Definition newError (message : string) : ErrorObject :=
  {| message := message; errorCode := None |}.

Definition newError500 (message : string) : ErrorObject :=
  {| message := message; errorCode := Some 500%Z |}.

Section Model.

(** JavaScript numbers. The store tests them for truthiness and uses a few
    literals; nothing else is needed of them. *)
Context {number : Type}.
Variable isNaN : number → bool.
Variable isZero : number → bool.
Variable literal : Z → number.

(** Truthiness of a number: neither NaN nor zero. *)
Definition truthyNumber (n : number) : bool := negb (isNaN n || isZero n).

(** *** Configuration of a query *)

Record VectaraContextConfig : Type := {
  charsBefore : option number;
  charsAfter : option number;
  sentencesBefore : option number;
  sentencesAfter : option number;
  startTag : option string;
  endTag : option string
}.

Record MMRConfig : Type := {
  enabled : option bool;
  mmrTopK : option number;
  diversityBias : option number
}.

Record VectaraSummary : Type := {
  summaryEnabled : bool;
  summarizerPromptName : option string;
  maxSummarizedResults : number;
  responseLang : string
}.

Record VectaraFilter : Type := {
  start : option number;
  filter : option string;
  lambda : option number;
  contextConfig : option VectaraContextConfig;
  mmrConfig : option MMRConfig
}.

Definition DEFAULT_FILTER : VectaraFilter :=
  {| start := Some (literal 0);
     filter := Some "";
     lambda := Some (literal 0);
     contextConfig :=
       Some {| charsBefore := None; charsAfter := None;
               sentencesBefore := Some (literal 2);
               sentencesAfter := Some (literal 2);
               startTag := Some "<b>"; endTag := Some "</b>" |};
     mmrConfig := Some {| enabled := Some false;
                          mmrTopK := Some (literal 0);
                          diversityBias := Some (literal 0) |} |}.

(** The default value of the [summary] parameter of vectaraQuery. *)
Definition defaultSummary : VectaraSummary :=
  {| summaryEnabled := false; summarizerPromptName := None;
     maxSummarizedResults := literal 0; responseLang := "eng" |}.

(** [mmrConfig?.enabled], as a condition. *)
Definition mmrEnabled (f : VectaraFilter) : bool :=
  truthyBool (mmrConfig f ≫= enabled).

(** *** The query request and its answer *)

(** [this.customerId]: the number passed to the constructor, or the text of
    the environment variable. *)
Inductive CustomerId : Type :=
| CustomerNumber (n : number)
| CustomerText (s : string).

Record CorpusKey : Type := {
  keyCustomerId : CustomerId;
  keyCorpusId : number;
  metadataFilter : option string;
  lexicalLambda : option number
}.

(** [rerankingConfig], present when MMR is enabled. *)
Record RerankingConfig : Type := {
  rerankerId : number;
  rerankDiversityBias : option number
}.

(** The single element of [data.query] in vectaraQuery. *)
Record QueryData : Type := {
  queryText : string;
  queryStart : option number;
  numResults : option number;
  queryContextConfig : option VectaraContextConfig;
  rerankingConfig : option RerankingConfig;
  corpusKey : list CorpusKey;
  querySummary : option (list VectaraSummary)
}.

(** [{ name, value }], an entry of the metadata the service returns. *)
Record MetadataItem : Type := {
  name : string;
  value : JsValue number
}.

(** An element of [responseSet[0].response] and of
    [responseSet[0].document]. The text of a response is a string
    (lines 767-770). *)
Record QueryResponse : Type := {
  responseText : string;
  responseScore : number;
  documentIndex : nat;
  responseMetadata : list MetadataItem
}.

Record ResponseSet : Type := {
  response : list QueryResponse;
  document : list (list MetadataItem);
  summary : list (option string)
}.

(** [SummaryResult]. *)
Record SummaryResult : Type := {
  documents : list (DocumentInterface number);
  scores : list number;
  summaryText : string
}.

(** [items.forEach(item => { combinedMetadata[item.name] = item.value })]. *)
Definition assignItems (items : list MetadataItem)
    (combinedMetadata : gmap string (JsValue number)) : gmap string (JsValue number) :=
  foldl (λ combined item, <[name item := value item]> combined) combinedMetadata items.

(** The value the last entry named [key] gives it, if there is one. *)
Fixpoint lastValue (key : string) (items : list MetadataItem)
  : option (JsValue number) :=
  match items with
  | [] => None
  | item :: rest =>
      match lastValue key rest with
      | Some v => Some v
      | None => if decide (name item = key) then Some (value item) else None
      end
  end.

(** The body of the loop of vectaraQuery over the responses
    (lines 749-763): the metadata
    of the response, then the metadata of its document, are written into one
    record. Reading the metadata of a document that is not in the answer
    throws. *)
Definition combineMetadata (documents : list (list MetadataItem))
    (r : QueryResponse) : Result (string * gmap string (JsValue number) * number) :=
  match documents !! documentIndex r with
  | None =>
      Thrown (newError "Cannot read properties of undefined (reading 'metadata')")
  | Some documentMetadata =>
      Returned (responseText r,
                assignItems documentMetadata (assignItems (responseMetadata r) ∅),
                responseScore r)
  end.

(** [for] loop with a body that may throw, collecting the results. *)
Fixpoint forEachResult {A B} (body : A → Result B) (items : list A) : Result (list B) :=
  match items with
  | [] => Returned []
  | item :: rest =>
      match body item with
      | Thrown e => Thrown e
      | Returned b =>
          match forEachResult body rest with
          | Thrown e => Thrown e
          | Returned bs => Returned (b :: bs)
          end
      end
  end.

(** What vectaraQuery makes of the first response set of the answer
    (lines 746-786). [new Document] keeps the text of a response, which is
    a string. *)
Definition summaryResultOf (set : ResponseSet) : Result SummaryResult :=
  match forEachResult (combineMetadata (document set)) (response set) with
  | Thrown e => Thrown e
  | Returned responses =>
      Returned
        {| documents := (λ r, {| pageContent := r.1.1; metadata := r.1.2 |}) <$> responses;
           scores := (λ r, r.2) <$> responses;
           summaryText := default "" (head (summary set) ≫= λ text, text) |}
  end.

(** *** The store, the requests it sends and the service *)

Record VectaraStore : Type := {
  apiKey : string;
  corpusId : list number;
  customerId : CustomerId;
  verbose : bool;
  source : string
}.

(** [number.toString()], [JSON.stringify] of a value and [uuid.v4]. *)
Variable showNumber : number → string.
Variable stringify : JsValue number → string.
Variable uuid_v4 : nat → string.

Record VectaraCallHeader : Type := {
  x_api_key : string;
  content_type : string;
  customer_id : string;
  x_source : string
}.

(** getJsonHeader (lines 474-483). *)
Definition getJsonHeader (this : VectaraStore) : VectaraCallHeader :=
  {| x_api_key := apiKey this;
     content_type := "application/json";
     customer_id := match customerId this with
                    | CustomerNumber n => showNumber n
                    | CustomerText s => s
                    end;
     x_source := source this |}.

(** The [document] of the body of an index request. *)
Record IndexDocument : Type := {
  document_id : JsValue number;
  title : JsValue number;
  metadata_json : gmap string (JsValue number);
  sectionText : string
}.

(** A request, by endpoint: /v1/delete-doc, /v1/index and /v1/query, with
    the body before [JSON.stringify]. [corpus_id] is [this.corpusId[0]]. *)
Inductive Request : Type :=
| DeleteDocRequest (headers : VectaraCallHeader) (customer_id : CustomerId)
    (corpus_id : option number) (document_id : string)
| IndexRequest (headers : VectaraCallHeader) (customer_id : CustomerId)
    (corpus_id : option number) (document : IndexDocument)
| QueryRequest (headers : VectaraCallHeader) (data : QueryData).

(** [result.status?.code] and [result.message] of the answer to an index
    request. *)
Record IndexReply : Type := {
  replyCode : option string;
  replyMessage : JsValue number
}.

(** The service, an external collaborator, by endpoint. Each answers from
    the requests received before and the present one. A [Thrown] answer is
    a [fetch] that failed or was aborted or, for an index request, a body
    that could not be read. The answer to a query is its HTTP status and
    what reading its body gives: the [responseSet], or an exception. Time
    limits are not modelled: an aborted [fetch] is a [fetch] that failed.
    The messages written to the console when [verbose] is set are left
    out. *)
Record Service : Type := {
  fetch_delete : list Request → Request → Result Z;
  fetch_index : list Request → Request → Result IndexReply;
  fetch_query : list Request → Request → Result (Z * Result (list ResponseSet))
}.

Variable service : Service.

(** The requests sent so far and the number of identifiers drawn. *)
Record World : Type := {
  requests : list Request;
  uuidCount : nat
}.

Definition sent (r : Request) (w : World) : World :=
  {| requests := requests w ++ [r]; uuidCount := uuidCount w |}.

Definition Method (A : Type) : Type := World → Result A * World.

(** A loop over [items] whose body may throw: the first exception leaves
    the loop. *)
Fixpoint forEachMethod {A B} (body : A → Method B) (items : list A)
  : Method (list B) :=
  λ w,
    match items with
    | [] => (Returned [], w)
    | item :: rest =>
        match body item w with
        | (Thrown e, w1) => (Thrown e, w1)
        | (Returned b, w1) =>
            match forEachMethod body rest w1 with
            | (Thrown e, w2) => (Thrown e, w2)
            | (Returned bs, w2) => (Returned (b :: bs), w2)
            end
        end
    end.

(** addVectors (lines 492-499) and similaritySearchVectorWithScore
    (lines 842-850). *)
Definition addVectors (_vectors : list (list number))
    (_documents : list (DocumentInterface number)) : Method unit :=
  λ w, (Thrown (newError "Method not implemented. Please call addDocuments instead."), w).

Definition similaritySearchVectorWithScore (_query : list number) (_k : number)
    (_filter : option VectaraFilter)
  : Method (list (DocumentInterface number * number)) :=
  λ w, (Thrown (newError
          "Method not implemented. Please call similaritySearch or similaritySearchWithScore instead."),
        w).

(** [x ?? y] looks at whether [x] is null or undefined. *)
Definition nullish (v : option (JsValue number)) : bool :=
  match v with
  | None | Some JsUndefined | Some JsNull => true
  | Some _ => false
  end.

(** The request of deleteDocuments for one id (lines 510-530). *)
Definition deleteRequest (this : VectaraStore) (id : string) : Request :=
  DeleteDocRequest (getJsonHeader this) (customerId this) (corpusId this !! 0) id.

(** The body of the loop of deleteDocuments (lines 509-542). *)
Definition deleteOne (this : VectaraStore) (id : string) : Method unit :=
  λ w,
    let request := deleteRequest this id in
    match fetch_delete service (requests w) request with
    | Thrown e => (Thrown (newError500 ("Error " +:+ message e)), sent request w)
    | Returned status =>
        if bool_decide (status ≠ 200%Z) then
          (Thrown (newError500
                     ("Error " +:+ "Vectara API returned status code " +:+ pretty status
                      +:+ " when deleting document " +:+ id)),
           sent request w)
        else (Returned (), sent request w)
    end.

(** The message of the error for a missing list of ids; it has the word
    ids between double quotes. *)
Definition noIdsMessage : string :=
  "no " +:+ String (Ascii.ascii_of_nat 34) "ids"
  +:+ String (Ascii.ascii_of_nat 34) " specified for deletion".

(** deleteDocuments (lines 506-547). *)
Definition deleteDocuments (this : VectaraStore) (ids : option (list string))
  : Method unit :=
  λ w,
    match ids with
    | Some (id :: rest) =>
        match forEachMethod (deleteOne this) (id :: rest) w with
        | (Thrown e, w1) => (Thrown e, w1)
        | (Returned _, w1) => (Returned (), w1)
        end
    | _ => (Thrown (newError noIdsMessage), w)
    end.

(** The body of the loop of addDocuments (lines 561-615): the identifier
    of the document is returned when the service answers OK or
    ALREADY_EXISTS. *)
Definition indexOne (this : VectaraStore) (document : DocumentInterface number)
  : Method (JsValue number) :=
  λ w,
    let given := metadata document !! "document_id" in
    let doc_id := if nullish given then JsString (uuid_v4 (uuidCount w))
                  else default JsUndefined given in
    let w1 := if nullish given
              then {| requests := requests w; uuidCount := S (uuidCount w) |}
              else w in
    let request :=
      IndexRequest (getJsonHeader this) (customerId this) (corpusId this !! 0)
        {| document_id := doc_id;
           title := if nullish (metadata document !! "title") then JsString ""
                    else default JsUndefined (metadata document !! "title");
           metadata_json := metadata document;
           sectionText := pageContent document |} in
    match fetch_index service (requests w1) request with
    | Thrown e =>
        (Thrown (newError500 ("Error " +:+ message e +:+ " while adding document")),
         sent request w1)
    | Returned reply =>
        if bool_decide (replyCode reply ≠ Some "OK")
           && bool_decide (replyCode reply ≠ Some "ALREADY_EXISTS") then
          (Thrown (newError500
                     ("Error " +:+ "Vectara API returned status code "
                      +:+ default "undefined" (replyCode reply) +:+ ": "
                      +:+ stringify (replyMessage reply)
                      +:+ " while adding document")),
           sent request w1)
        else (Returned doc_id, sent request w1)
    end.

(** The number of identifiers the loop of addDocuments draws for
    [documents]: one for each document whose metadata gives no
    [document_id]. *)
Fixpoint drawnFor (documents : list (DocumentInterface number)) : nat :=
  match documents with
  | [] => 0
  | document :: rest =>
      (if nullish (metadata document !! "document_id") then 1 else 0)
      + drawnFor rest
  end.

(** addDocuments (lines 554-622). *)
Definition addDocuments (this : VectaraStore)
    (documents : list (DocumentInterface number)) : Method (list (JsValue number)) :=
  λ w,
    if bool_decide (1 < length (corpusId this)) then
      (Thrown (newError "addDocuments does not support multiple corpus ids"), w)
    else forEachMethod (indexOne this) documents w.

(** The request of vectaraQuery (lines 701-727). *)
Definition queryData (this : VectaraStore) (query : string) (k : number)
    (vectaraFilterObject : VectaraFilter) (summary : VectaraSummary) : QueryData :=
  {| queryText := query;
     queryStart := start vectaraFilterObject;
     numResults := if mmrEnabled vectaraFilterObject
                   then mmrConfig vectaraFilterObject ≫= mmrTopK
                   else Some k;
     queryContextConfig := contextConfig vectaraFilterObject;
     rerankingConfig :=
       if mmrEnabled vectaraFilterObject
       then Some {| rerankerId := literal 272725718;
                    rerankDiversityBias :=
                      mmrConfig vectaraFilterObject ≫= diversityBias |}
       else None;
     corpusKey :=
       (λ id, {| keyCustomerId := customerId this; keyCorpusId := id;
                 metadataFilter := filter vectaraFilterObject;
                 lexicalLambda := lambda vectaraFilterObject |})
       <$> corpusId this;
     querySummary := if summaryEnabled summary then Some [summary] else None |}.

(** vectaraQuery (lines 687-787). *)
Definition vectaraQuery (this : VectaraStore) (query : string) (k : number)
    (vectaraFilterObject : VectaraFilter) (summary : VectaraSummary)
  : Method SummaryResult :=
  λ w,
    let request := QueryRequest (getJsonHeader this)
                     (queryData this query k vectaraFilterObject summary) in
    match fetch_query service (requests w) request with
    | Thrown e => (Thrown e, sent request w)
    | Returned (status, body) =>
        if bool_decide (status ≠ 200%Z) then
          (Thrown (newError ("Vectara API returned status code " +:+ pretty status)),
           sent request w)
        else
          match body with
          | Thrown e => (Thrown e, sent request w)
          | Returned responseSet =>
              match responseSet !! 0 with
              | None =>
                  (Thrown (newError
                             "Cannot read properties of undefined (reading 'response')"),
                   sent request w)
              | Some set => (summaryResultOf set, sent request w)
              end
          end
    end.

(** [k || 10]. *)
Definition orTen (k : option number) : number :=
  match k with
  | Some n => if truthyNumber n then n else literal 10
  | None => literal 10
  end.

(** similaritySearchWithScore (lines 797-812); [scores[index]] is
    [undefined] past the end of the scores. *)
Definition similaritySearchWithScore (this : VectaraStore) (query : string)
    (k : option number) (filter : option VectaraFilter)
  : Method (list (DocumentInterface number * option number)) :=
  λ w,
    match vectaraQuery this query (orTen k) (default DEFAULT_FILTER filter)
            defaultSummary w with
    | (Thrown e, w1) => (Thrown e, w1)
    | (Returned summaryResult, w1) =>
        (Returned (imap (λ index document, (document, scores summaryResult !! index))
                        (documents summaryResult)),
         w1)
    end.

(** similaritySearch (lines 821-832). *)
Definition similaritySearch (this : VectaraStore) (query : string)
    (k : option number) (filter : option VectaraFilter)
  : Method (list (DocumentInterface number)) :=
  λ w,
    match similaritySearchWithScore this query (Some (orTen k))
            (Some (default DEFAULT_FILTER filter)) w with
    | (Thrown e, w1) => (Thrown e, w1)
    | (Returned results, w1) => (Returned ((λ result, result.1) <$> results), w1)
    end.

(** *** The constructor *)

(** [getEnvironmentVariable] and [Number(text)]. *)
Variable getEnvironmentVariable : string → option string.
Variable Number : string → number.

(** [corpusId: number | number[]]. *)
Inductive CorpusIdArg : Type :=
| OneCorpus (id : number)
| ManyCorpora (ids : list number).

(** [VectaraLibArgs], each field as it may be missing at run time. *)
Record VectaraLibArgs : Type := {
  argCustomerId : option number;
  argCorpusId : option CorpusIdArg;
  argApiKey : option string;
  argVerbose : option bool;
  argSource : option string
}.

(** [text.split(",")]. *)
Fixpoint split (text : string) : list string :=
  match text with
  | EmptyString => [""]
  | String c rest =>
      if String.eqb (String c EmptyString) "," then "" :: split rest
      else match split rest with
           | first :: others => String c first :: others
           | [] => [String c EmptyString]
           end
  end.

(** The callback of [.map] on the corpus ids of the environment
    (lines 441-447). *)
Definition corpusIdOfText (id : string) : Result number :=
  if isNaN (Number id) then Thrown (newError "Vectara corpus id is not a number.")
  else Returned (Number id).

(** constructor (lines 426-468). *)
Definition constructor (args : VectaraLibArgs) : Result VectaraStore :=
  let apiKey := match argApiKey args with
                | Some key => Some key
                | None => getEnvironmentVariable "VECTARA_API_KEY"
                end in
  if negb (truthyString apiKey) then
    Thrown (newError "Vectara api key is not provided.")
  else
    let corpusId :=
      match argCorpusId args with
      | Some given => Returned (Some given)
      | None =>
          match getEnvironmentVariable "VECTARA_CORPUS_ID" with
          | None => Returned None
          | Some text =>
              match forEachResult corpusIdOfText (split text) with
              | Thrown e => Thrown e
              | Returned ids => Returned (Some (ManyCorpora ids))
              end
          end
      end in
    match corpusId with
    | Thrown e => Thrown e
    | Returned corpusId =>
        let corpusIds :=
          match corpusId with
          | None => None
          | Some (OneCorpus id) => if truthyNumber id then Some [id] else None
          | Some (ManyCorpora []) => None
          | Some (ManyCorpora ids) => Some ids
          end in
        match corpusIds with
        | None => Thrown (newError "Vectara corpus id is not provided.")
        | Some corpusIds =>
            let customerId :=
              match argCustomerId args with
              | Some n => Some (CustomerNumber n)
              | None => CustomerText <$> getEnvironmentVariable "VECTARA_CUSTOMER_ID"
              end in
            let provided :=
              match customerId with
              | Some (CustomerNumber n) => truthyNumber n
              | Some (CustomerText text) => negb (String.eqb text "")
              | None => false
              end in
            if negb provided then
              Thrown (newError "Vectara customer id is not provided.")
            else
              Returned {| apiKey := default "" apiKey;
                          corpusId := corpusIds;
                          customerId := default (CustomerText "") customerId;
                          verbose := default false (argVerbose args);
                          source := default "langchainjs" (argSource args) |}
        end
    end.

End Model.

End Vectara.

(** ** Further concrete inputs *)
Module MoreSamples.

Import Upstash UpstashStore.

(** An index that keeps what it is given: a query is answered with one hit
    per vector upserted so far, in the order of arrival. *)
Definition storingIndex : UpstashIndex Z :=
  {| index_upsert := λ _ _, Resolved ();
     index_query := λ history _,
       Resolved ((λ uv, {| hitId := default "" (id uv);
                           score := 1%Z;
                           hitMetadata := Some (vectorMetadata uv) |})
                 <$> upsertedVectors history);
     index_delete := λ _ _, Resolved ();
     index_reset := λ _, Resolved () |}.

(** An embedder that gives every text the same vector, and one that is
    out of service. *)
Definition constantEmbedder (texts : list string) : Settled (list (list Z)) :=
  Resolved ((λ _, [1; 0]%Z) <$> texts).

Definition failingEmbedder (texts : list string) : Settled (list (list Z)) :=
  Rejected (UpstreamError "embeddings unavailable").

(** A store with the namespace "cache", and a client whose scan ends after
    two batches of keys of that namespace. *)
Definition cacheStore : IoRedis.RedisByteStore :=
  {| IoRedis.namespace := Some "cache";
     IoRedis.ttl := None;
     IoRedis.yieldKeysScanBatchSize := 1000 |}.

Definition twoBatches (n : nat) (call : RedisStore.ScanCall)
  : Settled (string * list string) :=
  match n with
  | 0 => Resolved ("17", ["cache/a"; "cache/b"])
  | 1 => Resolved ("0", ["cache/c"])
  | _ => Resolved ("0", [])
  end.

(** A chat history on the default table, not yet initialized, and the same
    one after its table was created. Messages are given in stored form. *)
Definition freshHistory : PostgresHistory.Session Z unit unit :=
  {| PostgresHistory.this :=
       {| Postgres.this_pool := Postgres.SuppliedPool ();
          Postgres.this_tableName := Postgres.defaultTableName;
          Postgres.this_sessionId := "lc-example";
          Postgres.initialized := false |};
     PostgresHistory.queries := [] |}.

Definition readyHistory : PostgresHistory.Session Z unit unit :=
  PostgresHistory.markInitialized freshHistory.

Definition humanMessage : PostgresHistory.StoredMessage Z :=
  {| PostgresHistory.type := JsString "human";
     PostgresHistory.data := {[ "content" := JsString "hello" ]} |}.

Definition aiMessage : PostgresHistory.StoredMessage Z :=
  {| PostgresHistory.type := JsString "ai";
     PostgresHistory.data := {[ "content" := JsString "hi" ]} |}.

(** A pool that returns, to every query, the JSON objects bound to the
    queries it received before; a pool that is down; and a pool on which
    another client has just created the table. *)
Definition storingPool (log : list (PostgresHistory.Query Z))
    (q : PostgresHistory.Query Z)
  : PostgresHistory.Outcome (list (gmap string (JsValue Z))) :=
  PostgresHistory.Done (PostgresHistory.boundObjects log).

Definition downPool (log : list (PostgresHistory.Query Z))
    (q : PostgresHistory.Query Z)
  : PostgresHistory.Outcome (list (gmap string (JsValue Z))) :=
  PostgresHistory.Failed
    {| PostgresHistory.code := Some "08006";
       PostgresHistory.detail := "connection failure" |}.

Definition racedPool (log : list (PostgresHistory.Query Z))
    (q : PostgresHistory.Query Z)
  : PostgresHistory.Outcome (list (gmap string (JsValue Z))) :=
  match log with
  | [] => PostgresHistory.Failed
            {| PostgresHistory.code := Some "23505";
               PostgresHistory.detail := "duplicate key value" |}
  | _ => PostgresHistory.Done []
  end.

(** A Vectara store with one corpus, numbers as integers, and services:
    one that accepts everything and answers a query with one response whose
    title is given both by the response and by its document; one that
    refuses the second request it receives. *)
Definition vectaraStore : @Vectara.VectaraStore Z :=
  {| Vectara.apiKey := "key";
     Vectara.corpusId := [7%Z];
     Vectara.customerId := Vectara.CustomerNumber 42%Z;
     Vectara.verbose := false;
     Vectara.source := "langchainjs" |}.

Definition neverNaN (n : Z) : bool := false.

Definition isZeroZ (n : Z) : bool := Z.eqb n 0.

Definition literalZ (z : Z) : Z := z.

Definition stringifyZ (v : JsValue Z) : string := "null".

Definition partMetadata : list (@Vectara.MetadataItem Z) :=
  [ {| Vectara.name := "lang"; Vectara.value := JsString "eng" |};
    {| Vectara.name := "title"; Vectara.value := JsString "part title" |} ].

Definition documentMetadata : list (@Vectara.MetadataItem Z) :=
  [ {| Vectara.name := "title"; Vectara.value := JsString "document title" |} ].

Definition snippet : @Vectara.QueryResponse Z :=
  {| Vectara.responseText := "a snippet";
     Vectara.responseScore := 9%Z;
     Vectara.documentIndex := 0;
     Vectara.responseMetadata := partMetadata |}.

Definition oneResponse : @Vectara.ResponseSet Z :=
  {| Vectara.response := [snippet];
     Vectara.document := [documentMetadata];
     Vectara.summary := [] |}.

Definition agreeableService : @Vectara.Service Z :=
  {| Vectara.fetch_delete := λ _ _, Vectara.Returned 200%Z;
     Vectara.fetch_index := λ _ _,
       Vectara.Returned {| Vectara.replyCode := Some "OK";
                           Vectara.replyMessage := JsUndefined |};
     Vectara.fetch_query := λ _ _,
       Vectara.Returned (200%Z, Vectara.Returned [oneResponse]) |}.

Definition secondRequestRefused : @Vectara.Service Z :=
  {| Vectara.fetch_delete := λ history _,
       if decide (length history = 1) then Vectara.Returned 404%Z
       else Vectara.Returned 200%Z;
     Vectara.fetch_index := λ history _,
       if decide (length history = 1)
       then Vectara.Returned {| Vectara.replyCode := Some "INVALID_ARGUMENT";
                                Vectara.replyMessage := JsString "bad document" |}
       else Vectara.Returned {| Vectara.replyCode := Some "OK";
                                Vectara.replyMessage := JsUndefined |};
     Vectara.fetch_query := λ _ _,
       Vectara.Returned (503%Z, Vectara.Returned []) |}.

Definition freshVectara : @Vectara.World Z :=
  {| Vectara.requests := []; Vectara.uuidCount := 0 |}.

(** An environment without variables, and one that holds the three
    variables of the store. *)
Definition emptyEnvironment (variable : string) : option string := None.

Definition fullEnvironment (variable : string) : option string :=
  if String.eqb variable "VECTARA_API_KEY" then Some "env-key"
  else if String.eqb variable "VECTARA_CORPUS_ID" then Some "1,2"
  else if String.eqb variable "VECTARA_CUSTOMER_ID" then Some "99"
  else None.

(** [Number] on the texts used here. *)
Definition numberOfText (text : string) : Z :=
  if String.eqb text "1" then 1%Z
  else if String.eqb text "2" then 2%Z
  else 0%Z.

End MoreSamples.

(** * Properties *)

Import Upstash.

(** ** Maps with a callback that may throw *)
Section MapIndexed.

Context {A B : Type}.
Implicit Types (f : nat → A → Settled B) (arr : list A).

Lemma mapIndexed_lookup f arr :
  ∀ start built,
    mapIndexed f start arr = Resolved built →
    length built = length arr
    ∧ ∀ i x, arr !! i = Some x →
        ∃ y, f (start + i) x = Resolved y ∧ built !! i = Some y.
Proof.
  induction arr as [|a arr IH]; intros start built Hmap.
  - injection Hmap as <-. split; [done|]. intros i x Hi. done.
  - cbn [mapIndexed] in Hmap.
    destruct (f start a) as [y|] eqn:Hfa; [|done].
    destruct (mapIndexed f (S start) arr) as [ys|] eqn:Hrest; [|done].
    injection Hmap as <-.
    destruct (IH _ _ Hrest) as [Hlen Hlookup].
    split; [simpl; by rewrite Hlen|].
    intros [|i] x Hi.
    + injection Hi as <-. exists y. by rewrite Nat.add_0_r.
    + destruct (Hlookup i x Hi) as (y' & Hf & Hb).
      exists y'. split; [|done]. by replace (start + S i) with (S start + i) by lia.
Qed.

(** A map that throws does so at some element. *)
Lemma mapIndexed_thrown f arr :
  ∀ start e,
    mapIndexed f start arr = Rejected e →
    ∃ i x, arr !! i = Some x ∧ f (start + i) x = Rejected e.
Proof.
  induction arr as [|a arr IH]; intros start e Hmap; [done|].
  cbn [mapIndexed] in Hmap.
  destruct (f start a) as [y|e0] eqn:Hfa.
  - destruct (mapIndexed f (S start) arr) as [ys|e1] eqn:Hrest; [done|].
    injection Hmap as <-.
    destruct (IH _ _ Hrest) as (i & x & Hi & Hf).
    exists (S i), x. split; [done|].
    by replace (start + S i) with (S start + i) by lia.
  - injection Hmap as <-. exists 0, a. split; [done|]. by rewrite Nat.add_0_r.
Qed.

End MapIndexed.

(** ** The metadata codec *)
Section Codec.

Context {number : Type}.
Variable showNumber : number → string.
Implicit Types (d : DocumentInterface number) (raw : gmap string (JsValue number)).

Lemma encodeMetadata_reserved d :
  encodeMetadata d !! _pageContentLC
  = Some (default (JsString (pageContent d)) (metadata d !! _pageContentLC)).
Proof.
  unfold encodeMetadata, objectSpread.
  rewrite lookup_union, lookup_singleton_eq.
  by destruct (metadata d !! _pageContentLC).
Qed.

Lemma encodeMetadata_other d key :
  key ≠ _pageContentLC → encodeMetadata d !! key = metadata d !! key.
Proof.
  intros Hne. unfold encodeMetadata, objectSpread.
  rewrite lookup_union, lookup_singleton_ne by done.
  by destruct (metadata d !! key).
Qed.

Lemma encodeMetadata_without_reserved d :
  delete _pageContentLC (encodeMetadata d) = delete _pageContentLC (metadata d).
Proof.
  apply map_eq; intros key.
  destruct (decide (key = _pageContentLC)) as [->|Hne].
  - by rewrite !lookup_delete_eq.
  - rewrite !lookup_delete_ne by done. by apply encodeMetadata_other.
Qed.

Lemma decode_encode d :
  decodeMetadata showNumber (encodeMetadata d)
  = newDocument showNumber
      (default (JsString (pageContent d)) (metadata d !! _pageContentLC))
      (delete _pageContentLC (metadata d)).
Proof.
  unfold decodeMetadata, getProperty.
  by rewrite encodeMetadata_reserved, encodeMetadata_without_reserved.
Qed.

Lemma decode_encode_id d :
  metadata d !! _pageContentLC = None →
  decodeMetadata showNumber (encodeMetadata d) = Resolved d.
Proof.
  intros Hnone. rewrite decode_encode, Hnone.
  destruct d as [text meta]; simpl in *. unfold newDocument. simpl.
  by rewrite delete_id.
Qed.

(** What the decoding of a record gives, by what the constructor of the
    document makes of the value under the reserved key. *)
Lemma decodeMetadata_resolved raw text :
  textOf showNumber (getProperty _pageContentLC raw) = Resolved text →
  decodeMetadata showNumber raw
  = Resolved {| pageContent := text; metadata := delete _pageContentLC raw |}.
Proof. intros Htext. unfold decodeMetadata, newDocument. by rewrite Htext. Qed.

Lemma decodeMetadata_rejected raw e :
  textOf showNumber (getProperty _pageContentLC raw) = Rejected e →
  decodeMetadata showNumber raw = Rejected e.
Proof. intros Htext. unfold decodeMetadata, newDocument. by rewrite Htext. Qed.

Lemma decodeMetadata_text raw document :
  decodeMetadata showNumber raw = Resolved document →
  textOf showNumber (getProperty _pageContentLC raw) = Resolved (pageContent document)
  ∧ metadata document = delete _pageContentLC raw.
Proof.
  unfold decodeMetadata, newDocument.
  destruct (textOf showNumber (getProperty _pageContentLC raw)); [|done].
  by intros [= <-].
Qed.

Lemma decodeMetadata_thrown raw e :
  decodeMetadata showNumber raw = Rejected e →
  textOf showNumber (getProperty _pageContentLC raw) = Rejected e.
Proof.
  unfold decodeMetadata, newDocument.
  destruct (textOf showNumber (getProperty _pageContentLC raw)); [done|].
  by intros [= <-].
Qed.

(** C1, as the code has it. When the metadata of a document already holds
    the reserved key [_pageContentLC], the spread of the metadata is written
    after the text, so the caller's value stays under the reserved key: the
    encoded record is the caller's metadata itself and the text of the
    document is not stored. Decoding the record yields a document whose
    metadata is the caller's metadata without the reserved key and whose
    text is what the constructor of the document makes of the caller's
    colliding value: that value when it is a string, the empty string when
    it is [undefined], its [toString()] otherwise; on [null], and on any
    other value whose conversion throws, the decoding throws. *)
Theorem encode_reserved_key_caller_value_wins d (v : JsValue number) :
  metadata d !! _pageContentLC = Some v →
  encodeMetadata d = metadata d
  ∧ encodeMetadata d !! _pageContentLC = Some v
  ∧ (∀ text, v = JsString text →
       decodeMetadata showNumber (encodeMetadata d)
       = Resolved {| pageContent := text;
                     metadata := delete _pageContentLC (metadata d) |})
  ∧ (v = JsUndefined →
       decodeMetadata showNumber (encodeMetadata d)
       = Resolved {| pageContent := "";
                     metadata := delete _pageContentLC (metadata d) |})
  ∧ (v = JsNull →
       decodeMetadata showNumber (encodeMetadata d)
       = Rejected (TypeError "Cannot read properties of null (reading 'toString')"))
  ∧ (∀ text, textOf showNumber v = Resolved text →
       decodeMetadata showNumber (encodeMetadata d)
       = Resolved {| pageContent := text;
                     metadata := delete _pageContentLC (metadata d) |})
  ∧ (∀ e, textOf showNumber v = Rejected e →
       decodeMetadata showNumber (encodeMetadata d) = Rejected e).
Proof.
  intros Hv. rewrite decode_encode, Hv. simpl. split_and!.
  - apply map_eq; intros key.
    destruct (decide (key = _pageContentLC)) as [->|Hne].
    + by rewrite encodeMetadata_reserved, Hv.
    + by apply encodeMetadata_other.
  - by rewrite encodeMetadata_reserved, Hv.
  - by intros text ->.
  - by intros ->.
  - by intros ->.
  - intros text Htext. unfold newDocument. by rewrite Htext.
  - intros e Htext. unfold newDocument. by rewrite Htext.
Qed.

(** C2. For a document whose metadata does not use the reserved key, the
    encoding of addVectors followed by the decoding of
    similaritySearchVectorWithScore gives the document back, text and
    metadata: both for the codec alone and for a query hit that carries the
    encoded record. *)
Theorem decode_encode_round_trip d :
  metadata d !! _pageContentLC = None →
  decodeMetadata showNumber (encodeMetadata d) = Resolved d
  ∧ ∀ (hid : string) (s : number),
      toScoredDocument showNumber
        {| hitId := hid; score := s; hitMetadata := Some (encodeMetadata d) |}
      = Resolved (d, s).
Proof.
  intros Hnone.
  pose proof (decode_encode_id d Hnone) as Hrt.
  split; [done|]. intros hid s. unfold toScoredDocument; simpl. by rewrite Hrt.
Qed.

End Codec.

(** C1, as stated, fails: the document [collidingDocument] has text
    "the text" and the value "caller value" under the reserved key; its
    encoding keeps "caller value" there, and decoding returns "caller value"
    as the text. *)
Lemma encode_reserved_key_text_does_not_win :
  metadata Samples.collidingDocument !! _pageContentLC
  = Some (JsString "caller value")
  ∧ encodeMetadata Samples.collidingDocument !! _pageContentLC
    ≠ Some (JsString (pageContent Samples.collidingDocument))
  ∧ ∃ decoded,
      decodeMetadata Samples.showZ (encodeMetadata Samples.collidingDocument)
      = Resolved decoded
      ∧ pageContent decoded ≠ pageContent Samples.collidingDocument
      ∧ pageContent decoded = "caller value".
Proof.
  split_and!; [reflexivity | vm_compute; discriminate |].
  eexists. split; [vm_compute; reflexivity|]. simpl. split; [discriminate|done].
Qed.

(** The same document, under the amended statement. *)
Lemma encode_reserved_key_caller_value_wins_witness :
  metadata Samples.collidingDocument !! _pageContentLC
  = Some (JsString "caller value")
  ∧ decodeMetadata Samples.showZ (encodeMetadata Samples.collidingDocument)
    = Resolved {| pageContent := "caller value";
                  metadata := {[ "page" := JsNumber 3%Z ]} |}.
Proof.
  split; [reflexivity|].
  destruct (encode_reserved_key_caller_value_wins Samples.showZ
              Samples.collidingDocument (JsString "caller value") eq_refl)
    as (_ & _ & Hstring & _).
  exact (Hstring "caller value" eq_refl).
Defined.

(** A document with two metadata keys, neither of them reserved. *)
Lemma decode_encode_round_trip_witness :
  metadata Samples.catDocument !! _pageContentLC = None
  ∧ decodeMetadata Samples.showZ (encodeMetadata Samples.catDocument)
    = Resolved Samples.catDocument.
Proof.
  split; [reflexivity|].
  apply (decode_encode_round_trip Samples.showZ Samples.catDocument). reflexivity.
Defined.

(** ** The chunks *)
Section Chunks.

Context {T : Type}.
Implicit Types (arr : list T).

Lemma chunkArrayFrom_concat (chunkSize fuel : nat) arr :
  0 < chunkSize → length arr ≤ fuel →
  concat (chunkArrayFrom fuel arr chunkSize) = arr.
Proof.
  intros Hpos. revert arr.
  induction fuel as [|fuel IH]; intros arr Hlen.
  - destruct arr; [done | simpl in Hlen; lia].
  - destruct arr as [|x arr]; [done|].
    cbn [chunkArrayFrom concat]. rewrite IH.
    + apply take_drop.
    + rewrite length_drop. simpl in *. lia.
Qed.

(** The chunks, put end to end, are the input: nothing is lost, repeated or
    reordered, and the fuel is enough. *)
Lemma chunkArray_concat arr (chunkSize : nat) :
  0 < chunkSize → concat (chunkArray arr chunkSize) = arr.
Proof. intros Hpos. by apply chunkArrayFrom_concat. Qed.

Lemma chunkArrayFrom_bounded (chunkSize fuel : nat) arr :
  Forall (λ chunk, length chunk ≤ chunkSize) (chunkArrayFrom fuel arr chunkSize).
Proof.
  revert arr. induction fuel as [|fuel IH]; intros arr; [by destruct arr|].
  destruct arr as [|x arr]; [done|].
  cbn [chunkArrayFrom]. constructor; [|apply IH].
  rewrite length_take. lia.
Qed.

Lemma chunkArray_bounded arr (chunkSize : nat) :
  Forall (λ chunk, length chunk ≤ chunkSize) (chunkArray arr chunkSize).
Proof. apply chunkArrayFrom_bounded. Qed.

Lemma chunkArray_nil (chunkSize : nat) : chunkArray (@nil T) chunkSize = [].
Proof. done. Qed.

End Chunks.

(** ** The calls of the chunks *)
Section Caller.

Context {number : Type}.
Variable caller : AsyncCaller.
Variable index : UpstashIndex number.

Implicit Types (attempts : list (list (UpstashVector number) * Attempt)).
Implicit Types (chunks : list (list (UpstashVector number))).
Implicit Types (history : list (SinkCall number)).

Lemma attemptOf_refused earlier (outcome : Settled unit) first later :
  attemptOf caller earlier outcome = Refused first later →
  ∃ e, outcome = Rejected e ∧ givesUp caller e = None.
Proof.
  destruct outcome as [[]|e]; simpl; [done|].
  destruct (givesUp caller e) eqn:Hgive; [done|]. intros _. by exists e.
Qed.

Lemma attemptOf_not_accepted earlier (outcome : Settled unit) :
  attemptOf caller earlier outcome ≠ Accepted → ∃ e, outcome = Rejected e.
Proof. destruct outcome as [[]|e]; simpl; [done|]. by exists e. Qed.

Lemma pending_cons chunk attempt attempts :
  pending ((chunk, attempt) :: attempts)
  = match attempt with
    | Refused _ _ => chunk :: pending attempts
    | _ => pending attempts
    end.
Proof. by destruct attempt. Qed.

Lemma pending_elem chunk attempts :
  chunk ∈ pending attempts → ∃ first later, (chunk, Refused first later) ∈ attempts.
Proof.
  induction attempts as [|[c a] attempts IH]; [by intros ?%elem_of_nil|].
  rewrite pending_cons. destruct a as [|first later|e].
  - intros (first & later & Hin)%IH. exists first, later. by right.
  - intros [->|(first' & later' & Hin)%IH]%elem_of_cons.
    + exists first, later. by left.
    + exists first', later'. by right.
  - intros (first & later & Hin)%IH. exists first, later. by right.
Qed.

Lemma pending_length attempts : length (pending attempts) ≤ length attempts.
Proof.
  induction attempts as [|[c a] attempts IH]; [done|].
  rewrite pending_cons. destruct a; simpl; lia.
Qed.

Lemma pending_accepted attempts :
  Forall (λ a, a.2 = Accepted) attempts → pending attempts = [].
Proof.
  induction 1 as [|[c a] attempts Ha _ IH]; [done|].
  simpl in Ha. subst a. by rewrite pending_cons.
Qed.

(** The first run of every chunk. *)
Lemma firstAttempts_log chunks history :
  (firstAttempts caller index chunks history).2 = history ++ (CallUpsert <$> chunks).
Proof.
  revert history. induction chunks as [|chunk rest IH]; intros history.
  - simpl. by rewrite app_nil_r.
  - cbn [firstAttempts]. unfold attemptUpsert.
    specialize (IH (history ++ [CallUpsert chunk])).
    destruct (firstAttempts caller index rest _) as [attempts h2]. simpl in *.
    rewrite IH. by rewrite <- app_assoc.
Qed.

Lemma firstAttempts_lookup chunks history i :
  (firstAttempts caller index chunks history).1 !! i
  = (λ chunk,
       (chunk,
        attemptOf caller []
          (index_upsert index (history ++ (CallUpsert <$> take i chunks)) chunk)))
    <$> chunks !! i.
Proof.
  revert history i. induction chunks as [|chunk rest IH]; intros history i.
  - by destruct i.
  - cbn [firstAttempts]. unfold attemptUpsert.
    specialize (IH (history ++ [CallUpsert chunk])).
    destruct (firstAttempts caller index rest _) as [attempts h2]. simpl in *.
    destruct i as [|i]; simpl.
    + by rewrite app_nil_r.
    + rewrite IH. by rewrite <- app_assoc.
Qed.

Lemma firstAttempts_length chunks history :
  length (firstAttempts caller index chunks history).1 = length chunks.
Proof.
  revert history. induction chunks as [|chunk rest IH]; intros history; [done|].
  cbn [firstAttempts]. unfold attemptUpsert.
  specialize (IH (history ++ [CallUpsert chunk])).
  destruct (firstAttempts caller index rest _) as [attempts h2]. simpl in *.
  by rewrite IH.
Qed.

(** A chunk is run again only if the index refused it. *)
Lemma firstAttempts_pending chunks history chunk :
  chunk ∈ pending (firstAttempts caller index chunks history).1 →
  refusedAtFirst caller index chunks history chunk.
Proof.
  intros (first & later & Hin)%pending_elem.
  apply list_elem_of_lookup in Hin as [i Hi].
  rewrite firstAttempts_lookup in Hi.
  destruct (chunks !! i) as [c|] eqn:Hc; [|done].
  simpl in Hi. injection Hi as -> Hattempt.
  apply attemptOf_refused in Hattempt as (e & Hrejected & Hgive).
  by exists i, e.
Qed.

Lemma firstAttempts_accepting chunks history :
  (∀ h chunk, index_upsert index h chunk = Resolved ()) →
  Forall (λ a, a.2 = Accepted) (firstAttempts caller index chunks history).1.
Proof.
  intros Hok. apply Forall_lookup. intros i [c a] Hi.
  rewrite firstAttempts_lookup in Hi.
  destruct (chunks !! i); [|done]. simpl in Hi. injection Hi as -> <-.
  simpl. by rewrite Hok.
Qed.

(** A round of repeated runs. *)
Lemma retryRound_log attempts history :
  (retryRound caller index attempts history).2
  = history ++ (CallUpsert <$> pending attempts).
Proof.
  revert history. induction attempts as [|[chunk attempt] rest IH]; intros history.
  - simpl. by rewrite app_nil_r.
  - rewrite pending_cons. destruct attempt as [|first later|e]; cbn [retryRound].
    + specialize (IH history).
      destruct (retryRound caller index rest history) as [attempts' h2]. exact IH.
    + unfold attemptUpsert. specialize (IH (history ++ [CallUpsert chunk])).
      destruct (retryRound caller index rest _) as [attempts' h2]. simpl in *.
      rewrite IH. by rewrite <- app_assoc.
    + specialize (IH history).
      destruct (retryRound caller index rest history) as [attempts' h2]. exact IH.
Qed.

Lemma retryRound_length attempts history :
  length (retryRound caller index attempts history).1 = length attempts.
Proof.
  revert history. induction attempts as [|[chunk attempt] rest IH]; intros history;
    [done|].
  destruct attempt as [|first later|e]; cbn [retryRound].
  - specialize (IH history).
    destruct (retryRound caller index rest history) as [attempts' h2].
    simpl in *. by rewrite IH.
  - unfold attemptUpsert. specialize (IH (history ++ [CallUpsert chunk])).
    destruct (retryRound caller index rest _) as [attempts' h2].
    simpl in *. by rewrite IH.
  - specialize (IH history).
    destruct (retryRound caller index rest history) as [attempts' h2].
    simpl in *. by rewrite IH.
Qed.

(** The chunks left to run again after a round were among those to run
    again before it, and are no more numerous. *)
Lemma retryRound_pending attempts history :
  (∀ chunk, chunk ∈ pending (retryRound caller index attempts history).1 →
            chunk ∈ pending attempts)
  ∧ length (pending (retryRound caller index attempts history).1)
    ≤ length (pending attempts).
Proof.
  revert history. induction attempts as [|[chunk attempt] rest IH]; intros history;
    [done|].
  rewrite (pending_cons chunk attempt rest).
  destruct attempt as [|first later|e]; cbn [retryRound].
  - specialize (IH history).
    destruct (retryRound caller index rest history) as [attempts' h2].
    cbn [fst snd] in *. by rewrite pending_cons.
  - unfold attemptUpsert. specialize (IH (history ++ [CallUpsert chunk])).
    destruct (retryRound caller index rest _) as [attempts' h2].
    cbn [fst snd] in *. destruct IH as [IHin IHlen].
    rewrite pending_cons.
    destruct (attemptOf caller (first :: later) (index_upsert index history chunk));
      cbn [length].
    + split; [|lia]. intros c Hc. right. by apply IHin.
    + split; [|lia]. intros c [->|Hc]%elem_of_cons; [by left|]. right. by apply IHin.
    + split; [|lia]. intros c Hc. right. by apply IHin.
  - specialize (IH history).
    destruct (retryRound caller index rest history) as [attempts' h2].
    cbn [fst snd] in *. by rewrite pending_cons.
Qed.

Lemma retryRound_idle attempts history :
  pending attempts = [] →
  retryRound caller index attempts history = (attempts, history).
Proof.
  revert history. induction attempts as [|[chunk attempt] rest IH]; intros history;
    [done|].
  rewrite pending_cons. destruct attempt as [|first later|e]; [|done|];
    intros Hnone; cbn [retryRound]; by rewrite IH.
Qed.

Lemma retryRounds_idle rounds attempts history :
  pending attempts = [] →
  retryRounds caller index rounds attempts history = (attempts, history).
Proof.
  intros Hnone. induction rounds as [|rounds IH]; [done|].
  cbn [retryRounds]. by rewrite retryRound_idle.
Qed.

(** All the rounds: what is sent is sent again, and only chunks that were
    to be run again when the rounds began. *)
Lemma retryRounds_log rounds attempts history :
  ∃ resent,
    (retryRounds caller index rounds attempts history).2
    = history ++ (CallUpsert <$> resent)
    ∧ Forall (λ chunk, chunk ∈ pending attempts) resent
    ∧ length resent ≤ rounds * length (pending attempts)
    ∧ length (retryRounds caller index rounds attempts history).1 = length attempts.
Proof.
  revert attempts history.
  induction rounds as [|rounds IH]; intros attempts history.
  - exists []. simpl. rewrite app_nil_r. split_and!; [done|constructor|lia|done].
  - cbn [retryRounds].
    pose proof (retryRound_log attempts history) as Hlog.
    pose proof (retryRound_length attempts history) as Hlength.
    destruct (retryRound_pending attempts history) as [Hin Hlen].
    destruct (retryRound caller index attempts history) as [attempts' h1].
    simpl in *. subst h1.
    destruct (IH attempts' (history ++ (CallUpsert <$> pending attempts)))
      as (resent & Hresent & Hall & Hbound & Hsame).
    exists (pending attempts ++ resent). split_and!.
    + by rewrite Hresent, fmap_app, <- app_assoc.
    + apply Forall_app. split.
      * by apply Forall_forall.
      * eapply Forall_impl; [exact Hall|]. intros c Hc. by apply Hin.
    + rewrite length_app. nia.
    + by rewrite Hsame.
Qed.

(** The calls of the chunks, together. *)
Lemma submitChunks_log chunks history :
  ∃ resent,
    (submitChunks caller index chunks history).2
    = history ++ (CallUpsert <$> chunks) ++ (CallUpsert <$> resent)
    ∧ Forall (refusedAtFirst caller index chunks history) resent
    ∧ length resent ≤ maxRetries caller * length chunks
    ∧ length (submitChunks caller index chunks history).1 = length chunks.
Proof.
  unfold submitChunks.
  pose proof (firstAttempts_log chunks history) as Hlog.
  pose proof (firstAttempts_length chunks history) as Hlength.
  pose proof (firstAttempts_pending chunks history) as Hpending.
  destruct (firstAttempts caller index chunks history) as [first h1].
  simpl in *. subst h1.
  destruct (retryRounds_log (maxRetries caller) first
              (history ++ (CallUpsert <$> chunks)))
    as (resent & Hresent & Hall & Hbound & Hsame).
  destruct (retryRounds caller index (maxRetries caller) first _) as [final h2].
  simpl in *. exists resent. split_and!.
  - by rewrite Hresent, <- app_assoc.
  - eapply Forall_impl; [exact Hall|]. exact Hpending.
  - pose proof (pending_length first). nia.
  - by rewrite length_fmap, Hsame.
Qed.

Lemma submitChunks_idle chunks history :
  Forall (λ a, a.2 = Accepted) (firstAttempts caller index chunks history).1 →
  Forall (λ p, isRejected p = false) (submitChunks caller index chunks history).1
  ∧ (submitChunks caller index chunks history).2
    = history ++ (CallUpsert <$> chunks).
Proof.
  intros Hfirst. unfold submitChunks.
  pose proof (firstAttempts_log chunks history) as Hlog.
  destruct (firstAttempts caller index chunks history) as [first h1].
  simpl in *. subst h1.
  rewrite retryRounds_idle by by apply pending_accepted.
  simpl. split; [|done].
  apply Forall_fmap. eapply Forall_impl; [exact Hfirst|].
  intros [c a] Ha. simpl in *. by subst a.
Qed.

Lemma submitChunks_accepting chunks history :
  (∀ h chunk, index_upsert index h chunk = Resolved ()) →
  Forall (λ p, isRejected p = false) (submitChunks caller index chunks history).1
  ∧ (submitChunks caller index chunks history).2
    = history ++ (CallUpsert <$> chunks).
Proof. intros Hok. by apply submitChunks_idle, firstAttempts_accepting. Qed.

Lemma submitChunks_single_attempt chunks history :
  maxRetries caller = 0 →
  (submitChunks caller index chunks history).2 = history ++ (CallUpsert <$> chunks).
Proof.
  intros Hnone. unfold submitChunks. rewrite Hnone.
  pose proof (firstAttempts_log chunks history) as Hlog.
  by destruct (firstAttempts caller index chunks history) as [first h1].
Qed.

Lemma submitChunks_nil history :
  submitChunks caller index [] history = ([], history).
Proof. unfold submitChunks. simpl. by rewrite retryRounds_idle. Qed.

Lemma accepted_or_not attempts :
  Forall (λ a, a.2 = Accepted) attempts ∨ Exists (λ a, a.2 ≠ Accepted) attempts.
Proof.
  induction attempts as [|[c a] attempts [IH|IH]]; [by left| |].
  - destruct a; [left; by constructor | right; by left | right; by left].
  - right. by right.
Qed.

(** A call that fails was refused by the index at its first run. *)
Lemma submitChunks_rejected chunks history e :
  Rejected e ∈ (submitChunks caller index chunks history).1 →
  ∃ i chunk e1,
    chunks !! i = Some chunk
    ∧ index_upsert index (history ++ (CallUpsert <$> take i chunks)) chunk
      = Rejected e1.
Proof.
  intros Hin.
  destruct (accepted_or_not (firstAttempts caller index chunks history).1)
    as [Hall|Hsome].
  - destruct (submitChunks_idle chunks history Hall) as [Hresolved _].
    rewrite Forall_forall in Hresolved. by apply Hresolved in Hin.
  - apply Exists_exists in Hsome as ([c a] & Hca & Hnot).
    apply list_elem_of_lookup in Hca as [i Hi].
    rewrite firstAttempts_lookup in Hi.
    destruct (chunks !! i) as [chunk|] eqn:Hchunk; [|done].
    simpl in Hi. injection Hi as -> <-. simpl in Hnot.
    apply attemptOf_not_accepted in Hnot as [e1 He1].
    by exists i, c, e1.
Qed.

End Caller.

(** ** addVectors *)
Section AddVectors.

Context {number : Type}.
Variable caller : AsyncCaller.
Variable index : UpstashIndex number.
Variable uuid_v4 : nat → string.

Lemma Promise_all_resolved {A} (promises : list (Settled A)) :
  Forall (λ p, isRejected p = false) promises →
  ∃ values, Promise_all promises = Resolved values.
Proof.
  induction 1 as [|p promises Hp _ [values IH]]; [by eexists|].
  destruct p; [|done]. simpl. rewrite IH. by eexists.
Qed.

Lemma Promise_all_rejected {A} (promises : list (Settled A)) e :
  Rejected e ∈ promises →
  ∃ e', Rejected e' ∈ promises ∧ Promise_all promises = Rejected e'.
Proof.
  induction promises as [|p promises IH]; intros Hin.
  - by apply elem_of_nil in Hin.
  - destruct p as [a|e0].
    + apply elem_of_cons in Hin as [Heq|Hin]; [done|].
      destruct (IH Hin) as (e' & Hin' & Hall).
      exists e'. split; [by right|]. simpl. by rewrite Hall.
    + exists e0. split; [by left|done].
Qed.

Lemma mapIndexed_resolved (documentIds : list string)
    (documents : list (DocumentInterface number)) (vectors : list (list number)) i :
  i + length vectors ≤ length documents →
  ∃ upstashVectors,
    mapIndexed (toUpstashVector documentIds documents) i vectors
    = Resolved upstashVectors
    ∧ length upstashVectors = length vectors.
Proof.
  revert i. induction vectors as [|v vectors IH]; intros i Hlen.
  - by exists [].
  - simpl in Hlen. destruct (lookup_lt_is_Some_2 documents i) as [doc Hdoc]; [lia|].
    destruct (IH (S i)) as (rest & Hrest & Hlenrest); [lia|].
    eexists. cbn [mapIndexed]. unfold toUpstashVector at 1.
    rewrite Hdoc, Hrest. split; [done|]. simpl. by rewrite Hlenrest.
Qed.

Lemma mapIndexed_rejected (documentIds : list string)
    (documents : list (DocumentInterface number)) (vectors : list (list number)) i :
  i ≤ length documents < i + length vectors →
  mapIndexed (toUpstashVector documentIds documents) i vectors
  = Rejected (TypeError "Cannot read properties of undefined (reading 'pageContent')").
Proof.
  revert i. induction vectors as [|v vectors IH]; intros i Hlen.
  - simpl in Hlen. lia.
  - cbn [mapIndexed]. unfold toUpstashVector at 1.
    destruct (documents !! i) as [doc|] eqn:Hdoc; [|done].
    apply lookup_lt_Some in Hdoc.
    rewrite IH; [done|]. simpl in Hlen. lia.
Qed.

(** addVectors, step by step. *)
Lemma addVectorsWith_unfold chunkSize vectors documents options w :
  addVectorsWith caller index uuid_v4 chunkSize vectors documents options w
  = let documentIds := documentIdsOf uuid_v4 vectors options w in
    let w1 := match options ≫= optionIds with
              | Some _ => w
              | None => {| calls := calls w;
                           uuidCount := uuidCount w + length vectors |}
              end in
    match mapIndexed (toUpstashVector documentIds documents) 0 vectors with
    | Rejected e => (Rejected e, w1)
    | Resolved upstashVectors =>
        let vectorChunks := chunkArray upstashVectors chunkSize in
        (match Promise_all (submissionOutcomes caller index vectorChunks (calls w)) with
         | Resolved _ => Resolved documentIds
         | Rejected e => Rejected e
         end,
         {| calls := (submitChunks caller index vectorChunks (calls w)).2;
            uuidCount := uuidCount w1 |})
    end.
Proof.
  unfold addVectorsWith, documentIdsOf, bind, settle, ret, generateIds,
    batchRequests, submissionOutcomes.
  destruct (options ≫= optionIds) as [supplied|]; simpl.
  - destruct (mapIndexed _ 0 vectors) as [upstashVectors|e]; [|done].
    destruct (submitChunks _ _ _ _) as [promises history]. simpl.
    by destruct (Promise_all _).
  - destruct (mapIndexed _ 0 vectors) as [upstashVectors|e]; [|done].
    destruct (submitChunks _ _ _ _) as [promises history]. simpl.
    by destruct (Promise_all _).
Qed.

(** C3. Given n vectors, n documents and either n identifiers or none,
    addVectors works with exactly n identifiers: the caller's, unchanged,
    or the freshly drawn ones in the order of the draws. Whatever the chunk
    size and the caller, a run that resolves returns exactly that list, and
    the run resolves with it when the index accepts every chunk. With no
    vector the run resolves with the empty list and the index receives no
    call, whatever the index is. *)
Theorem addVectors_returns_ids_in_input_order
    chunkSize vectors documents options w :
  length documents = length vectors →
  (∀ supplied, options ≫= optionIds = Some supplied →
               length supplied = length vectors) →
  let expected := documentIdsOf uuid_v4 vectors options w in
  let run := addVectorsWith caller index uuid_v4 chunkSize vectors documents
               options w in
  length expected = length vectors
  ∧ (∀ supplied, options ≫= optionIds = Some supplied → expected = supplied)
  ∧ (options ≫= optionIds = None →
     expected = uuid_v4 <$> seq (uuidCount w) (length vectors))
  ∧ ((∀ history chunk, index_upsert index history chunk = Resolved ()) →
     run.1 = Resolved expected)
  ∧ (∀ returned, run.1 = Resolved returned → returned = expected)
  ∧ (vectors = [] → run.1 = Resolved [] ∧ calls run.2 = calls w).
Proof.
  intros Hdocs Hids expected run.
  assert (length expected = length vectors) as Hlen.
  { subst expected. unfold documentIdsOf.
    destruct (options ≫= optionIds) as [supplied|] eqn:Hopt; [by apply Hids|].
    by rewrite length_fmap, length_seq. }
  destruct (mapIndexed_resolved expected documents vectors 0)
    as (upstashVectors & Hbuild & _); [lia|].
  assert (run = (match Promise_all (submissionOutcomes caller index
                         (chunkArray upstashVectors chunkSize) (calls w)) with
                 | Resolved _ => Resolved expected
                 | Rejected e => Rejected e
                 end, run.2)) as Hrun.
  { subst run. rewrite addVectorsWith_unfold. cbv zeta.
    fold expected. by rewrite Hbuild. }
  split_and!.
  - done.
  - intros supplied Hopt. subst expected. unfold documentIdsOf. by rewrite Hopt.
  - intros Hopt. subst expected. unfold documentIdsOf. by rewrite Hopt.
  - intros Hok. rewrite Hrun. simpl.
    destruct (Promise_all_resolved
                (submissionOutcomes caller index
                   (chunkArray upstashVectors chunkSize) (calls w)))
      as [values ->]; [|done].
    by apply submitChunks_accepting.
  - intros returned. rewrite Hrun. simpl.
    destruct (Promise_all _); congruence.
  - intros ->. subst run. rewrite addVectorsWith_unfold. cbv zeta.
    simpl. unfold submissionOutcomes. rewrite chunkArray_nil, submitChunks_nil.
    simpl. split; [|done]. f_equal.
    fold expected. destruct expected; [done|simpl in Hlen; lia].
Qed.


(** C7, as the code has it. addVectors checks no length. With fewer
    documents than vectors, reading the text of the missing document throws
    a TypeError while the vectors are built, before any call reaches the
    index. *)
Theorem addVectors_missing_document_rejects
    chunkSize vectors documents options w :
  length documents < length vectors →
  let run := addVectorsWith caller index uuid_v4 chunkSize vectors documents
               options w in
  run.1 = Rejected (TypeError "Cannot read properties of undefined (reading 'pageContent')")
  ∧ rejectsBeforeAnyCall
      (addVectorsWith caller index uuid_v4 chunkSize vectors documents options) w.
Proof.
  intros Hlen run.
  assert (run.1 = Rejected (TypeError "Cannot read properties of undefined (reading 'pageContent')")
          ∧ calls run.2 = calls w) as [Hres Hcalls].
  { subst run. rewrite addVectorsWith_unfold. cbv zeta.
    rewrite mapIndexed_rejected by lia. simpl.
    by destruct (options ≫= optionIds). }
  split; [done|]. split; [|done]. fold run. by rewrite Hres.
Qed.

End AddVectors.

(** C7, as stated, fails: one vector, two documents and three identifiers
    are accepted. The surplus document is ignored, the single vector is
    upserted and the three identifiers are returned. *)
Lemma addVectors_mismatched_lengths_accepted :
  let vectors := [[1; 0]]%Z in
  let documents := [Samples.catDocument; Samples.dogDocument] in
  let supplied := ["a"; "b"; "c"] in
  let run := addVectors Samples.retryingCaller Samples.acceptingIndex
               Samples.sampleUuid vectors documents
               (Some {| optionIds := Some supplied |}) in
  length vectors ≠ length documents
  ∧ length supplied ≠ length vectors
  ∧ (run Samples.freshWorld).1 = Resolved ["a"; "b"; "c"]
  ∧ calls (run Samples.freshWorld).2
    = [CallUpsert [ {| id := Some "a"; vector := [1; 0]%Z;
                       vectorMetadata := encodeMetadata Samples.catDocument |} ]]
  ∧ ¬ rejectsBeforeAnyCall run Samples.freshWorld.
Proof.
  cbv zeta. split_and!; [done | done | reflexivity | reflexivity |].
  intros [Hrejected _]. vm_compute in Hrejected. discriminate.
Qed.

(** Three documents without identifiers, in chunks of two, on an index that
    accepts every call. *)
Lemma addVectors_returns_ids_in_input_order_witness :
  length Samples.sampleDocuments = length Samples.sampleVectors
  ∧ (addVectorsWith Samples.retryingCaller Samples.acceptingIndex
       Samples.sampleUuid 2
       Samples.sampleVectors Samples.sampleDocuments None Samples.freshWorld).1
    = Resolved ["uuid-0"; "uuid-1"; "uuid-2"].
Proof.
  split; [reflexivity|].
  destruct (addVectors_returns_ids_in_input_order
              Samples.retryingCaller Samples.acceptingIndex Samples.sampleUuid 2
              Samples.sampleVectors Samples.sampleDocuments None Samples.freshWorld)
    as (_ & _ & _ & Hresolves & _).
  - reflexivity.
  - intros supplied Hsupplied. discriminate Hsupplied.
  - apply Hresolves. intros history chunk. reflexivity.
Defined.


(** The index [secondCallFails] refuses the second call it receives. With
    repeated runs the refused chunk is handed over again after the first
    run of the third chunk, and accepted: the run resolves. With a caller
    that allows no repeated run the same input is rejected after the three
    calls. *)
Lemma addVectors_refused_chunk_is_run_again :
  let run := addVectorsWith Samples.retryingCaller Samples.secondCallFails
               Samples.sampleUuid 1
               Samples.sampleVectors Samples.sampleDocuments None Samples.freshWorld in
  run.1 = Resolved ["uuid-0"; "uuid-1"; "uuid-2"]
  ∧ (λ c, match c with CallUpsert chunk => vector <$> chunk | _ => [] end)
    <$> calls run.2
    = [[[1; 0]]; [[0; 1]]; [[1; 1]]; [[0; 1]]]%Z.
Proof. cbv zeta. split; reflexivity. Qed.

Lemma addVectors_single_attempt_rejects :
  let run := addVectorsWith Samples.singleAttemptCaller Samples.secondCallFails
               Samples.sampleUuid 1
               Samples.sampleVectors Samples.sampleDocuments None Samples.freshWorld in
  run.1 = Rejected (UpstreamError "503")
  ∧ (λ c, match c with CallUpsert chunk => vector <$> chunk | _ => [] end)
    <$> calls run.2
    = [[[1; 0]]; [[0; 1]]; [[1; 1]]]%Z.
Proof. cbv zeta. split; reflexivity. Qed.

(** Three vectors and a single document. *)
Lemma addVectors_missing_document_rejects_witness :
  length [Samples.catDocument] < length Samples.sampleVectors
  ∧ rejectsBeforeAnyCall
      (addVectors Samples.retryingCaller Samples.acceptingIndex Samples.sampleUuid
         Samples.sampleVectors [Samples.catDocument] None)
      Samples.freshWorld.
Proof.
  split; [simpl; lia|].
  apply (addVectors_missing_document_rejects
           Samples.retryingCaller Samples.acceptingIndex Samples.sampleUuid
           CONCURRENT_UPSERT_LIMIT
           Samples.sampleVectors [Samples.catDocument] None Samples.freshWorld).
  simpl; lia.
Defined.

(** ** similaritySearchVectorWithScore *)
Section Query.

Context {number : Type}.
Variable showNumber : number → string.
Variable index : UpstashIndex number.

Lemma similaritySearch_unfold query k filterExpression w :
  similaritySearchVectorWithScore showNumber index query k filterExpression w
  = (match index_query index (calls w) (queryArgs query k filterExpression None) with
     | Resolved hits => mapIndexed (λ _, toScoredDocument showNumber) 0 hits
     | Rejected e => Rejected e
     end,
     logCall (CallQuery (queryArgs query k filterExpression None)) w).
Proof.
  unfold similaritySearchVectorWithScore, _runUpstashQuery, bind, settle. simpl.
  by destruct (index_query _ _ _).
Qed.

Lemma toScoredDocument_resolved (res : QueryHit number) text :
  textOf showNumber (getProperty _pageContentLC (default ∅ (hitMetadata res)))
  = Resolved text →
  toScoredDocument showNumber res
  = Resolved ({| pageContent := text;
                 metadata := delete _pageContentLC (default ∅ (hitMetadata res)) |},
              score res).
Proof.
  intros Htext. unfold toScoredDocument.
  by rewrite (decodeMetadata_resolved showNumber _ text Htext).
Qed.

Lemma toScoredDocument_rejected (res : QueryHit number) e :
  toScoredDocument showNumber res = Rejected e ↔
  textOf showNumber (getProperty _pageContentLC (default ∅ (hitMetadata res)))
  = Rejected e.
Proof.
  unfold toScoredDocument, decodeMetadata, newDocument.
  destruct (textOf showNumber _); split; congruence.
Qed.

(** The map over the hits stops at the first hit whose text cannot be
    made. *)
Lemma toScoredDocument_all_resolved (hits : list (QueryHit number)) :
  Forall (λ res, ∃ text,
            textOf showNumber
              (getProperty _pageContentLC (default ∅ (hitMetadata res)))
            = Resolved text) hits →
  ∃ results, mapIndexed (λ _, toScoredDocument showNumber) 0 hits = Resolved results.
Proof.
  intros Hall.
  destruct (mapIndexed (λ _, toScoredDocument showNumber) 0 hits)
    as [results|e] eqn:Hmap; [by exists results|].
  apply mapIndexed_thrown in Hmap as (i & res & Hi & Hthrown).
  apply toScoredDocument_rejected in Hthrown.
  rewrite Forall_lookup in Hall. destruct (Hall i res Hi) as [text Htext].
  congruence.
Qed.

Lemma toScoredDocument_some_rejected (hits : list (QueryHit number)) :
  Exists (λ res, ∃ e,
            textOf showNumber
              (getProperty _pageContentLC (default ∅ (hitMetadata res)))
            = Rejected e) hits →
  ∃ res e,
    res ∈ hits
    ∧ textOf showNumber (getProperty _pageContentLC (default ∅ (hitMetadata res)))
      = Rejected e
    ∧ mapIndexed (λ _, toScoredDocument showNumber) 0 hits = Rejected e.
Proof.
  intros Hsome.
  destruct (mapIndexed (λ _, toScoredDocument showNumber) 0 hits)
    as [results|e] eqn:Hmap.
  - apply Exists_exists in Hsome as (res & Hres & e & Hthrown).
    apply list_elem_of_lookup in Hres as [i Hi].
    destruct (mapIndexed_lookup _ _ _ _ Hmap) as [_ Hlookup].
    destruct (Hlookup i res Hi) as (y & Hy & _).
    apply toScoredDocument_rejected in Hthrown. simpl in Hy. congruence.
  - apply mapIndexed_thrown in Hmap as (i & res & Hi & Hthrown).
    apply toScoredDocument_rejected in Hthrown.
    exists res, e. split_and!; [by eapply list_elem_of_lookup_2|done|done].
Qed.

(** What a search that resolves returns, hit by hit. *)
Lemma similaritySearch_results query k filterExpression w hits :
  index_query index (calls w) (queryArgs query k filterExpression None) = Resolved hits →
  Forall (λ res, ∃ text,
            textOf showNumber
              (getProperty _pageContentLC (default ∅ (hitMetadata res)))
            = Resolved text) hits →
  ∃ results,
    (similaritySearchVectorWithScore showNumber index query k filterExpression w).1
    = Resolved results
    ∧ length results = length hits
    ∧ ∀ i res, hits !! i = Some res →
        ∃ document,
          results !! i = Some (document, score res)
          ∧ toScoredDocument showNumber res = Resolved (document, score res).
Proof.
  intros Hanswer Hall.
  destruct (toScoredDocument_all_resolved hits Hall) as [results Hmap].
  destruct (mapIndexed_lookup _ _ _ _ Hmap) as [Hlength Hlookup].
  exists results. rewrite similaritySearch_unfold, Hanswer. split_and!; [done..|].
  intros i res Hi.
  destruct (Hlookup i res Hi) as ([document s] & Hdecoded & Hresult).
  simpl in Hdecoded.
  rewrite Forall_lookup in Hall. destruct (Hall i res Hi) as [text Htext].
  rewrite (toScoredDocument_resolved res text Htext) in Hdecoded.
  injection Hdecoded as <- <-.
  eexists. split; [exact Hresult|]. by apply toScoredDocument_resolved.
Qed.

(** C4, as the code has it. The search sends the index one query, for the
    given vector and k, with includeMetadata set. When the index answers
    with m hits and the constructor of the document can make a text of the
    value each hit holds under the reserved key, the search resolves with
    exactly m pairs; the pair at each position has the unchanged score of
    the hit at that position and a document whose metadata is the metadata
    of the hit without the reserved key and whose text is the text made of
    the value under the reserved key: that value when it is a string, the
    empty string when it is missing. Nothing is reordered, dropped, merged
    or rescaled. When the constructor throws on the value of some hit, as
    it does on [null], the search is rejected with what it throws, a
    TypeError about [null] when that is the only value it throws on, and
    returns no pair. *)
Theorem similaritySearch_returns_hits_in_order
    query k filterExpression w hits :
  index_query index (calls w) (queryArgs query k filterExpression None) = Resolved hits →
  let run := similaritySearchVectorWithScore showNumber index query k
               filterExpression w in
  let textValue res := getProperty _pageContentLC (default ∅ (hitMetadata res)) in
  (∃ args,
     calls run.2 = calls w ++ [CallQuery args]
     ∧ includeMetadata args = true
     ∧ queryVector args = query
     ∧ topK args = k
     ∧ filter args = filterExpression)
  ∧ (Forall (λ res, ∃ text, textOf showNumber (textValue res) = Resolved text) hits →
     ∃ results,
       run.1 = Resolved results
       ∧ length results = length hits
       ∧ (∀ i res, hits !! i = Some res →
            ∃ document,
              results !! i = Some (document, score res)
              ∧ metadata document
                = delete _pageContentLC (default ∅ (hitMetadata res))
              ∧ textOf showNumber (textValue res) = Resolved (pageContent document)
              ∧ (∀ text,
                   default ∅ (hitMetadata res) !! _pageContentLC
                   = Some (JsString text) →
                   pageContent document = text)
              ∧ (default ∅ (hitMetadata res) !! _pageContentLC = None
                 ∨ default ∅ (hitMetadata res) !! _pageContentLC
                   = Some JsUndefined →
                 pageContent document = ""))
       ∧ results.*2 = score <$> hits)
  ∧ (Exists (λ res, ∃ e, textOf showNumber (textValue res) = Rejected e) hits →
     ∃ res e,
       res ∈ hits
       ∧ textOf showNumber (textValue res) = Rejected e
       ∧ run.1 = Rejected e)
  ∧ (Exists (λ res, default ∅ (hitMetadata res) !! _pageContentLC = Some JsNull)
       hits →
     (∃ e, run.1 = Rejected e)
     ∧ (Forall (λ res, default ∅ (hitMetadata res) !! _pageContentLC = Some JsNull
                       ∨ ∃ text, textOf showNumber (textValue res) = Resolved text)
          hits →
        run.1
        = Rejected (TypeError "Cannot read properties of null (reading 'toString')"))).
Proof.
  intros Hanswer run textValue.
  assert (Exists (λ res, ∃ e, textOf showNumber (textValue res) = Rejected e) hits →
          ∃ res e,
            res ∈ hits
            ∧ textOf showNumber (textValue res) = Rejected e
            ∧ run.1 = Rejected e) as Hthrows.
  { intros Hsome. subst run. rewrite similaritySearch_unfold, Hanswer. simpl.
    by apply toScoredDocument_some_rejected. }
  split_and!.
  - subst run. rewrite similaritySearch_unfold.
    by exists (queryArgs query k filterExpression None).
  - intros Hall.
    destruct (similaritySearch_results query k filterExpression w hits Hanswer Hall)
      as (results & Hrun & Hlength & Hlookup).
    exists results. split_and!; [done | done | |].
    + intros i res Hi.
      destruct (Hlookup i res Hi) as (document & Hresult & Hdecoded).
      exists document. split; [done|].
      unfold toScoredDocument in Hdecoded.
      destruct (decodeMetadata showNumber (default ∅ (hitMetadata res)))
        as [decoded|] eqn:Hdec; [|done].
      injection Hdecoded as ->.
      apply decodeMetadata_text in Hdec as [Htext Hmeta].
      split_and!; [done | done | |].
      * intros text Hstring. subst textValue. unfold getProperty in Htext.
        rewrite Hstring in Htext. simpl in Htext. by injection Htext as <-.
      * subst textValue. unfold getProperty in Htext.
        intros [Hmissing|Hmissing]; rewrite Hmissing in Htext;
          simpl in Htext; by injection Htext as <-.
    + apply list_eq. intros i. rewrite !list_lookup_fmap.
      destruct (hits !! i) as [res|] eqn:Hi.
      * destruct (Hlookup i res Hi) as (document & -> & _). done.
      * apply lookup_ge_None in Hi. rewrite <- Hlength in Hi.
        apply lookup_ge_None in Hi. by rewrite Hi.
  - exact Hthrows.
  - intros Hnull.
    destruct Hthrows as (res & e & Hres & Hthrown & Hrun).
    { eapply Exists_impl; [exact Hnull|]. intros res Hres. subst textValue.
      unfold getProperty. simpl. rewrite Hres. simpl. by eexists. }
    split; [by exists e|].
    intros Honly. rewrite Forall_forall in Honly.
    destruct (Honly res Hres) as [Hisnull|[text Htext]]; [|congruence].
    subst textValue. unfold getProperty in Hthrown. simpl in Hthrown.
    rewrite Hisnull in Hthrown. simpl in Hthrown. congruence.
Qed.

(** C8, as the code has it. A hit without metadata is decoded like a hit
    with an empty record: its decoding does not fail and gives a document
    with empty metadata whose text is the empty string (the constructor of
    the document replaces the missing text), with the score of the hit. The
    search returns that pair at the position of the hit; if the search
    fails, it is on another hit, on whose value under the reserved key the
    constructor of the document throws. *)
Theorem similaritySearch_hit_without_metadata
    query k filterExpression w hits i res :
  index_query index (calls w) (queryArgs query k filterExpression None) = Resolved hits →
  hits !! i = Some res →
  hitMetadata res = None →
  let run := similaritySearchVectorWithScore showNumber index query k
               filterExpression w in
  let textValue other := getProperty _pageContentLC (default ∅ (hitMetadata other)) in
  toScoredDocument showNumber res
  = Resolved ({| pageContent := ""; metadata := ∅ |}, score res)
  ∧ (Forall (λ other, ∃ text, textOf showNumber (textValue other) = Resolved text)
       hits →
     ∃ results,
       run.1 = Resolved results
       ∧ results !! i = Some ({| pageContent := ""; metadata := ∅ |}, score res))
  ∧ (∀ e, run.1 = Rejected e →
       ∃ j other,
         j ≠ i ∧ hits !! j = Some other
         ∧ textOf showNumber (textValue other) = Rejected e).
Proof.
  intros Hanswer Hi Hnone run textValue.
  assert (toScoredDocument showNumber res
          = Resolved ({| pageContent := ""; metadata := ∅ |}, score res)) as Hdec.
  { unfold toScoredDocument, decodeMetadata, newDocument, getProperty.
    rewrite Hnone. simpl. by rewrite lookup_empty, delete_empty. }
  split_and!; [done | |].
  - intros Hall.
    destruct (similaritySearch_results query k filterExpression w hits Hanswer Hall)
      as (results & Hrun & _ & Hlookup).
    exists results. split; [done|].
    destruct (Hlookup i res Hi) as (document & Hresult & Hdecoded).
    rewrite Hdec in Hdecoded. injection Hdecoded as <-. done.
  - intros e. subst run. rewrite similaritySearch_unfold, Hanswer. simpl.
    intros (j & other & Hj & Hthrown)%mapIndexed_thrown.
    apply toScoredDocument_rejected in Hthrown.
    exists j, other. split_and!; [|done..].
    intros ->. rewrite Hi in Hj. injection Hj as <-.
    apply toScoredDocument_rejected in Hthrown. congruence.
Qed.

End Query.

(** C4, as stated, fails: to a query the index [nullTextAnswer] answers
    with two hits, the second of which holds [null] under the reserved key;
    the search returns no pair and is rejected with a TypeError. *)
Lemma similaritySearch_null_text_rejects :
  let run := similaritySearchVectorWithScore Samples.showZ Samples.nullTextAnswer
               [1; 0]%Z 10 None Samples.freshWorld in
  index_query Samples.nullTextAnswer (calls Samples.freshWorld)
    (queryArgs [1; 0]%Z 10 None None)
  = Resolved [Samples.catHit; Samples.nullTextHit]
  ∧ run.1 = Rejected (TypeError "Cannot read properties of null (reading 'toString')")
  ∧ ∀ results, run.1 ≠ Resolved results.
Proof. cbv zeta. split_and!; [reflexivity | reflexivity | done]. Qed.

(** Three hits for k = 10, two of them with the same score: three results,
    scores in the order of the hits, the first with the text and the
    metadata of the cat. *)
Lemma similaritySearch_returns_hits_in_order_witness :
  ∃ results,
    (similaritySearchVectorWithScore Samples.showZ Samples.threeHits [1; 0]%Z 10 None
       Samples.freshWorld).1 = Resolved results
    ∧ length results = 3
    ∧ results.*2 = [97; 42; 97]%Z
    ∧ ∃ document,
        results !! 0 = Some (document, 97%Z)
        ∧ pageContent document = "cat"
        ∧ metadata document = metadata Samples.catDocument.
Proof.
  destruct (similaritySearch_returns_hits_in_order Samples.showZ
              Samples.threeHits [1; 0]%Z 10 None Samples.freshWorld
              [Samples.catHit; Samples.bareHit; Samples.dogHit] eq_refl)
    as (_ & Hresolves & _).
  destruct Hresolves as (results & Hrun & Hlen & Hlookup & Hscores).
  { repeat constructor; by eexists. }
  exists results. split_and!; [exact Hrun | exact Hlen | exact Hscores |].
  destruct (Hlookup 0 Samples.catHit eq_refl)
    as (document & Hresult & Hmetadata & _ & Htext & _).
  exists document. split_and!; [exact Hresult | | exact Hmetadata].
  exact (Htext "cat" eq_refl).
Defined.

(** C8, as stated, fails: the second of the three hits of [threeHits] has
    no metadata, and the document returned for it has the empty string for
    text, which is a string and not [undefined]. *)
Lemma similaritySearch_hit_without_metadata_text_is_empty_string :
  hitMetadata Samples.bareHit = None
  ∧ ∃ results document,
      (similaritySearchVectorWithScore Samples.showZ Samples.threeHits [1; 0]%Z 10
         None Samples.freshWorld).1 = Resolved results
      ∧ results !! 1 = Some (document, 42%Z)
      ∧ metadata document = ∅
      ∧ pageContent document = ""
      ∧ JsString (pageContent document) ≠ @JsUndefined Z.
Proof.
  split; [reflexivity|].
  eexists _, _. split_and!; [vm_compute; reflexivity | reflexivity | reflexivity
                            | reflexivity | discriminate].
Qed.

(** The second of the three hits has no metadata. *)
Lemma similaritySearch_hit_without_metadata_witness :
  hitMetadata Samples.bareHit = None
  ∧ ∃ results,
      (similaritySearchVectorWithScore Samples.showZ Samples.threeHits [1; 0]%Z 10
         None Samples.freshWorld).1 = Resolved results
      ∧ results !! 1 = Some ({| pageContent := ""; metadata := ∅ |}, 42%Z).
Proof.
  split; [reflexivity|].
  destruct (similaritySearch_hit_without_metadata Samples.showZ
              Samples.threeHits [1; 0]%Z 10 None Samples.freshWorld
              [Samples.catHit; Samples.bareHit; Samples.dogHit] 1 Samples.bareHit
              eq_refl eq_refl eq_refl)
    as (_ & Hresolves & _).
  apply Hresolves. repeat constructor; by eexists.
Defined.

(** ** delete *)
Section Delete.

Context {number : Type}.
Variable index : UpstashIndex number.

(** C5, as the code has it. delete validates nothing. A request with both
    ids and a true deleteAll resets the index and ignores the ids; a request
    with neither ids nor a true deleteAll resolves at once without calling
    the index. In both cases a rejection can only come from the index, after
    it has been called. *)
Theorem delete_both_or_neither_not_validated params w :
  (is_Some (ids params) ∧ deleteAll params = Some true)
  ∨ (ids params = None ∧ truthyBool (deleteAll params) = false) →
  let run := deleteVectors index params w in
  (deleteAll params = Some true →
     run = (index_reset index (calls w), logCall CallReset w))
  ∧ (ids params = None → truthyBool (deleteAll params) = false →
     run = (Resolved (), w))
  ∧ ¬ rejectsBeforeAnyCall (deleteVectors index params) w.
Proof.
  intros Hshape run. subst run. unfold rejectsBeforeAnyCall, deleteVectors.
  destruct Hshape as [[_ Hall]|[Hids Hall]].
  - rewrite Hall. simpl. split_and!; [done | by intros _ ? |].
    intros [_ Hcalls]. apply (f_equal length) in Hcalls.
    rewrite length_app in Hcalls. simpl in Hcalls. lia.
  - rewrite Hall, Hids. simpl. split_and!; [|done|by intros [? _]].
    intros Htrue. rewrite Htrue in Hall. done.
Qed.

End Delete.

(** C5, as stated, fails: on an index that accepts every call, the request
    with both modes resolves after a reset, and the requests with no mode
    resolve without any call; none is rejected. *)
Lemma delete_both_or_neither_not_rejected :
  deleteVectors Samples.acceptingIndex Samples.bothModes Samples.freshWorld
  = (Resolved (), {| calls := [CallReset]; uuidCount := 0 |})
  ∧ deleteVectors Samples.acceptingIndex Samples.neitherMode Samples.freshWorld
    = (Resolved (), Samples.freshWorld)
  ∧ deleteVectors Samples.acceptingIndex Samples.deleteAllFalse Samples.freshWorld
    = (Resolved (), Samples.freshWorld)
  ∧ ¬ rejectsBeforeAnyCall
        (deleteVectors Samples.acceptingIndex Samples.bothModes) Samples.freshWorld
  ∧ ¬ rejectsBeforeAnyCall
        (deleteVectors Samples.acceptingIndex Samples.neitherMode) Samples.freshWorld.
Proof.
  split_and!; [reflexivity | reflexivity | reflexivity | |];
    intros [Hrejected _]; vm_compute in Hrejected; discriminate.
Qed.

(** The request with both modes, on an index that accepts every call. *)
Lemma delete_both_or_neither_not_validated_witness :
  deleteVectors Samples.acceptingIndex Samples.bothModes Samples.freshWorld
  = (Resolved (), logCall CallReset Samples.freshWorld).
Proof.
  apply (delete_both_or_neither_not_validated
           Samples.acceptingIndex Samples.bothModes Samples.freshWorld).
  - left. split; [by eexists | reflexivity].
  - reflexivity.
Defined.

(** ** RedisByteStore: key prefixing *)
Section RedisKeys.

Import IoRedis.

Lemma slice_append (prefix rest : string) :
  slice (String.length prefix) (prefix +:+ rest) = rest.
Proof. induction prefix as [|c prefix IH]; [done|]. simpl. exact IH. Qed.

Lemma slice_add (n m : nat) (s : string) :
  slice (n + m) s = slice m (slice n s).
Proof.
  revert s. induction n as [|n IH]; intros s; [done|].
  destruct s as [|c s]; simpl.
  - by destruct m.
  - apply IH.
Qed.

(** C9. With or without a namespace, removing the prefix from a prefixed
    key gives the key back. *)
Theorem getDeprefixedKey_getPrefixedKey (this : RedisByteStore) (key : string) :
  _getDeprefixedKey this (_getPrefixedKey this key) = key.
Proof.
  unfold _getDeprefixedKey, _getPrefixedKey.
  destruct (truthyString (namespace this)); [|done].
  rewrite slice_add, slice_append.
  apply (slice_append delimiter key).
Qed.

End RedisKeys.

(** ** PostgresChatMessageHistory: the constructor *)
Section PostgresConstructor.

Import Postgres.

Context {Pool PoolConfig : Type}.
Variable escapeIdentifier : string → string.

Implicit Types fields : PostgresChatMessageHistoryInput Pool PoolConfig.

Lemma constructor_rejected fields :
  pool fields = None → poolConfig fields = None →
  isRejected (constructor escapeIdentifier fields) = true.
Proof. unfold constructor. by intros -> ->. Qed.

Lemma constructor_resolved fields :
  is_Some (pool fields) ∨ is_Some (poolConfig fields) →
  constructor escapeIdentifier fields
  = Resolved
      {| this_pool := match pool fields with
                      | Some supplied => SuppliedPool supplied
                      | None => NewPool (poolConfig fields)
                      end;
         this_tableName := if truthyBool (escapeTableName fields)
                           then escapeIdentifier (_tableName fields)
                           else _tableName fields;
         this_sessionId := sessionId fields;
         initialized := false |}.
Proof.
  unfold constructor, _tableName.
  intros [[p ->]|[cfg ->]]; [done|]. by destruct (pool fields).
Qed.

Lemma tableName_given fields given :
  tableName fields = Some given → given ≠ "" → _tableName fields = given.
Proof.
  intros Hgiven Hne. unfold _tableName. rewrite Hgiven. simpl.
  by destruct (String.eqb_spec given "").
Qed.

Lemma tableName_default fields :
  tableName fields = None ∨ tableName fields = Some "" →
  _tableName fields = defaultTableName.
Proof. unfold _tableName. by intros [->| ->]. Qed.

(** C10. The constructor throws exactly when neither a pool nor a pool
    configuration is given. A given pool is the one used, also when a
    configuration comes with it; without a pool, a new one is made from the
    configuration. The table name of the new object is the given name, or
    the default one when none (or the empty string) is given, passed
    through [escapeIdentifier] exactly when escapeTableName is true. *)
Theorem constructor_throws_iff_no_pool_and_names_table fields :
  (isRejected (constructor escapeIdentifier fields) = true
   ↔ pool fields = None ∧ poolConfig fields = None)
  ∧ (∀ supplied, pool fields = Some supplied →
       ∃ this, constructor escapeIdentifier fields = Resolved this
               ∧ this_pool this = SuppliedPool supplied)
  ∧ (∀ config, pool fields = None → poolConfig fields = Some config →
       ∃ this, constructor escapeIdentifier fields = Resolved this
               ∧ this_pool this = NewPool (Some config))
  ∧ (∀ this, constructor escapeIdentifier fields = Resolved this →
       (escapeTableName fields = Some true →
          this_tableName this = escapeIdentifier (_tableName fields))
       ∧ (escapeTableName fields ≠ Some true →
          this_tableName this = _tableName fields)
       ∧ this_sessionId this = sessionId fields)
  ∧ (∀ given, tableName fields = Some given → given ≠ "" →
       _tableName fields = given)
  ∧ (tableName fields = None → _tableName fields = defaultTableName).
Proof.
  split_and!.
  - split.
    + intros Hrejected.
      destruct (pool fields) as [p|] eqn:Hpool.
      { rewrite constructor_resolved in Hrejected; [done|]. left. by rewrite Hpool. }
      destruct (poolConfig fields) as [cfg|] eqn:Hcfg; [|done].
      rewrite constructor_resolved in Hrejected; [done|]. right. by rewrite Hcfg.
    + intros [Hpool Hcfg]. by apply constructor_rejected.
  - intros supplied Hpool. eexists. split.
    + apply constructor_resolved. left. by rewrite Hpool.
    + simpl. by rewrite Hpool.
  - intros config Hpool Hcfg. eexists. split.
    + apply constructor_resolved. right. by rewrite Hcfg.
    + simpl. by rewrite Hpool, Hcfg.
  - intros this Hthis.
    destruct (decide (pool fields = None ∧ poolConfig fields = None))
      as [[Hpool Hcfg]|Hsome].
    { pose proof (constructor_rejected fields Hpool Hcfg) as Hrejected.
      by rewrite Hthis in Hrejected. }
    rewrite constructor_resolved in Hthis.
    + injection Hthis as <-. simpl. split_and!; [by intros -> | | done].
      intros Hne. by destruct (escapeTableName fields) as [[|]|].
    + destruct (pool fields), (poolConfig fields); eauto. by destruct Hsome.
  - apply tableName_given.
  - intros Hnone. apply tableName_default. by left.
Qed.

End PostgresConstructor.

(** * Further properties *)

(** ** addVectors: what reaches the index *)
Section UpsertedVectors.

Import UpstashStore.

Context {number : Type}.
Variable caller : AsyncCaller.
Variable index : UpstashIndex number.
Variable uuid_v4 : nat → string.

Lemma upsertedVectors_app (log1 log2 : list (SinkCall number)) :
  upsertedVectors (log1 ++ log2) = upsertedVectors log1 ++ upsertedVectors log2.
Proof. unfold upsertedVectors. apply bind_app. Qed.

Lemma upsertedVectors_chunks (chunks : list (list (UpstashVector number))) :
  upsertedVectors (CallUpsert <$> chunks) = concat chunks.
Proof.
  induction chunks as [|chunk chunks IH]; [done|].
  rewrite fmap_cons. unfold upsertedVectors. rewrite bind_cons.
  fold (upsertedVectors (CallUpsert <$> chunks)). by rewrite IH.
Qed.

(** The log left by a run of addVectors that built its vectors: the chunks,
    in order, and then chunks the index had refused. *)
Lemma addVectorsWith_world chunkSize vectors documents options w upstashVectors :
  mapIndexed (toUpstashVector (documentIdsOf uuid_v4 vectors options w) documents)
             0 vectors
  = Resolved upstashVectors →
  let chunks := chunkArray upstashVectors chunkSize in
  ∃ resent,
    calls (addVectorsWith caller index uuid_v4 chunkSize vectors documents options w).2
    = calls w ++ (CallUpsert <$> chunks) ++ (CallUpsert <$> resent)
    ∧ Forall (refusedAtFirst caller index chunks (calls w)) resent
    ∧ length resent ≤ maxRetries caller * length chunks.
Proof.
  intros Hbuild chunks. rewrite addVectorsWith_unfold. cbv zeta. rewrite Hbuild.
  cbn [snd calls]. fold chunks.
  destruct (submitChunks_log caller index chunks (calls w))
    as (resent & Hlog & Hrefused & Hbound & _).
  by exists resent.
Qed.

Lemma refused_not_accepting (chunks : list (list (UpstashVector number))) history
    (resent : list (list (UpstashVector number))) :
  Forall (refusedAtFirst caller index chunks history) resent →
  (∀ h chunk, index_upsert index h chunk = Resolved ()) →
  resent = [].
Proof.
  intros Hrefused Hok. destruct resent as [|chunk resent]; [done|].
  apply Forall_cons in Hrefused as [(i & e & _ & Hrejected & _) _].
  by rewrite Hok in Hrejected.
Qed.

Lemma refused_in_chunks (chunks : list (list (UpstashVector number))) history
    (resent : list (list (UpstashVector number))) :
  Forall (refusedAtFirst caller index chunks history) resent →
  Forall (λ chunk, chunk ∈ chunks
                   ∧ ∃ h e, index_upsert index h chunk = Rejected e) resent.
Proof.
  intros Hrefused. eapply Forall_impl; [exact Hrefused|].
  intros chunk (i & e & Hi & Hrejected & _). split.
  - by eapply list_elem_of_lookup_2.
  - by eexists _, e.
Qed.

Lemma addVectorsWith_sent chunkSize vectors documents options w :
  0 < chunkSize →
  length vectors ≤ length documents →
  ∃ sent resent,
    upsertedVectors
      (calls (addVectorsWith caller index uuid_v4 chunkSize vectors documents
                options w).2)
    = upsertedVectors (calls w) ++ sent ++ concat resent
    ∧ length sent = length vectors
    ∧ (∀ i v doc, vectors !! i = Some v → documents !! i = Some doc →
         sent !! i
         = Some {| id := documentIdsOf uuid_v4 vectors options w !! i;
                   vector := v;
                   vectorMetadata := encodeMetadata doc |})
    ∧ Forall (λ chunk, chunk ∈ chunkArray sent chunkSize
                       ∧ ∃ h e, index_upsert index h chunk = Rejected e) resent
    ∧ ((∀ h chunk, index_upsert index h chunk = Resolved ()) → resent = [])
    ∧ (maxRetries caller = 0 → resent = []).
Proof.
  intros Hsize Hlen.
  destruct (mapIndexed_resolved (documentIdsOf uuid_v4 vectors options w)
              documents vectors 0) as (sent & Hbuild & _); [lia|].
  destruct (addVectorsWith_world chunkSize _ _ _ _ _ Hbuild)
    as (resent & Hlog & Hrefused & Hbound).
  exists sent, resent. rewrite Hlog.
  rewrite !upsertedVectors_app, !upsertedVectors_chunks, chunkArray_concat by done.
  destruct (mapIndexed_lookup _ _ _ _ Hbuild) as [Hlength Hlookup].
  split_and!; [done|done| | | |].
  - intros i v doc Hv Hdoc.
    destruct (Hlookup i v Hv) as (y & Hy & Hsent). simpl in Hy.
    unfold toUpstashVector in Hy. rewrite Hdoc in Hy. injection Hy as <-.
    exact Hsent.
  - by eapply refused_in_chunks.
  - by eapply refused_not_accepting.
  - intros Hnone. rewrite Hnone in Hbound. destruct resent; [done|simpl in Hbound; lia].
Qed.


Lemma chunkArrayFrom_nil {T} (fuel chunkSize : nat) :
  chunkArrayFrom fuel (@nil T) chunkSize = [].
Proof. by destruct fuel. Qed.

Lemma chunkArrayFrom_nonempty {T} (chunkSize fuel : nat) (arr : list T) :
  0 < chunkSize →
  Forall (λ chunk, 0 < length chunk) (chunkArrayFrom fuel arr chunkSize).
Proof.
  intros Hpos. revert arr. induction fuel as [|fuel IH]; intros arr; [by destruct arr|].
  destruct arr as [|x arr]; [done|].
  cbn [chunkArrayFrom]. constructor; [|apply IH].
  rewrite length_take. simpl. lia.
Qed.

(** The number of chunks is the length divided by the chunk size, rounded
    up. *)
Lemma chunkArrayFrom_length {T} (chunkSize fuel : nat) (arr : list T) :
  0 < chunkSize → length arr ≤ fuel →
  length (chunkArrayFrom fuel arr chunkSize)
  = (length arr + (chunkSize - 1)) / chunkSize.
Proof.
  intros Hpos. revert arr. induction fuel as [|fuel IH]; intros arr Hlen.
  - destruct arr; [|simpl in Hlen; lia]. simpl.
    symmetry. apply Nat.div_small. lia.
  - destruct arr as [|x arr].
    + simpl. symmetry. apply Nat.div_small. lia.
    + cbn [chunkArrayFrom length]. rewrite IH by (rewrite length_drop; simpl in *; lia).
      rewrite length_drop. cbn [length].
      destruct (decide (S (length arr) ≤ chunkSize)) as [Hle|Hgt].
      * replace (S (length arr) - chunkSize) with 0 by lia.
        rewrite (Nat.div_small (0 + _)) by lia.
        apply (Nat.div_unique _ _ 1 (length arr)); lia.
      * replace (S (length arr) + (chunkSize - 1))
          with ((S (length arr) - chunkSize + (chunkSize - 1)) + 1 * chunkSize) by lia.
        rewrite Nat.div_add by lia. lia.
Qed.

Lemma addVectors_calls_bounded vectors documents options w :
  length vectors ≤ length documents →
  ∃ chunks resent,
    calls (addVectors caller index uuid_v4 vectors documents options w).2
    = calls w ++ (CallUpsert <$> chunks) ++ (CallUpsert <$> resent)
    ∧ Forall (λ chunk, 0 < length chunk ≤ CONCURRENT_UPSERT_LIMIT) (chunks ++ resent)
    ∧ length chunks
      = (length vectors + (CONCURRENT_UPSERT_LIMIT - 1)) / CONCURRENT_UPSERT_LIMIT
    ∧ length resent ≤ maxRetries caller * length chunks
    ∧ ((∀ h chunk, index_upsert index h chunk = Resolved ()) → resent = [])
    ∧ (maxRetries caller = 0 → resent = []).
Proof.
  intros Hlen.
  assert (0 < CONCURRENT_UPSERT_LIMIT) as Hpos by (unfold CONCURRENT_UPSERT_LIMIT; lia).
  destruct (mapIndexed_resolved (documentIdsOf uuid_v4 vectors options w)
              documents vectors 0) as (sent & Hbuild & Hsent); [lia|].
  destruct (addVectorsWith_world CONCURRENT_UPSERT_LIMIT _ _ _ _ _ Hbuild)
    as (resent & Hlog & Hrefused & Hbound).
  assert (Forall (λ chunk : list (UpstashVector number),
                    0 < length chunk ≤ CONCURRENT_UPSERT_LIMIT)
            (chunkArray sent CONCURRENT_UPSERT_LIMIT)) as Hchunks.
  { apply Forall_and. split.
    - by apply chunkArrayFrom_nonempty.
    - apply chunkArray_bounded. }
  exists (chunkArray sent CONCURRENT_UPSERT_LIMIT), resent. split_and!.
  - exact Hlog.
  - apply Forall_app. split; [done|].
    apply refused_in_chunks in Hrefused.
    eapply Forall_impl; [exact Hrefused|]. intros chunk [Hin _].
    rewrite Forall_forall in Hchunks. by apply Hchunks.
  - unfold chunkArray. rewrite chunkArrayFrom_length by done. by rewrite Hsent.
  - exact Hbound.
  - by eapply refused_not_accepting.
  - intros Hnone. rewrite Hnone in Hbound. destruct resent; [done|simpl in Hbound; lia].
Qed.


Lemma addVectorsWith_returned chunkSize vectors documents options w returned :
  (addVectorsWith caller index uuid_v4 chunkSize vectors documents options w).1
  = Resolved returned →
  returned = documentIdsOf uuid_v4 vectors options w.
Proof.
  rewrite addVectorsWith_unfold. cbv zeta.
  destruct (mapIndexed _ 0 vectors); [|done]. simpl.
  destruct (Promise_all _); congruence.
Qed.

Lemma addVectorsWith_uuidCount chunkSize vectors documents options w :
  uuidCount (addVectorsWith caller index uuid_v4 chunkSize vectors documents
               options w).2
  = match options ≫= optionIds with
    | Some _ => uuidCount w
    | None => uuidCount w + length vectors
    end.
Proof.
  rewrite addVectorsWith_unfold. cbv zeta.
  destruct (mapIndexed _ 0 vectors); by destruct (options ≫= optionIds).
Qed.

Lemma generated_ids_distinct
    chunkSize1 chunkSize2 vectors1 vectors2 documents1 documents2
    options1 options2 w ids1 ids2 :
  Inj (=) (=) uuid_v4 →
  options1 ≫= optionIds = None →
  options2 ≫= optionIds = None →
  (addVectorsWith caller index uuid_v4 chunkSize1 vectors1 documents1 options1 w).1
  = Resolved ids1 →
  (addVectorsWith caller index uuid_v4 chunkSize2 vectors2 documents2 options2
     (addVectorsWith caller index uuid_v4 chunkSize1 vectors1 documents1
        options1 w).2).1
  = Resolved ids2 →
  NoDup (ids1 ++ ids2).
Proof.
  intros Hinj Hopt1 Hopt2 Hrun1 Hrun2.
  apply addVectorsWith_returned in Hrun1, Hrun2.
  unfold documentIdsOf in Hrun1, Hrun2.
  rewrite Hopt1 in Hrun1. rewrite Hopt2, addVectorsWith_uuidCount, Hopt1 in Hrun2.
  subst ids1 ids2.
  rewrite <- fmap_app, <- seq_app.
  apply NoDup_fmap_2; [done|]. apply NoDup_seq.
Qed.

(** X3. With a generator that never hands out the same identifier twice,
    the identifiers returned by two successive runs of addVectors without
    caller identifiers are pairwise distinct, within each run and across
    the two. *)
Theorem addVectors_generated_ids_distinct
    chunkSize1 chunkSize2 vectors1 vectors2 documents1 documents2
    options1 options2 w ids1 ids2 :
  Inj (=) (=) uuid_v4 →
  options1 ≫= optionIds = None →
  options2 ≫= optionIds = None →
  let run1 := addVectorsWith caller index uuid_v4 chunkSize1 vectors1 documents1
                options1 w in
  let run2 := addVectorsWith caller index uuid_v4 chunkSize2 vectors2 documents2
                options2 run1.2 in
  run1.1 = Resolved ids1 →
  run2.1 = Resolved ids2 →
  NoDup (ids1 ++ ids2).
Proof.
  intros Hinj Hopt1 Hopt2 run1 run2 Hrun1 Hrun2.
  exact (generated_ids_distinct _ _ _ _ _ _ _ _ _ _ _ Hinj Hopt1 Hopt2 Hrun1 Hrun2).
Qed.

End UpsertedVectors.

Lemma sampleUuid_inj : Inj (=) (=) Samples.sampleUuid.
Proof.
  intros a b Heq. unfold Samples.sampleUuid in Heq.
  apply (inj (String.app "uuid-")) in Heq. by apply (inj pretty) in Heq.
Qed.



(** Three documents, then one more: four distinct identifiers. *)
Lemma addVectors_generated_ids_distinct_witness :
  NoDup (["uuid-0"; "uuid-1"; "uuid-2"] ++ ["uuid-3"]).
Proof.
  apply (addVectors_generated_ids_distinct
           Samples.retryingCaller Samples.acceptingIndex Samples.sampleUuid 2 2
           Samples.sampleVectors [[5]%Z]
           Samples.sampleDocuments [Samples.catDocument] None None
           Samples.freshWorld).
  - exact sampleUuid_inj.
  - reflexivity.
  - reflexivity.
  - reflexivity.
  - reflexivity.
Defined.

(** ** addDocuments, fromDocuments, fromTexts *)
Section UpstashDocuments.

Import UpstashStore.

Context {number : Type}.
Variable caller : AsyncCaller.
Variable index : UpstashIndex number.
Variable uuid_v4 : nat → string.
Variable embedDocuments : list string → Settled (list (list number)).

Lemma textDocuments_lookup (texts : list string) (metadatas : Metadatas number) :
  ∀ start i,
    textDocuments texts metadatas start !! i
    = (λ text, {| pageContent := text;
                  metadata := metadataAt metadatas (start + i) |})
      <$> texts !! i.
Proof.
  induction texts as [|text texts IH]; intros start i; [done|].
  destruct i as [|i]; simpl.
  - by rewrite Nat.add_0_r.
  - rewrite IH. by replace (start + S i) with (S start + i) by lia.
Qed.

Lemma textDocuments_length (texts : list string) (metadatas : Metadatas number) start :
  length (textDocuments texts metadatas start) = length texts.
Proof.
  revert start. induction texts as [|text texts IH]; intros start; [done|].
  simpl. by rewrite IH.
Qed.

Lemma textDocuments_pageContent
    (texts : list string) (metadatas : Metadatas number) start :
  pageContent <$> textDocuments texts metadatas start = texts.
Proof.
  revert start. induction texts as [|text texts IH]; intros start; [done|].
  simpl. by rewrite IH.
Qed.

Lemma addDocuments_unfold documents options w :
  addDocuments caller index uuid_v4 embedDocuments documents options w
  = match embedDocuments (pageContent <$> documents) with
    | Resolved embeddings =>
        addVectors caller index uuid_v4 embeddings documents options w
    | Rejected e => (Rejected e, w)
    end.
Proof.
  unfold addDocuments, bind, settle.
  by destruct (embedDocuments _).
Qed.

Lemma fromDocuments_world docs w :
  (fromDocuments caller index uuid_v4 embedDocuments docs w).2
  = (addDocuments caller index uuid_v4 embedDocuments docs None w).2.
Proof.
  unfold fromDocuments, bind, ret.
  by destruct (addDocuments _ _ _ _ _ _ _) as [[?|?] ?].
Qed.

(** X4. When the embedder fails, addDocuments fails with the embedder's
    reason and nothing else has happened: the index has received no call
    and no identifier has been drawn, whether or not identifiers were
    supplied. *)
Theorem addDocuments_embedding_failure documents options w e :
  embedDocuments (pageContent <$> documents) = Rejected e →
  addDocuments caller index uuid_v4 embedDocuments documents options w
  = (Rejected e, w)
  ∧ fromDocuments caller index uuid_v4 embedDocuments documents w = (Rejected e, w).
Proof.
  intros Hfail. split.
  - by rewrite addDocuments_unfold, Hfail.
  - unfold fromDocuments, bind. by rewrite addDocuments_unfold, Hfail.
Qed.


End UpstashDocuments.

(** An embedder out of service: nothing reaches the index. *)
Lemma addDocuments_embedding_failure_witness :
  UpstashStore.addDocuments Samples.retryingCaller Samples.acceptingIndex
    Samples.sampleUuid
    MoreSamples.failingEmbedder Samples.sampleDocuments None Samples.freshWorld
  = (Rejected (UpstreamError "embeddings unavailable"), Samples.freshWorld).
Proof.
  apply (addDocuments_embedding_failure
           Samples.retryingCaller Samples.acceptingIndex Samples.sampleUuid
           MoreSamples.failingEmbedder
           Samples.sampleDocuments None Samples.freshWorld
           (UpstreamError "embeddings unavailable")).
  reflexivity.
Defined.


(** ** From addVectors to similaritySearchVectorWithScore *)
Section StoreRoundTrip.

Import UpstashStore.

Context {number : Type}.
Variable showNumber : number → string.
Variable caller : AsyncCaller.
Variable index : UpstashIndex number.
Variable uuid_v4 : nat → string.

Lemma elem_of_concat {A} (x : A) (ls : list (list A)) :
  x ∈ concat ls ↔ ∃ l, x ∈ l ∧ l ∈ ls.
Proof.
  induction ls as [|l ls IH]; simpl.
  - split; [by intros ?%elem_of_nil | by intros (l & _ & ?%elem_of_nil)].
  - rewrite elem_of_app, IH. split.
    + intros [Hx|(l' & Hx & Hl')].
      * exists l. split; [done|by left].
      * exists l'. split; [done|by right].
    + intros (l' & Hx & [->|Hl']%elem_of_cons); [by left|].
      right. by exists l'.
Qed.

Lemma search_returns_added
    chunkSize vectors documents options w query k filterExpression hits :
  0 < chunkSize →
  length vectors ≤ length documents →
  Forall (λ doc, metadata doc !! _pageContentLC = None) documents →
  upsertedVectors (calls w) = [] →
  index_query index
    (calls (addVectorsWith caller index uuid_v4 chunkSize vectors documents
              options w).2)
    (queryArgs query k filterExpression None) = Resolved hits →
  Forall (λ hit, ∃ uv,
            uv ∈ upsertedVectors
                   (calls (addVectorsWith caller index uuid_v4 chunkSize vectors
                             documents options w).2)
            ∧ hitMetadata hit = Some (vectorMetadata uv)) hits →
  ∃ results,
    (similaritySearchVectorWithScore showNumber index query k filterExpression
       (addVectorsWith caller index uuid_v4 chunkSize vectors documents
          options w).2).1
    = Resolved results
    ∧ length results = length hits
    ∧ Forall (λ result, result.1 ∈ documents) results.
Proof.
  intros Hsize Hlen Hfree Hfresh Hanswer Hfaithful.
  destruct (addVectorsWith_sent caller index uuid_v4 chunkSize vectors documents
              options w)
    as (sent & resent & Hsent & Hlength & Hlookup & Hresent & _); [done..|].
  rewrite Hfresh in Hsent. simpl in Hsent.
  (* every vector the index was handed encodes one of the documents *)
  assert (∀ uv, uv ∈ upsertedVectors
                       (calls (addVectorsWith caller index uuid_v4 chunkSize vectors
                                 documents options w).2) →
                ∃ doc, doc ∈ documents ∧ vectorMetadata uv = encodeMetadata doc)
    as Hencoded.
  { intros uv Huv. rewrite Hsent in Huv.
    assert (uv ∈ sent) as Hin.
    { apply elem_of_app in Huv as [Huv|Huv]; [done|].
      apply elem_of_concat in Huv as (chunk & Huv & Hchunk).
      rewrite Forall_forall in Hresent.
      destruct (Hresent chunk Hchunk) as [Hin _].
      rewrite <- (chunkArray_concat sent chunkSize Hsize).
      apply elem_of_concat. by exists chunk. }
    apply list_elem_of_lookup in Hin as [i Hi].
    assert (i < length vectors) as Hi_lt.
    { apply lookup_lt_Some in Hi. lia. }
    destruct (lookup_lt_is_Some_2 vectors i Hi_lt) as [v Hv].
    destruct (lookup_lt_is_Some_2 documents i) as [doc Hdoc]; [lia|].
    rewrite (Hlookup i v doc Hv Hdoc) in Hi. injection Hi as <-.
    exists doc. split; [by eapply list_elem_of_lookup_2|done]. }
  (* so every hit decodes to one of the documents *)
  assert (∀ hit, hit ∈ hits →
                 ∃ doc, doc ∈ documents
                        ∧ toScoredDocument showNumber hit = Resolved (doc, score hit))
    as Hdecoded.
  { intros hit Hhit. rewrite Forall_forall in Hfaithful.
    destruct (Hfaithful hit Hhit) as (uv & Huv & Hmeta).
    destruct (Hencoded uv Huv) as (doc & Hdoc & Hrecord).
    exists doc. split; [done|].
    unfold toScoredDocument. rewrite Hmeta, Hrecord. simpl.
    rewrite decode_encode_id; [done|].
    rewrite Forall_forall in Hfree. by apply Hfree. }
  destruct (similaritySearch_results showNumber index query k filterExpression
              _ hits Hanswer)
    as (results & Hrun & Hresults & Hlookup').
  { apply Forall_forall. intros hit Hhit.
    destruct (Hdecoded hit Hhit) as (doc & _ & Hdoc).
    destruct (textOf showNumber
                (getProperty _pageContentLC (default ∅ (hitMetadata hit))))
      as [text|e] eqn:Htext; [by exists text|].
    apply toScoredDocument_rejected in Htext. congruence. }
  exists results. split_and!; [done..|].
  apply Forall_lookup. intros i [document s] Hi.
  assert (i < length hits) as Hlt.
  { apply lookup_lt_Some in Hi. lia. }
  destruct (lookup_lt_is_Some_2 hits i Hlt) as [hit Hhit].
  destruct (Hlookup' i hit Hhit) as (document' & Hresult & Hdoc').
  destruct (Hdecoded hit) as (doc & Hdoc & Hdoc''); [by eapply list_elem_of_lookup_2|].
  rewrite Hresult in Hi. injection Hi as <- <-.
  rewrite Hdoc'' in Hdoc'. injection Hdoc' as <-. done.
Qed.

(** X6. Add documents that do not use the reserved key to an index that had
    no vectors, then search. If every hit of the answer carries the
    metadata of a vector the index was given, every document the search
    returns is one of the documents that were added, text and metadata
    intact, and there is one result per hit. *)
Theorem search_after_addVectors_returns_added_documents
    chunkSize vectors documents options w query k filterExpression hits :
  0 < chunkSize →
  length vectors ≤ length documents →
  Forall (λ doc, metadata doc !! _pageContentLC = None) documents →
  upsertedVectors (calls w) = [] →
  let added := (addVectorsWith caller index uuid_v4 chunkSize vectors documents
                  options w).2 in
  index_query index (calls added) (queryArgs query k filterExpression None)
  = Resolved hits →
  Forall (λ hit, ∃ uv, uv ∈ upsertedVectors (calls added)
                       ∧ hitMetadata hit = Some (vectorMetadata uv)) hits →
  ∃ results,
    (similaritySearchVectorWithScore showNumber index query k filterExpression
       added).1
    = Resolved results
    ∧ length results = length hits
    ∧ Forall (λ result, result.1 ∈ documents) results.
Proof. intros ???? added ??. by apply search_returns_added. Qed.

End StoreRoundTrip.

(** The cat and the dog on an index that keeps what it is given. *)
Lemma search_after_addVectors_returns_added_documents_witness :
  ∃ results,
    (similaritySearchVectorWithScore Samples.showZ MoreSamples.storingIndex
       [1; 0]%Z 1 None
       (addVectors Samples.retryingCaller MoreSamples.storingIndex
          Samples.sampleUuid
          [[1; 0]; [0; 1]]%Z [Samples.catDocument; Samples.dogDocument] None
          Samples.freshWorld).2).1
    = Resolved results
    ∧ length results = 2
    ∧ Forall (λ result, result.1 ∈ [Samples.catDocument; Samples.dogDocument])
             results.
Proof.
  apply (search_after_addVectors_returns_added_documents
           Samples.showZ Samples.retryingCaller
           MoreSamples.storingIndex Samples.sampleUuid CONCURRENT_UPSERT_LIMIT
           [[1; 0]; [0; 1]]%Z [Samples.catDocument; Samples.dogDocument] None
           Samples.freshWorld [1; 0]%Z 1 None
           [ {| hitId := "uuid-0"; score := 1%Z;
                hitMetadata := Some (encodeMetadata Samples.catDocument) |};
             {| hitId := "uuid-1"; score := 1%Z;
                hitMetadata := Some (encodeMetadata Samples.dogDocument) |} ]).
  - unfold CONCURRENT_UPSERT_LIMIT. lia.
  - simpl. lia.
  - repeat constructor.
  - reflexivity.
  - reflexivity.
  - constructor; [|constructor; [|constructor]].
    + eexists. split; [apply list_elem_of_here|reflexivity].
    + eexists. split; [apply list_elem_of_further, list_elem_of_here|reflexivity].
Defined.

(** ** RedisByteStore: prefixes, namespaces and yieldKeys *)
Section RedisNamespaces.

Import IoRedis RedisStore.

Lemma append_length (a b : string) :
  String.length (a +:+ b) = String.length a + String.length b.
Proof. induction a as [|c a IH]; [done|]. simpl. f_equal. exact IH. Qed.

(** A string is what [slice] drops followed by what it keeps. *)
Lemma slice_split (n : nat) (s : string) :
  ∃ dropped, s = dropped +:+ slice n s
             ∧ String.length dropped = n `min` String.length s.
Proof.
  revert s. induction n as [|n IH]; intros s.
  - by exists "".
  - destruct s as [|c s]; [by exists ""|].
    destruct (IH s) as (dropped & Hs & Hlen).
    exists (String c dropped). split.
    + change (String c s = String c (dropped +:+ slice n s)). by rewrite <- Hs.
    + simpl. f_equal. exact Hlen.
Qed.

Lemma endsWith_spec (s suffix : string) :
  endsWith s suffix = true ↔ ∃ start, s = start +:+ suffix.
Proof.
  unfold endsWith. rewrite andb_true_iff, Nat.leb_le, String.eqb_eq. split.
  - intros [_ Hslice].
    destruct (slice_split (String.length s - String.length suffix) s)
      as (start & Hs & _).
    exists start. by rewrite Hslice in Hs.
  - intros [start ->]. rewrite append_length. split; [lia|].
    replace (String.length start + String.length suffix - String.length suffix)
      with (String.length start) by lia.
    apply slice_append.
Qed.

Lemma getPrefixedKey_with_namespace (this : RedisByteStore) ns key :
  namespace this = Some ns → ns ≠ "" →
  _getPrefixedKey this key = ns +:+ delimiter +:+ key.
Proof.
  intros Hns Hne. unfold _getPrefixedKey. rewrite Hns. simpl.
  by destruct (String.eqb_spec ns "").
Qed.

Lemma delimiter_free_prefix_inj (ns1 ns2 key1 key2 : string) :
  hasDelimiter ns1 = false → hasDelimiter ns2 = false →
  ns1 +:+ delimiter +:+ key1 = ns2 +:+ delimiter +:+ key2 →
  ns1 = ns2 ∧ key1 = key2.
Proof.
  revert ns2. induction ns1 as [|c1 ns1 IH]; intros [|c2 ns2] Hfree1 Hfree2 Heq;
    cbv [String.append delimiter] in Heq.
  - by injection Heq as ->.
  - injection Heq as <- _. done.
  - injection Heq as -> _. done.
  - injection Heq as -> Heq.
    simpl in Hfree1, Hfree2.
    apply orb_false_iff in Hfree1 as [_ Hfree1].
    apply orb_false_iff in Hfree2 as [_ Hfree2].
    destruct (IH ns2 Hfree1 Hfree2 Heq) as [-> ->]. done.
Qed.

(** X7. Two stores whose namespaces are non-empty and contain no "/" never
    address the same Redis key unless they have the same namespace and are
    given the same key: distinct namespaces keep their keys apart. *)
Theorem namespaces_without_delimiter_are_disjoint
    (store1 store2 : RedisByteStore) ns1 ns2 key1 key2 :
  namespace store1 = Some ns1 → namespace store2 = Some ns2 →
  ns1 ≠ "" → ns2 ≠ "" →
  hasDelimiter ns1 = false → hasDelimiter ns2 = false →
  _getPrefixedKey store1 key1 = _getPrefixedKey store2 key2 →
  ns1 = ns2 ∧ key1 = key2.
Proof.
  intros Hns1 Hns2 Hne1 Hne2 Hfree1 Hfree2.
  rewrite (getPrefixedKey_with_namespace store1 ns1) by done.
  rewrite (getPrefixedKey_with_namespace store2 ns2) by done.
  by apply delimiter_free_prefix_inj.
Qed.

(** X8. _getDeprefixedKey does not look at what it removes. With a
    non-empty namespace it cuts as many units off the front of the key as
    the namespace and the delimiter have, whatever they are, and gives the
    empty string for a shorter key; without a namespace, or with an empty
    one, it returns the key. *)
Theorem getDeprefixedKey_cuts_fixed_length (this : RedisByteStore) (key : string) :
  (∀ ns, namespace this = Some ns → ns ≠ "" →
     ∃ cut, key = cut +:+ _getDeprefixedKey this key
            ∧ String.length cut = (String.length ns + 1) `min` String.length key)
  ∧ (truthyString (namespace this) = false → _getDeprefixedKey this key = key).
Proof.
  split.
  - intros ns Hns Hne. unfold _getDeprefixedKey. rewrite Hns. simpl.
    destruct (String.eqb_spec ns ""); [done|]. simpl.
    apply slice_split.
  - intros Hfalsy. unfold _getDeprefixedKey. by rewrite Hfalsy.
Qed.

(** X9. The MATCH pattern of yieldKeys is a prefixed key that ends with one
    "*": the prefix followed by "*", the prefix itself when it already ends
    with "*", and "*" alone when no prefix, or the empty one, is given. *)
Theorem scanPattern_ends_with_wildcard (this : RedisByteStore) (prefix : option string) :
  ∃ stem,
    scanPattern this prefix = _getPrefixedKey this (stem +:+ "*")
    ∧ (truthyString prefix = false → stem = "")
    ∧ (∀ p, prefix = Some p → p ≠ "" → endsWith p "*" = false → stem = p)
    ∧ (∀ p, prefix = Some p → p ≠ "" → endsWith p "*" = true → stem +:+ "*" = p).
Proof.
  unfold scanPattern.
  destruct prefix as [p|]; simpl; [|by exists ""].
  destruct (String.eqb_spec p "") as [->|Hne]; simpl.
  { exists "". split_and!; [done|done|by intros ? [= <-] ?..]. }
  destruct (endsWith p "*") eqn:Hends.
  - destruct (proj1 (endsWith_spec p "*") Hends) as [stem Hstem].
    exists stem. split_and!; [by rewrite Hstem | done | |].
    + intros ? [= <-] _ Hnot. by rewrite Hends in Hnot.
    + by intros ? [= <-] _ _.
  - exists p. split_and!; [done | done | |].
    + by intros ? [= <-] _ _.
    + intros ? [= <-] _ Hyes. by rewrite Hends in Hyes.
Qed.

Lemma deprefix_prefix (this : RedisByteStore) (key : string) :
  _getDeprefixedKey this (_getPrefixedKey this key) = key.
Proof.
  unfold _getDeprefixedKey, _getPrefixedKey.
  destruct (truthyString (namespace this)); [|done].
  rewrite slice_add, slice_append.
  apply (slice_append delimiter key).
Qed.

Section YieldKeys.

Variable client_scan : nat → ScanCall → Settled (string * list string).
Variable this : RedisByteStore.

Lemma scanFrom_keys fuel issued cursor pattern :
  (scanFrom client_scan this fuel issued cursor pattern).1.1
  = _getDeprefixedKey this
    <$> concat (imap (λ i, batchOf client_scan (issued + i))
                     (scanFrom client_scan this fuel issued cursor pattern).1.2).
Proof.
  revert issued cursor. induction fuel as [|fuel IH]; intros issued cursor; [done|].
  cbn [scanFrom].
  destruct (client_scan issued _) as [[next batch]|e] eqn:Hscan.
  - destruct (String.eqb next "0").
    + cbn [fst snd imap concat]. unfold batchOf at 1.
      rewrite Nat.add_0_r, Hscan. by rewrite app_nil_r.
    + specialize (IH (S issued) next).
      destruct (scanFrom client_scan this fuel (S issued) next pattern)
        as [[keys scans] ending].
      cbn [fst snd imap concat] in *. unfold batchOf at 1.
      rewrite Nat.add_0_r, Hscan, fmap_app, IH.
      do 3 f_equal. apply imap_ext. intros i call _. simpl.
      by replace (issued + S i) with (S issued + i) by lia.
  - cbn [fst snd imap concat]. unfold batchOf at 1.
    by rewrite Nat.add_0_r, Hscan.
Qed.

Lemma scanFrom_scans fuel issued cursor pattern :
  Forall (λ call, scanMatch call = pattern
                  ∧ scanCount call = yieldKeysScanBatchSize this)
         (scanFrom client_scan this fuel issued cursor pattern).1.2
  ∧ length (scanFrom client_scan this fuel issued cursor pattern).1.2 ≤ fuel
  ∧ (0 < fuel →
     scanCursor <$> head (scanFrom client_scan this fuel issued cursor pattern).1.2
     = Some cursor).
Proof.
  revert issued cursor. induction fuel as [|fuel IH]; intros issued cursor.
  - split_and!; [constructor | done | lia].
  - cbn [scanFrom].
    destruct (client_scan issued _) as [[next batch]|e].
    + destruct (String.eqb next "0").
      * split_and!; [by repeat constructor | simpl; lia | done].
      * destruct (IH (S issued) next) as (Hall & Hlen & _).
        destruct (scanFrom client_scan this fuel (S issued) next pattern)
          as [[keys scans] ending].
        cbn [fst snd] in *.
        split_and!; [by constructor | simpl; lia | done].
    + split_and!; [by repeat constructor | simpl; lia | done].
Qed.

(** X10. However many scans the consumer lets yieldKeys make, the keys it
    has yielded are the keys of all the batches the client returned, each
    with the prefix cut off, in the order of the batches and of the keys in
    them, repeated keys included. Every scan carries the same MATCH pattern
    and the configured COUNT, and the first one starts at cursor 0. *)
Theorem yieldKeys_yields_every_scanned_key fuel prefix :
  let run := yieldKeys client_scan this fuel prefix in
  run.1.1 = _getDeprefixedKey this <$> concat (imap (batchOf client_scan) run.1.2)
  ∧ Forall (λ call, scanMatch call = scanPattern this prefix
                    ∧ scanCount call = yieldKeysScanBatchSize this) run.1.2
  ∧ length run.1.2 ≤ fuel
  ∧ (0 < fuel → scanCursor <$> head run.1.2 = Some "0").
Proof.
  intros run. subst run. unfold yieldKeys.
  split; [apply scanFrom_keys | apply scanFrom_scans].
Qed.

Lemma prefix_deprefix_batch (batch : list string) :
  Forall (λ key, ∃ k, key = _getPrefixedKey this k) batch →
  _getPrefixedKey this <$> (_getDeprefixedKey this <$> batch) = batch.
Proof.
  induction 1 as [|key batch [k ->] _ IH]; [done|].
  rewrite !fmap_cons, deprefix_prefix, IH. done.
Qed.

Lemma batchOf_prefixed n call :
  (∀ n call next batch,
     client_scan n call = Resolved (next, batch) →
     Forall (λ key, ∃ k, key = _getPrefixedKey this k) batch) →
  Forall (λ key, ∃ k, key = _getPrefixedKey this k) (batchOf client_scan n call).
Proof.
  intros Hprefixed. unfold batchOf.
  destruct (client_scan n call) as [[next batch]|e] eqn:Hscan; [|constructor].
  by eapply Hprefixed.
Qed.

Lemma yielded_keys_prefixed fuel prefix :
  (∀ n call next batch,
     client_scan n call = Resolved (next, batch) →
     Forall (λ key, ∃ k, key = _getPrefixedKey this k) batch) →
  _getPrefixedKey this <$> (yieldKeys client_scan this fuel prefix).1.1
  = concat (imap (batchOf client_scan) (yieldKeys client_scan this fuel prefix).1.2).
Proof.
  intros Hprefixed. unfold yieldKeys. rewrite scanFrom_keys.
  apply prefix_deprefix_batch.
  apply Forall_concat.
  apply Forall_forall. intros batch Hbatch.
  apply elem_of_lookup_imap_1 in Hbatch as (i & call & -> & _).
  by apply batchOf_prefixed.
Qed.

(** X11. When the client only returns keys that carry the prefix of the
    store, the keys yielded by yieldKeys, prefixed again as mget, mset and
    mdelete prefix them, are exactly the Redis keys that were scanned, in
    order. *)
Theorem yieldKeys_keys_address_scanned_keys fuel prefix :
  (∀ n call next batch,
     client_scan n call = Resolved (next, batch) →
     Forall (λ key, ∃ k, key = _getPrefixedKey this k) batch) →
  let run := yieldKeys client_scan this fuel prefix in
  _getPrefixedKey this <$> run.1.1 = concat (imap (batchOf client_scan) run.1.2).
Proof. intros Hprefixed run. by apply yielded_keys_prefixed. Qed.

Lemma scanFrom_more_fuel fuel more issued cursor pattern :
  (∀ next, (scanFrom client_scan this fuel issued cursor pattern).2 ≠ Suspended next) →
  scanFrom client_scan this (fuel + more) issued cursor pattern
  = scanFrom client_scan this fuel issued cursor pattern.
Proof.
  revert issued cursor. induction fuel as [|fuel IH]; intros issued cursor Hended.
  - by destruct (Hended cursor).
  - cbn [scanFrom Nat.add] in *.
    destruct (client_scan issued _) as [[next batch]|e]; [|done].
    destruct (String.eqb next "0"); [done|].
    rewrite IH; [done|].
    intros next'. specialize (Hended next').
    by destruct (scanFrom client_scan this fuel (S issued) next pattern) as [[??]?].
Qed.

(** X12. Once yieldKeys has run to its end, because a scan returned the
    cursor "0" or because a scan failed, letting it make more scans changes
    nothing: it makes no further scan and yields no further key. *)
Theorem yieldKeys_stops_at_cursor_zero fuel more prefix :
  (∀ next, (yieldKeys client_scan this fuel prefix).2 ≠ Suspended next) →
  yieldKeys client_scan this (fuel + more) prefix
  = yieldKeys client_scan this fuel prefix.
Proof. intros Hended. by apply scanFrom_more_fuel. Qed.

End YieldKeys.

End RedisNamespaces.

(** Two stores with the namespace "cache". *)
Lemma namespaces_without_delimiter_are_disjoint_witness :
  IoRedis._getPrefixedKey MoreSamples.cacheStore "k" = "cache/k"
  ∧ ("cache" = "cache" ∧ "k" = "k").
Proof.
  split; [reflexivity|].
  apply (namespaces_without_delimiter_are_disjoint
           MoreSamples.cacheStore MoreSamples.cacheStore "cache" "cache" "k" "k");
    [reflexivity | reflexivity | discriminate | discriminate
     | reflexivity | reflexivity | reflexivity].
Defined.

Lemma twoBatches_prefixed n call next batch :
  MoreSamples.twoBatches n call = Resolved (next, batch) →
  Forall (λ key, ∃ k, key = IoRedis._getPrefixedKey MoreSamples.cacheStore k) batch.
Proof.
  destruct n as [|[|n]]; intros [= <- <-].
  - constructor; [by exists "a"|]. constructor; [by exists "b"|]. constructor.
  - constructor; [by exists "c"|]. constructor.
  - constructor.
Qed.

(** Two batches, three keys. *)
Lemma yieldKeys_keys_address_scanned_keys_witness :
  (RedisStore.yieldKeys MoreSamples.twoBatches MoreSamples.cacheStore 5 None).1.1
  = ["a"; "b"; "c"]
  ∧ IoRedis._getPrefixedKey MoreSamples.cacheStore
    <$> (RedisStore.yieldKeys MoreSamples.twoBatches MoreSamples.cacheStore 5 None).1.1
    = ["cache/a"; "cache/b"; "cache/c"].
Proof.
  split; [reflexivity|].
  apply (yieldKeys_keys_address_scanned_keys
           MoreSamples.twoBatches MoreSamples.cacheStore 5 None).
  exact twoBatches_prefixed.
Defined.

(** The scan ends with the second batch: two scans or twenty, the same run. *)
Lemma yieldKeys_stops_at_cursor_zero_witness :
  RedisStore.yieldKeys MoreSamples.twoBatches MoreSamples.cacheStore (2 + 18) None
  = RedisStore.yieldKeys MoreSamples.twoBatches MoreSamples.cacheStore 2 None.
Proof.
  apply (yieldKeys_stops_at_cursor_zero
           MoreSamples.twoBatches MoreSamples.cacheStore 2 18 None).
  intros next. discriminate.
Defined.

(** ** PostgresChatMessageHistory: the methods *)
Section PostgresMethods.

Import Postgres PostgresHistory.

Context {number Pool PoolConfig Message : Type}.
Variable pool_query :
  list (Query number) → Query number → Outcome (list (gmap string (JsValue number))).
Variable toStoredMessage : Message → StoredMessage number.
Variable mapStoredMessagesToChatMessages : list (StoredMessage number) → list Message.

Implicit Types (s : Session number Pool PoolConfig) (c : Call Message).

Lemma storedOfRow_rowOfStored (stored : StoredMessage number) :
  storedOfRow (rowOfStored stored)
  = {| type := type stored; data := delete "type" (data stored) |}.
Proof.
  unfold storedOfRow, rowOfStored, getProperty.
  by rewrite lookup_insert_eq, delete_insert_eq.
Qed.

(** X13. The JSON object addMessage binds to its query, read back the way
    getMessages reads a row, gives the stored message again when its data
    has no "type" key. In every case the type read back is the type of the
    message: a "type" key of the data is overwritten on the way in and is
    missing from the data on the way out. *)
Theorem stored_message_row_round_trip (stored : StoredMessage number) :
  data stored !! "type" = None →
  storedOfRow (rowOfStored stored) = stored
  ∧ ∀ other : StoredMessage number,
      type (storedOfRow (rowOfStored other)) = type other
      ∧ data (storedOfRow (rowOfStored other)) = delete "type" (data other).
Proof.
  intros Hnone.
  assert (∀ other : StoredMessage number,
            type (storedOfRow (rowOfStored other)) = type other
            ∧ data (storedOfRow (rowOfStored other)) = delete "type" (data other))
    as Hgeneral.
  { intros other. unfold storedOfRow, rowOfStored, getProperty. simpl.
    by rewrite lookup_insert_eq, delete_insert_eq. }
  split; [|done].
  destruct (Hgeneral stored) as [Htype Hdata].
  destruct stored as [t d]; simpl in *.
  unfold storedOfRow, rowOfStored in *; simpl in *.
  f_equal; [done|]. rewrite Hdata. by apply delete_id.
Qed.

Lemma ensureTable_initialized s :
  initialized (this s) = true →
  ensureTable pool_query s = (Done (), s).
Proof. unfold ensureTable. by intros ->. Qed.

Lemma ensureTable_rethrows s e :
  initialized (this s) = false →
  pool_query (queries s) (createQuery (this s)) = Failed e →
  mustRethrow e = true →
  ensureTable pool_query s
  = (Failed e, {| this := this s; queries := queries s ++ [createQuery (this s)] |}).
Proof.
  intros Hinit Hreply Hrethrow. unfold ensureTable, query.
  by rewrite Hinit, Hreply, Hrethrow.
Qed.

Lemma ensureTable_creates s :
  initialized (this s) = false →
  (∀ e, pool_query (queries s) (createQuery (this s)) = Failed e → mustRethrow e = false) →
  ensureTable pool_query s
  = (Done (), markInitialized
                {| this := this s; queries := queries s ++ [createQuery (this s)] |}).
Proof.
  intros Hinit Hswallowed. unfold ensureTable, query. rewrite Hinit.
  destruct (pool_query _ _) as [rows|e] eqn:Hreply; [done|].
  by rewrite (Hswallowed e).
Qed.

(** What a call does once ensureTable has let it through in session [s1]. *)
Lemma call_after_ensureTable c s s1 :
  ensureTable pool_query s = (Done (), s1) →
  call pool_query toStoredMessage mapStoredMessagesToChatMessages c s
  = {| this := this s1; queries := queries s1 ++ [queryOf toStoredMessage (this s1) c] |}.
Proof.
  intros Hensure.
  destruct c; unfold call, addMessage, getMessages, clear, andThen, query, queryOf;
    rewrite Hensure; simpl; by destruct (pool_query _ _).
Qed.

Lemma call_initialized c s :
  initialized (this s) = true →
  call pool_query toStoredMessage mapStoredMessagesToChatMessages c s
  = {| this := this s; queries := queries s ++ [queryOf toStoredMessage (this s) c] |}.
Proof. intros Hinit. apply call_after_ensureTable. by apply ensureTable_initialized. Qed.

Lemma callAll_initialized cs s :
  initialized (this s) = true →
  callAll pool_query toStoredMessage mapStoredMessagesToChatMessages cs s
  = {| this := this s;
       queries := queries s ++ (queryOf toStoredMessage (this s) <$> cs) |}.
Proof.
  revert s. induction cs as [|c cs IH]; intros s Hinit.
  - simpl. rewrite app_nil_r. by destruct s.
  - unfold callAll in *. cbn [foldl]. rewrite call_initialized by done.
    rewrite IH by done. simpl. by rewrite <- app_assoc.
Qed.

Lemma statement_is_not_create (tableName : string) c :
  statementOf tableName c ≠ createTableText tableName.
Proof. by destruct c. Qed.

(** X14. Once the object is initialized, any sequence of addMessage,
    getMessages and clear calls sends the pool exactly one query per call,
    in order, and never the CREATE TABLE statement again, whatever the pool
    answers. The text of each query is fixed by the table name and the
    method alone; the session id travels as the first bound parameter and
    the message as the second, never inside the text. The object stays
    initialized. *)
Theorem initialized_session_sends_one_query_per_call cs s :
  initialized (this s) = true →
  let after := callAll pool_query toStoredMessage mapStoredMessagesToChatMessages cs s in
  this after = this s
  ∧ queries after = queries s ++ (queryOf toStoredMessage (this s) <$> cs)
  ∧ Forall (λ q, text q ≠ createTableText (this_tableName (this s))
                 ∧ head (values q) = Some (TextValue (this_sessionId (this s))))
           (queryOf toStoredMessage (this s) <$> cs).
Proof.
  intros Hinit after. subst after. rewrite callAll_initialized by done.
  split_and!; [done|done|].
  apply Forall_fmap, Forall_true. intros c. simpl.
  split; [apply statement_is_not_create|done].
Qed.

(** X15. On an object that is not initialized, when CREATE TABLE fails with
    an error that has no code or a code other than "23505", addMessage,
    getMessages and clear fail with that very error, the query of the
    method is not sent, and the object stays uninitialized, so that the next
    call tries CREATE TABLE again. *)
Theorem create_table_failure_aborts_the_call s e :
  initialized (this s) = false →
  pool_query (queries s) (createQuery (this s)) = Failed e →
  mustRethrow e = true →
  let stopped := {| this := this s; queries := queries s ++ [createQuery (this s)] |} in
  (∀ message, addMessage pool_query toStoredMessage message s = (Failed e, stopped))
  ∧ getMessages pool_query mapStoredMessagesToChatMessages s = (Failed e, stopped)
  ∧ clear pool_query s = (Failed e, stopped)
  ∧ initialized (this stopped) = false.
Proof.
  intros Hinit Hreply Hrethrow stopped.
  pose proof (ensureTable_rethrows s e Hinit Hreply Hrethrow) as Hensure.
  unfold addMessage, getMessages, clear, andThen. rewrite Hensure.
  by split_and!.
Qed.

(** X16. On an object that is not initialized, when CREATE TABLE succeeds,
    or fails with the code "23505", a call of addMessage, getMessages or
    clear sends CREATE TABLE and then its own query, and leaves the object
    initialized: the error "23505" is swallowed. *)
Theorem first_call_creates_the_table c s :
  initialized (this s) = false →
  (∀ e, pool_query (queries s) (createQuery (this s)) = Failed e →
        code e = Some "23505") →
  let after := call pool_query toStoredMessage mapStoredMessagesToChatMessages c s in
  initialized (this after) = true
  ∧ queries after = queries s ++ [createQuery (this s); queryOf toStoredMessage (this s) c].
Proof.
  intros Hinit Hcode after. subst after.
  assert (∀ e, pool_query (queries s) (createQuery (this s)) = Failed e →
               mustRethrow e = false) as Hswallowed.
  { intros e He. unfold mustRethrow. by rewrite (Hcode e He). }
  rewrite (call_after_ensureTable c s _ (ensureTable_creates s Hinit Hswallowed)).
  simpl. split; [done|]. by rewrite <- app_assoc.
Qed.

Lemma boundObjects_app (log1 log2 : list (Query number)) :
  boundObjects (log1 ++ log2) = boundObjects log1 ++ boundObjects log2.
Proof. unfold boundObjects. apply bind_app. Qed.

Lemma boundObjects_added (h : PostgresChatMessageHistory Pool PoolConfig)
    (messages : list Message) :
  boundObjects (queryOf toStoredMessage h <$> (CallAddMessage <$> messages))
  = (rowOfStored ∘ toStoredMessage) <$> messages.
Proof.
  induction messages as [|m messages IH]; [done|].
  rewrite !fmap_cons. unfold boundObjects in *. rewrite bind_cons, IH. done.
Qed.

Lemma getMessages_reads_back s messages :
  initialized (this s) = true →
  Forall (λ m, data (toStoredMessage m) !! "type" = None) messages →
  boundObjects (queries s) = [] →
  pool_query
    (queries (callAll pool_query toStoredMessage mapStoredMessagesToChatMessages
                (CallAddMessage <$> messages) s))
    (queryOf toStoredMessage (this s) CallGetMessages)
  = Done (boundObjects
            (queries (callAll pool_query toStoredMessage
                        mapStoredMessagesToChatMessages
                        (CallAddMessage <$> messages) s))) →
  (getMessages pool_query mapStoredMessagesToChatMessages
     (callAll pool_query toStoredMessage mapStoredMessagesToChatMessages
        (CallAddMessage <$> messages) s)).1
  = Done (mapStoredMessagesToChatMessages (toStoredMessage <$> messages)).
Proof.
  intros Hinit Hdata Hempty. rewrite callAll_initialized by done.
  cbn [queries]. rewrite boundObjects_app, Hempty, boundObjects_added. simpl.
  intros Hreply.
  unfold getMessages, andThen. rewrite ensureTable_initialized by done.
  unfold query. cbn [queries this fst snd].
  match goal with
  | |- context [pool_query ?log ?q] =>
      assert (pool_query log q
              = Done ((rowOfStored ∘ toStoredMessage) <$> messages)) as ->
        by exact Hreply
  end.
  simpl. do 2 f_equal. rewrite <- list_fmap_compose.
  apply Forall_fmap_ext_1. eapply Forall_impl; [exact Hdata|].
  intros m Hnone. simpl in Hnone |- *. rewrite storedOfRow_rowOfStored.
  destruct (toStoredMessage m) as [t d]; simpl in *. f_equal. by apply delete_id.
Qed.

(** X17. Add messages whose data has no "type" key to an initialized
    history with no message yet, then call getMessages. If the pool answers
    the SELECT with the JSON objects it was given, in the order it was given
    them, getMessages returns exactly the messages that were added, in the
    order they were added. *)
Theorem getMessages_returns_added_messages s messages :
  initialized (this s) = true →
  Forall (λ m, data (toStoredMessage m) !! "type" = None) messages →
  boundObjects (queries s) = [] →
  let after := callAll pool_query toStoredMessage mapStoredMessagesToChatMessages
                 (CallAddMessage <$> messages) s in
  pool_query (queries after) (queryOf toStoredMessage (this s) CallGetMessages)
  = Done (boundObjects (queries after)) →
  (getMessages pool_query mapStoredMessagesToChatMessages after).1
  = Done (mapStoredMessagesToChatMessages (toStoredMessage <$> messages)).
Proof. intros ??? after ?. by apply getMessages_reads_back. Qed.

End PostgresMethods.

(** A human message, stored and read back. *)
Lemma stored_message_row_round_trip_witness :
  PostgresHistory.storedOfRow (PostgresHistory.rowOfStored MoreSamples.humanMessage)
  = MoreSamples.humanMessage.
Proof.
  apply (stored_message_row_round_trip MoreSamples.humanMessage). reflexivity.
Defined.

(** Two messages added, read and cleared on an initialized history: four
    queries, none of them CREATE TABLE. *)
Lemma initialized_session_sends_one_query_per_call_witness :
  length
    (PostgresHistory.queries
       (PostgresHistory.callAll MoreSamples.downPool (λ m, m) (λ ms, ms)
          [PostgresHistory.CallAddMessage MoreSamples.humanMessage;
           PostgresHistory.CallAddMessage MoreSamples.aiMessage;
           PostgresHistory.CallGetMessages;
           PostgresHistory.CallClear]
          MoreSamples.readyHistory))
  = 4.
Proof.
  destruct (initialized_session_sends_one_query_per_call
              MoreSamples.downPool (λ m, m) (λ ms, ms)
              [PostgresHistory.CallAddMessage MoreSamples.humanMessage;
               PostgresHistory.CallAddMessage MoreSamples.aiMessage;
               PostgresHistory.CallGetMessages;
               PostgresHistory.CallClear]
              MoreSamples.readyHistory eq_refl)
    as (_ & Hqueries & _).
  rewrite Hqueries. reflexivity.
Defined.

(** The pool is down: only CREATE TABLE is sent. *)
Lemma create_table_failure_aborts_the_call_witness :
  PostgresHistory.queries
    (PostgresHistory.clear MoreSamples.downPool MoreSamples.freshHistory).2
  = [PostgresHistory.createQuery (PostgresHistory.this MoreSamples.freshHistory)].
Proof.
  destruct (create_table_failure_aborts_the_call
              (Message := PostgresHistory.StoredMessage Z)
              MoreSamples.downPool (λ m, m) (λ ms, ms) MoreSamples.freshHistory
              {| PostgresHistory.code := Some "08006";
                 PostgresHistory.detail := "connection failure" |}
              eq_refl eq_refl eq_refl)
    as (_ & _ & Hclear & _).
  rewrite Hclear. reflexivity.
Defined.

(** Another client created the table first: the error 23505 is swallowed
    and the message is inserted. *)
Lemma first_call_creates_the_table_witness :
  Postgres.initialized
    (PostgresHistory.this
       (PostgresHistory.call MoreSamples.racedPool (λ m, m) (λ ms, ms)
          (PostgresHistory.CallAddMessage MoreSamples.humanMessage)
          MoreSamples.freshHistory))
  = true.
Proof.
  apply (first_call_creates_the_table
           MoreSamples.racedPool (λ m, m) (λ ms, ms)
           (PostgresHistory.CallAddMessage MoreSamples.humanMessage)
           MoreSamples.freshHistory eq_refl).
  intros e [= <-]. reflexivity.
Defined.

(** Two messages on a pool that returns what it was given. *)
Lemma getMessages_returns_added_messages_witness :
  (PostgresHistory.getMessages MoreSamples.storingPool (λ ms, ms)
     (PostgresHistory.callAll MoreSamples.storingPool (λ m, m) (λ ms, ms)
        [PostgresHistory.CallAddMessage MoreSamples.humanMessage;
         PostgresHistory.CallAddMessage MoreSamples.aiMessage]
        MoreSamples.readyHistory)).1
  = PostgresHistory.Done [MoreSamples.humanMessage; MoreSamples.aiMessage].
Proof.
  apply (getMessages_returns_added_messages
           MoreSamples.storingPool (λ m, m) (λ ms, ms) MoreSamples.readyHistory
           [MoreSamples.humanMessage; MoreSamples.aiMessage]).
  - reflexivity.
  - repeat constructor.
  - reflexivity.
  - reflexivity.
Defined.

(** ** VectaraStore: queries *)
Section VectaraQueries.

Import Vectara.

Context {number : Type}.
Variable isNaN : number → bool.
Variable isZero : number → bool.
Variable literal : Z → number.
Variable showNumber : number → string.
Variable service : @Service number.

Implicit Types (this : @VectaraStore number) (w : @World number).

Lemma assignItems_lookup (items : list (@MetadataItem number)) :
  ∀ (combined : gmap string (JsValue number)) key,
    assignItems items combined !! key
    = match lastValue key items with
      | Some v => Some v
      | None => combined !! key
      end.
Proof.
  induction items as [|item items IH]; intros combined key; [done|].
  unfold assignItems in *. cbn [foldl lastValue]. rewrite IH.
  destruct (lastValue key items); [done|].
  case_decide as Hname.
  - by rewrite <- Hname, lookup_insert_eq.
  - by rewrite lookup_insert_ne.
Qed.

(** X18. In the documents built by vectaraQuery, a metadata name has the
    value of the last entry of that name in the metadata of the document of
    the response, if there is one, and otherwise of the last entry of that
    name in the metadata of the response itself: document-level metadata
    overrides response-level metadata, and a later entry an earlier one. *)
Theorem vectara_document_metadata_overrides_response_metadata
    (documents : list (list (@MetadataItem number))) (r : @QueryResponse number)
    documentMetadata :
  documents !! documentIndex r = Some documentMetadata →
  ∃ combined,
    combineMetadata documents r = Returned (responseText r, combined, responseScore r)
    ∧ ∀ key,
        combined !! key
        = match lastValue key documentMetadata with
          | Some v => Some v
          | None => lastValue key (responseMetadata r)
          end.
Proof.
  intros Hdocument. unfold combineMetadata. rewrite Hdocument.
  eexists. split; [done|]. intros key.
  rewrite !assignItems_lookup, lookup_empty.
  destruct (lastValue key documentMetadata); [done|].
  by destruct (lastValue key (responseMetadata r)).
Qed.

Lemma forEachResult_returned {A B} (body : A → Result B) (items : list A) :
  Forall (λ item, isThrown (body item) = false) items →
  ∃ results,
    forEachResult body items = Returned results
    ∧ length results = length items
    ∧ ∀ i item, items !! i = Some item → Returned <$> results !! i = Some (body item).
Proof.
  induction 1 as [|item items Hitem _ (results & Hall & Hlen & Hlookup)].
  - exists []. by split_and!.
  - destruct (body item) as [b|] eqn:Hbody; [|done].
    exists (b :: results). cbn [forEachResult]. rewrite Hbody, Hall.
    split_and!; [done | simpl; by rewrite Hlen |].
    intros [|i] item' Hi.
    + injection Hi as <-. by rewrite Hbody.
    + by apply Hlookup.
Qed.

Lemma summaryResultOf_returned (set : @ResponseSet number) :
  Forall (λ r, documentIndex r < length (document set)) (response set) →
  ∃ result,
    summaryResultOf set = Returned result
    ∧ length (documents result) = length (response set)
    ∧ length (scores result) = length (response set)
    ∧ ∀ i r, response set !! i = Some r →
        ∃ combined,
          combineMetadata (document set) r
          = Returned (responseText r, combined, responseScore r)
          ∧ documents result !! i
            = Some {| pageContent := responseText r; metadata := combined |}
          ∧ scores result !! i = Some (responseScore r).
Proof.
  intros Hindices.
  destruct (forEachResult_returned (combineMetadata (document set)) (response set))
    as (results & Hall & Hlen & Hlookup).
  { eapply Forall_impl; [exact Hindices|]. intros r Hr. simpl in Hr.
    unfold combineMetadata.
    by destruct (lookup_lt_is_Some_2 (document set) (documentIndex r) Hr) as [? ->]. }
  unfold summaryResultOf. rewrite Hall. eexists. split; [done|]. simpl.
  rewrite !length_fmap. split_and!; [done|done|].
  intros i r Hi.
  specialize (Hlookup i r Hi).
  destruct (results !! i) as [[[text combined] score]|] eqn:Hresult; [|done].
  simpl in Hlookup. injection Hlookup as Hbody.
  assert (text = responseText r ∧ score = responseScore r) as [-> ->].
  { unfold combineMetadata in Hbody.
    destruct (document set !! documentIndex r); [|done].
    by injection Hbody as -> _ ->. }
  exists combined. rewrite !list_lookup_fmap, Hresult. by split_and!.
Qed.

Notation "'searchWithScore'" :=
  (similaritySearchWithScore isNaN isZero literal showNumber service) (only parsing).
Notation "'search'" :=
  (similaritySearch isNaN isZero literal showNumber service) (only parsing).
Notation "'requestOf' this query k filter" :=
  (QueryRequest (getJsonHeader showNumber this)
     (queryData literal this query (orTen isNaN isZero literal k)
        (default (DEFAULT_FILTER literal) filter) (defaultSummary literal)))
  (at level 10, this, query, k, filter at level 9, only parsing).

Lemma searchWithScore_returned this query k filterObject w set others :
  fetch_query service (requests w) (requestOf this query k filterObject)
  = Returned (200%Z, Returned (set :: others)) →
  Forall (λ r, documentIndex r < length (document set)) (response set) →
  ∃ results,
    (searchWithScore this query k filterObject w).1 = Returned results
    ∧ length results = length (response set)
    ∧ ∀ i r, response set !! i = Some r →
        ∃ combined,
          combineMetadata (document set) r
          = Returned (responseText r, combined, responseScore r)
          ∧ results !! i
            = Some ({| pageContent := responseText r; metadata := combined |},
                    Some (responseScore r)).
Proof.
  intros Hanswer Hindices.
  destruct (summaryResultOf_returned set Hindices)
    as (result & Hresult & Hdocs & Hscores & Hlookup).
  unfold similaritySearchWithScore, vectaraQuery. rewrite Hanswer.
  rewrite bool_decide_eq_false_2 by (intros Hne; by apply Hne).
  cbn [lookup list_lookup]. rewrite Hresult. cbn [fst].
  eexists. split; [done|]. split; [by rewrite length_imap|].
  intros i r Hi. destruct (Hlookup i r Hi) as (combined & Hbody & Hdoc & Hscore).
  exists combined. split; [done|].
  by rewrite list_lookup_imap, Hdoc, <- Hscore.
Qed.

(** X19. When the service answers a query with status 200 and a response
    set in which every response points to a document of the set,
    similaritySearchWithScore returns exactly one pair per response, in the
    order of the responses: a document with the text of the response and
    its combined metadata, and the score of the response, which is never
    undefined. *)
Theorem vectara_search_returns_each_response
    this query k filterObject w set others :
  fetch_query service (requests w) (requestOf this query k filterObject)
  = Returned (200%Z, Returned (set :: others)) →
  Forall (λ r, documentIndex r < length (document set)) (response set) →
  ∃ results,
    (searchWithScore this query k filterObject w).1 = Returned results
    ∧ length results = length (response set)
    ∧ ∀ i r, response set !! i = Some r →
        ∃ combined,
          combineMetadata (document set) r
          = Returned (responseText r, combined, responseScore r)
          ∧ results !! i
            = Some ({| pageContent := responseText r; metadata := combined |},
                    Some (responseScore r)).
Proof. apply searchWithScore_returned. Qed.

Lemma searchWithScore_world this query k filterObject w :
  (searchWithScore this query k filterObject w).2
  = sent (requestOf this query k filterObject) w.
Proof.
  unfold similaritySearchWithScore, vectaraQuery.
  destruct (fetch_query service _ _) as [[status body]|e]; [|done].
  case_bool_decide; [done|].
  destruct body as [responseSet|e]; [|done].
  destruct (responseSet !! 0) as [set|]; [|done].
  by destruct (summaryResultOf set).
Qed.

(** X20. Whatever the service answers, similaritySearchWithScore sends it
    exactly one request, a query without summary for the given text and one
    corpus key per corpus id of the store. With MMR enabled in the filter
    the number of results asked for is mmrTopK and k is ignored; otherwise
    it is k, or 10 when k is missing, zero or NaN. When no filter is given,
    DEFAULT_FILTER is used: no reranking, start 0. *)
Theorem vectara_search_sends_one_query this query k filterObject w :
  ∃ data,
    requests (searchWithScore this query k filterObject w).2
    = requests w ++ [QueryRequest (getJsonHeader showNumber this) data]
    ∧ queryText data = query
    ∧ querySummary data = None
    ∧ length (corpusKey data) = length (corpusId this)
    ∧ (∀ used, filterObject = Some used → mmrEnabled used = true →
         numResults data = mmrConfig used ≫= mmrTopK)
    ∧ (∀ used, filterObject = Some used → mmrEnabled used = false →
         numResults data = Some (orTen isNaN isZero literal k)
         ∧ rerankingConfig data = None)
    ∧ (filterObject = None →
         numResults data = Some (orTen isNaN isZero literal k)
         ∧ rerankingConfig data = None
         ∧ queryStart data = Some (literal 0))
    ∧ (k = None → orTen isNaN isZero literal k = literal 10)
    ∧ (∀ n, k = Some n → isZero n = true → orTen isNaN isZero literal k = literal 10)
    ∧ (∀ n, k = Some n → isNaN n = true → orTen isNaN isZero literal k = literal 10)
    ∧ (∀ n, k = Some n → isNaN n = false → isZero n = false →
         orTen isNaN isZero literal k = n).
Proof.
  eexists. rewrite searchWithScore_world. split; [done|].
  split_and!; try done.
  - simpl. by rewrite length_fmap.
  - intros used -> Hmmr. simpl. by rewrite Hmmr.
  - intros used -> Hmmr. simpl. by rewrite Hmmr.
  - by intros ->.
  - by intros ->.
  - intros n -> Hzero. unfold orTen, truthyNumber. rewrite Hzero.
    by rewrite orb_true_r.
  - intros n -> Hnan. unfold orTen, truthyNumber. by rewrite Hnan.
  - intros n -> Hnan Hzero. unfold orTen, truthyNumber. by rewrite Hnan, Hzero.
Qed.

Lemma orTen_idempotent k :
  orTen isNaN isZero literal (Some (orTen isNaN isZero literal k))
  = orTen isNaN isZero literal k.
Proof.
  unfold orTen. destruct k as [n|].
  - destruct (truthyNumber isNaN isZero n) eqn:Hn; [by rewrite Hn|].
    by destruct (truthyNumber isNaN isZero (literal 10)).
  - by destruct (truthyNumber isNaN isZero (literal 10)).
Qed.

Lemma search_unfold this query k filterObject w :
  search this query k filterObject w
  = match searchWithScore this query k filterObject w with
    | (Returned results, w1) => (Returned ((λ result, result.1) <$> results), w1)
    | (Thrown e, w1) => (Thrown e, w1)
    end.
Proof.
  unfold similaritySearch.
  assert (searchWithScore this query (Some (orTen isNaN isZero literal k))
            (Some (default (DEFAULT_FILTER literal) filterObject)) w
          = searchWithScore this query k filterObject w) as ->; [|done].
  unfold similaritySearchWithScore. by rewrite orTen_idempotent.
Qed.

(** X21. When the service answers a query with a status other than 200,
    similaritySearchWithScore and similaritySearch throw an error that names
    the status; the body of the answer plays no part. *)
Theorem vectara_search_status_not_200 this query k filterObject w status body :
  fetch_query service (requests w) (requestOf this query k filterObject)
  = Returned (status, body) →
  status ≠ 200%Z →
  (searchWithScore this query k filterObject w).1
  = Thrown (newError ("Vectara API returned status code " +:+ pretty status))
  ∧ (search this query k filterObject w).1
    = Thrown (newError ("Vectara API returned status code " +:+ pretty status)).
Proof.
  intros Hanswer Hstatus.
  assert ((searchWithScore this query k filterObject w).1
          = Thrown (newError ("Vectara API returned status code " +:+ pretty status)))
    as Hscore.
  { unfold similaritySearchWithScore, vectaraQuery. rewrite Hanswer.
    by rewrite bool_decide_eq_true_2. }
  split; [done|].
  rewrite search_unfold.
  destruct (searchWithScore this query k filterObject w) as [[results|e] w1];
    simpl in *; congruence.
Qed.

End VectaraQueries.

(** ** VectaraStore: adding and deleting documents *)
Section VectaraDocuments.

Import Vectara.

Context {number : Type}.
Variable showNumber : number → string.
Variable stringify : JsValue number → string.
Variable uuid_v4 : nat → string.
Variable service : @Service number.

Implicit Types (this : @VectaraStore number) (w : @World number).

(** A loop whose body sends one request each time it runs either returns
    one result per item, or stops at the first item whose body throws. *)
Lemma forEachMethod_requests {A B} (body : A → @Method number B) (items : list A) :
  (∀ item w, length (requests (body item w).2) = S (length (requests w))) →
  ∀ w,
    match (forEachMethod body items w).1 with
    | Returned results =>
        length results = length items
        ∧ length (requests (forEachMethod body items w).2)
          = length (requests w) + length items
    | Thrown e =>
        ∃ i item before wi,
          items !! i = Some item
          ∧ forEachMethod body (take i items) w = (Returned before, wi)
          ∧ body item wi = (Thrown e, (forEachMethod body items w).2)
          ∧ length (requests (forEachMethod body items w).2)
            = length (requests w) + S i
    end.
Proof.
  intros Hone. induction items as [|item items IH]; intros w.
  - simpl. split; [done|lia].
  - cbn [forEachMethod].
    pose proof (Hone item w) as Hsent.
    destruct (body item w) as [[b|e] w1] eqn:Hbody; cbn [snd] in Hsent.
    + specialize (IH w1).
      destruct (forEachMethod body items w1) as [[bs|e] w2] eqn:Hrest; cbn [fst snd] in *.
      * destruct IH as [Hlen Hreq]. simpl. split; [by rewrite Hlen | lia].
      * destruct IH as (i & item' & before & wi & Hi & Hbefore & Hthrow & Hreq).
        exists (S i), item', (b :: before), wi.
        split_and!; [done| |done|lia].
        cbn [take forEachMethod]. by rewrite Hbody, Hbefore.
    + cbn [fst snd]. exists 0, item, [], w. split_and!; [done|done|done|lia].
Qed.

Lemma deleteOne_sends_one this id w :
  requests (deleteOne showNumber service this id w).2
  = requests w ++ [deleteRequest showNumber this id].
Proof.
  unfold deleteOne.
  destruct (fetch_delete service _ _) as [status|e]; [|done].
  by case_bool_decide.
Qed.

Lemma deleteOne_returned this id w w' :
  deleteOne showNumber service this id w = (Returned (), w') →
  fetch_delete service (requests w) (deleteRequest showNumber this id)
  = Returned 200%Z.
Proof.
  unfold deleteOne.
  destruct (fetch_delete service _ _) as [status|e]; [|done].
  case_bool_decide as Hstatus; [done|]. intros _. f_equal.
  destruct (decide (status = 200%Z)); [done|]. by destruct Hstatus.
Qed.

Lemma deleteOne_thrown this id w e w' :
  deleteOne showNumber service this id w = (Thrown e, w') →
  errorCode e = Some 500%Z
  ∧ fetch_delete service (requests w) (deleteRequest showNumber this id)
    ≠ Returned 200%Z.
Proof.
  unfold deleteOne.
  destruct (fetch_delete service _ _) as [status|e0].
  - case_bool_decide as Hstatus; [|done]. intros [= <- _].
    split; [done|]. by intros [= ->].
  - by intros [= <- _].
Qed.

(** The loop of deleteDocuments: the [n] requests it sends, the answers to
    all but the last of them, and the answer to the last. *)
Lemma forEach_deleteOne_requests this (ids : list string) w :
  ∃ n, n ≤ length ids
       ∧ requests (forEachMethod (deleteOne showNumber service this) ids w).2
         = requests w ++ (deleteRequest showNumber this <$> take n ids)
       ∧ (∀ j id, ids !! j = Some id → S j < n →
            fetch_delete service
              (requests w ++ (deleteRequest showNumber this <$> take j ids))
              (deleteRequest showNumber this id)
            = Returned 200%Z)
       ∧ (∀ results,
            (forEachMethod (deleteOne showNumber service this) ids w).1
            = Returned results →
            n = length ids
            ∧ ∀ j id, ids !! j = Some id →
                fetch_delete service
                  (requests w ++ (deleteRequest showNumber this <$> take j ids))
                  (deleteRequest showNumber this id)
                = Returned 200%Z)
       ∧ (∀ e,
            (forEachMethod (deleteOne showNumber service this) ids w).1 = Thrown e →
            0 < n ∧ errorCode e = Some 500%Z
            ∧ ∃ id, ids !! (n - 1) = Some id
                    ∧ fetch_delete service
                        (requests w
                         ++ (deleteRequest showNumber this <$> take (n - 1) ids))
                        (deleteRequest showNumber this id)
                      ≠ Returned 200%Z).
Proof.
  revert w. induction ids as [|id0 ids IH]; intros w.
  - exists 0. simpl. rewrite app_nil_r. split_and!; [done|done|done| |done].
    intros results _. split; [done|]. intros j id Hj. done.
  - cbn [forEachMethod].
    pose proof (deleteOne_sends_one this id0 w) as Hsent.
    destruct (deleteOne showNumber service this id0 w) as [[[]|e] w1] eqn:Hone;
      cbn [snd] in Hsent.
    + apply deleteOne_returned in Hone as Hfirst.
      destruct (IH w1) as (n & Hn & Hreq & Hbefore & Hret & Hthrown).
      rewrite Hsent in Hreq, Hbefore, Hret, Hthrown.
      assert (∀ j,
                (requests w ++ [deleteRequest showNumber this id0])
                ++ (deleteRequest showNumber this <$> take j ids)
                = requests w
                  ++ (deleteRequest showNumber this <$> take (S j) (id0 :: ids)))
        as Hshift.
      { intros j. by rewrite <- app_assoc. }
      destruct (forEachMethod _ ids w1) as [[results|e] w2]; cbn [fst snd] in *.
      * exists (S n). split_and!; [simpl; lia| | | |done].
        -- by rewrite Hreq, Hshift.
        -- intros [|j] id Hj Hlt.
           ++ injection Hj as <-. simpl. by rewrite app_nil_r.
           ++ rewrite <- Hshift. apply Hbefore; [done|lia].
        -- intros ? _. destruct (Hret results eq_refl) as [-> Hall].
           split; [done|]. intros [|j] id Hj.
           ++ injection Hj as <-. simpl. by rewrite app_nil_r.
           ++ rewrite <- Hshift. by apply Hall.
      * destruct (Hthrown e eq_refl) as (Hpos & Hcode & id & Hid & Hanswer).
        exists (S n). split_and!; [simpl; lia| | |done|].
        -- by rewrite Hreq, Hshift.
        -- intros [|j] id' Hj Hlt.
           ++ injection Hj as <-. simpl. by rewrite app_nil_r.
           ++ rewrite <- Hshift. apply Hbefore; [done|lia].
        -- intros e' [= <-]. split_and!; [lia|done|].
           exists id. destruct n as [|n]; [lia|].
           simpl in *. rewrite Nat.sub_0_r in *. split; [done|].
           by rewrite <- (Hshift n).
    + apply deleteOne_thrown in Hone as [Hcode Hanswer].
      cbn [fst snd]. exists 1. split_and!; [simpl; lia| | |done|].
      * by rewrite Hsent.
      * intros j id _ Hlt. lia.
      * intros e' [= <-]. split_and!; [lia|done|].
        exists id0. simpl. by rewrite app_nil_r.
Qed.

(** X22. deleteDocuments without ids, or with an empty list, throws without
    sending anything. Otherwise it sends one delete request per id, in the
    order of the list, and stops at the first one that fails or is answered
    with a status other than 200. With n requests sent: all of them but the
    last were answered with status 200; when deleteDocuments returns, the
    last one was too and every id of the list has been sent; when it
    throws, the last request sent is the one that failed or was answered
    with another status, the ids after it are never sent, and the error has
    code 500. *)
Theorem vectara_deleteDocuments_stops_at_first_failure this (ids : option (list string)) w :
  let run := deleteDocuments showNumber service this ids w in
  ((ids = None ∨ ids = Some []) → run = (Thrown (newError noIdsMessage), w))
  ∧ ∀ list, ids = Some list → list ≠ [] →
      ∃ n, 0 < n ≤ length list
           ∧ requests run.2
             = requests w ++ (deleteRequest showNumber this <$> take n list)
           ∧ (∀ j id, list !! j = Some id → S j < n →
                fetch_delete service
                  (requests w ++ (deleteRequest showNumber this <$> take j list))
                  (deleteRequest showNumber this id)
                = Returned 200%Z)
           ∧ (run.1 = Returned () →
                n = length list
                ∧ ∀ j id, list !! j = Some id →
                    fetch_delete service
                      (requests w
                       ++ (deleteRequest showNumber this <$> take j list))
                      (deleteRequest showNumber this id)
                    = Returned 200%Z)
           ∧ (∀ e, run.1 = Thrown e →
                errorCode e = Some 500%Z
                ∧ ∃ id, list !! (n - 1) = Some id
                        ∧ fetch_delete service
                            (requests w
                             ++ (deleteRequest showNumber this <$> take (n - 1) list))
                            (deleteRequest showNumber this id)
                          ≠ Returned 200%Z).
Proof.
  intros run. subst run. split.
  - by intros [->| ->].
  - intros list -> Hne.
    destruct list as [|id rest]; [done|].
    destruct (forEach_deleteOne_requests this (id :: rest) w)
      as (n & Hn & Hreq & Hbefore & Hret & Hthrown).
    unfold deleteDocuments.
    destruct (forEachMethod _ (id :: rest) w) as [[results|e] w1] eqn:Hloop;
      cbn [fst snd] in *.
    + destruct (Hret results eq_refl) as [-> Hall].
      exists (length (id :: rest)).
      split_and!; [simpl; lia | simpl; lia | done | done | | done].
      intros _. by split.
    + destruct (Hthrown e eq_refl) as (Hpos & Hcode & Hlast).
      exists n. split_and!; [done | done | done | done | done |].
      by intros e' [= <-].
Qed.

Notation "'indexOne''" := (indexOne showNumber stringify uuid_v4 service) (only parsing).
Notation "'addDocuments''" := (addDocuments showNumber stringify uuid_v4 service)
  (only parsing).

Lemma indexOne_sends_one this document w :
  length (requests (indexOne' this document w).2) = S (length (requests w)).
Proof.
  unfold indexOne.
  destruct (fetch_index service _ _) as [reply|e];
    [destruct (_ && _)|]; cbn [snd sent requests];
    rewrite length_app; simpl; by destruct (nullish _); simpl; lia.
Qed.

Lemma indexOne_thrown this document w e w' :
  indexOne' this document w = (Thrown e, w') → errorCode e = Some 500%Z.
Proof.
  unfold indexOne.
  destruct (fetch_index service _ _) as [reply|e0].
  - destruct (_ && _); [|done]. by intros [= <- _].
  - by intros [= <- _].
Qed.

Lemma indexOne_returned this document w id w' :
  indexOne' this document w = (Returned id, w') →
  (nullish (metadata document !! "document_id") = false →
   metadata document !! "document_id" = Some id)
  ∧ (nullish (metadata document !! "document_id") = true →
     id = JsString (uuid_v4 (uuidCount w))).
Proof.
  unfold indexOne.
  destruct (fetch_index service _ _) as [reply|e0]; [|done].
  destruct (_ && _); [done|]. intros [= <- _].
  destruct (metadata document !! "document_id") as [given|] eqn:Hgiven; simpl.
  - split; [by destruct given | by intros ->].
  - by split.
Qed.

Lemma indexOne_uuidCount this document w :
  uuidCount (indexOne' this document w).2
  = if nullish (metadata document !! "document_id")
    then S (uuidCount w) else uuidCount w.
Proof.
  unfold indexOne.
  destruct (fetch_index service _ _) as [reply|e];
    [destruct (_ && _)|]; by destruct (nullish _).
Qed.

Lemma drawnFor_cons (document : DocumentInterface number) documents :
  drawnFor (document :: documents)
  = (if nullish (metadata document !! "document_id") then 1 else 0)
    + drawnFor documents.
Proof. done. Qed.

(** The identifiers the loop of addDocuments returns, and the draws it
    makes. *)
Lemma forEach_indexOne_ids this documents :
  ∀ w ids w',
    forEachMethod (indexOne' this) documents w = (Returned ids, w') →
    uuidCount w' = uuidCount w + drawnFor documents
    ∧ ∀ i document id, documents !! i = Some document → ids !! i = Some id →
        (nullish (metadata document !! "document_id") = false →
         metadata document !! "document_id" = Some id)
        ∧ (nullish (metadata document !! "document_id") = true →
           id = JsString (uuid_v4 (uuidCount w + drawnFor (take i documents)))).
Proof.
  induction documents as [|d documents IH]; intros w ids w'.
  - intros [= <- <-]. split; [simpl; lia|]. by intros i ? ? ?.
  - cbn [forEachMethod].
    pose proof (indexOne_uuidCount this d w) as Hcount.
    destruct (indexOne' this d w) as [[b|e] w1] eqn:Hone; [|done].
    destruct (forEachMethod _ documents w1) as [[bs|e] w2] eqn:Hrest; [|done].
    intros [= <- <-]. cbn [snd] in Hcount.
    destruct (IH _ _ _ Hrest) as [Hcount' Hlookup].
    destruct (indexOne_returned _ _ _ _ _ Hone) as [Hgiven Hdrawn].
    rewrite drawnFor_cons. split.
    + rewrite Hcount', Hcount. destruct (nullish _); lia.
    + intros [|i] document id Hdoc Hid.
      * injection Hdoc as <-. injection Hid as <-. split; [done|].
        intros Hnull. rewrite (Hdrawn Hnull). simpl.
        by rewrite Nat.add_0_r.
      * destruct (Hlookup i document id Hdoc Hid) as [Hg Hd]. split; [done|].
        intros Hnull. rewrite (Hd Hnull). cbn [take].
        rewrite drawnFor_cons, Hcount. do 2 f_equal.
        destruct (nullish (metadata d !! "document_id")); lia.
Qed.

Lemma addDocuments_loop this documents w :
  length (corpusId this) ≤ 1 →
  addDocuments' this documents w = forEachMethod (indexOne' this) documents w.
Proof.
  intros Hone. unfold addDocuments. by rewrite bool_decide_eq_false_2 by lia.
Qed.

(** X23. When the store has a single corpus and the service answers every
    index request with OK or ALREADY_EXISTS, addDocuments sends one request
    per document and returns one identifier per document, in order: the
    [document_id] of the metadata of the document when there is one, a
    freshly drawn identifier otherwise. The draws are the next ones of the
    generator, one per document without [document_id], in the order of the
    documents: the identifier of such a document is the draw numbered by
    the count at the start plus the number of documents without
    [document_id] before it. A document that already exists is reported
    like one that was added. *)
Theorem vectara_addDocuments_returns_one_id_per_document this documents w :
  length (corpusId this) ≤ 1 →
  (∀ history request,
     ∃ reply, fetch_index service history request = Returned reply
              ∧ (replyCode reply = Some "OK"
                 ∨ replyCode reply = Some "ALREADY_EXISTS")) →
  let run := addDocuments' this documents w in
  ∃ ids,
    run.1 = Returned ids
    ∧ length ids = length documents
    ∧ length (requests run.2) = length (requests w) + length documents
    ∧ uuidCount run.2 = uuidCount w + drawnFor documents
    ∧ ∀ i document id, documents !! i = Some document → ids !! i = Some id →
        (nullish (metadata document !! "document_id") = false →
         metadata document !! "document_id" = Some id)
        ∧ (nullish (metadata document !! "document_id") = true →
           id = JsString (uuid_v4 (uuidCount w + drawnFor (take i documents)))).
Proof.
  intros Hone Haccepts run. subst run. rewrite addDocuments_loop by done.
  pose proof (forEachMethod_requests (indexOne' this) documents
                (indexOne_sends_one this) w) as Hloop.
  destruct (forEachMethod (indexOne' this) documents w) as [[ids|e] w1] eqn:Hrun;
    cbn [fst snd] in *.
  - destruct Hloop as [Hlen Hreq].
    destruct (forEach_indexOne_ids this documents _ _ _ Hrun) as [Hcount Hids].
    exists ids. by split_and!.
  - destruct Hloop as (i & document & before & wi & _ & _ & Hthrow & _).
    exfalso. revert Hthrow. unfold indexOne.
    destruct (Haccepts
                (requests (if nullish (metadata document !! "document_id")
                           then {| requests := requests wi;
                                   uuidCount := S (uuidCount wi) |}
                           else wi))
                (IndexRequest (getJsonHeader showNumber this) (customerId this)
                   (corpusId this !! 0)
                   {| document_id :=
                        if nullish (metadata document !! "document_id")
                        then JsString (uuid_v4 (uuidCount wi))
                        else default JsUndefined (metadata document !! "document_id");
                      title := if nullish (metadata document !! "title")
                               then JsString ""
                               else default JsUndefined (metadata document !! "title");
                      metadata_json := metadata document;
                      sectionText := pageContent document |}))
      as (reply & -> & Hcode).
    destruct Hcode as [-> | ->]; done.
Qed.

(** X24. addDocuments refuses a store with several corpus ids before
    sending anything. With a single corpus, when it throws, the error has
    code 500 and the loop stopped at the first document that failed: the
    documents before it were sent and accepted, one request each, the
    failing one was sent, the documents after it were not, and the
    identifiers of the accepted documents are not returned. *)
Theorem vectara_addDocuments_stops_at_first_failure this documents w :
  (1 < length (corpusId this) →
   addDocuments' this documents w
   = (Thrown (newError "addDocuments does not support multiple corpus ids"), w))
  ∧ (length (corpusId this) ≤ 1 →
     ∀ e, (addDocuments' this documents w).1 = Thrown e →
       errorCode e = Some 500%Z
       ∧ ∃ i document accepted wi,
           documents !! i = Some document
           ∧ forEachMethod (indexOne' this) (take i documents) w
             = (Returned accepted, wi)
           ∧ indexOne' this document wi
             = (Thrown e, (addDocuments' this documents w).2)
           ∧ length (requests (addDocuments' this documents w).2)
             = length (requests w) + S i).
Proof.
  split.
  - intros Hmany. unfold addDocuments. by rewrite bool_decide_eq_true_2.
  - intros Hone e. rewrite addDocuments_loop by done. intros Hthrown.
    pose proof (forEachMethod_requests (indexOne' this) documents
                  (indexOne_sends_one this) w) as Hloop.
    rewrite Hthrown in Hloop.
    destruct Hloop as (i & document & accepted & wi & Hi & Hbefore & Hthrow & Hreq).
    split; [by eapply indexOne_thrown|].
    by exists i, document, accepted, wi.
Qed.

End VectaraDocuments.

(** ** VectaraStore: the constructor *)
Section VectaraConstructor.

Import Vectara.

Context {number : Type}.
Variable isNaN : number → bool.
Variable isZero : number → bool.
Variable getEnvironmentVariable : string → option string.
Variable Number : string → number.

Notation "'construct'" :=
  (constructor isNaN isZero getEnvironmentVariable Number) (only parsing).

Lemma forEachResult_length {A B} (body : A → Result B) (items : list A) results :
  forEachResult body items = Returned results → length results = length items.
Proof.
  revert results. induction items as [|item items IH]; intros results.
  - by intros [= <-].
  - cbn [forEachResult]. destruct (body item); [|done].
    destruct (forEachResult body items) as [bs|]; [|done].
    intros [= <-]. simpl. by rewrite (IH bs).
Qed.

Lemma split_not_nil (text : string) : split text ≠ [].
Proof.
  induction text as [|c text IH]; [done|]. cbn [split].
  destruct (String.eqb (String c "") ","); [done|]. by destruct (split text).
Qed.

(** X25. A store that the constructor returns has a non-empty API key, at
    least one corpus id and a customer id that is neither zero, NaN nor the
    empty text; its source is the one given, "langchainjs" by default, and
    it is verbose only when asked. *)
Theorem vectara_constructor_returns_configured_store (args : @VectaraLibArgs number) store :
  construct args = Returned store →
  apiKey store ≠ ""
  ∧ corpusId store ≠ []
  ∧ match customerId store with
    | CustomerNumber n => isNaN n = false ∧ isZero n = false
    | CustomerText text => text ≠ ""
    end
  ∧ source store = default "langchainjs" (argSource args)
  ∧ verbose store = default false (argVerbose args).
Proof.
  unfold constructor.
  set (key := match argApiKey args with
              | Some k => Some k
              | None => getEnvironmentVariable "VECTARA_API_KEY"
              end).
  destruct (truthyString key) eqn:Hkey; [|done]. cbn [negb].
  set (corpus := match argCorpusId args with
                 | Some given => Returned (Some given)
                 | None => _
                 end).
  destruct corpus as [corpus|e]; [|done].
  set (ids := match corpus with
              | None => None
              | Some (OneCorpus id) => _
              | Some (ManyCorpora []) => None
              | Some (ManyCorpora l) => Some l
              end).
  assert (∀ l, ids = Some l → l ≠ []) as Hids.
  { subst ids. intros l. destruct corpus as [[id|[|id0 l0]]|]; [|done| |done].
    - destruct (truthyNumber isNaN isZero id); [|done]. by intros [= <-].
    - by intros [= <-]. }
  destruct ids as [l|]; [|done].
  set (customer := match argCustomerId args with
                   | Some n => Some (CustomerNumber n)
                   | None => _
                   end).
  destruct customer as [[n|text]|] eqn:Hcustomer; [| |done].
  - destruct (truthyNumber isNaN isZero n) eqn:Hn; [|done]. cbn [negb].
    unfold truthyNumber in Hn. apply negb_true_iff, orb_false_iff in Hn as [Hnan Hzero].
    intros [= <-]. simpl. split_and!; [|by apply Hids|done..].
    destruct key as [k|]; [|done]. simpl in *.
    by destruct (String.eqb_spec k "").
  - destruct (String.eqb_spec text ""); [done|]. cbn [negb].
    intros [= <-]. simpl. split_and!; [|by apply Hids|done..].
    destruct key as [k|]; [|done]. simpl in *.
    by destruct (String.eqb_spec k "").
Qed.

(** X26. When the arguments give a non-empty API key, a corpus id that is
    neither zero nor NaN, or a non-empty list of corpus ids, and a customer
    id that is neither zero nor NaN, the constructor returns the store made
    of exactly these, whatever the environment holds. *)
Theorem vectara_constructor_prefers_arguments
    (args : @VectaraLibArgs number) key corpus single ids customer :
  argApiKey args = Some key → key ≠ "" →
  argCorpusId args = Some corpus →
  (corpus = OneCorpus single ∧ ids = [single]
   ∧ isNaN single = false ∧ isZero single = false)
  ∨ (corpus = ManyCorpora ids ∧ ids ≠ []) →
  argCustomerId args = Some customer →
  isNaN customer = false → isZero customer = false →
  construct args
  = Returned {| apiKey := key;
                corpusId := ids;
                customerId := CustomerNumber customer;
                verbose := default false (argVerbose args);
                source := default "langchainjs" (argSource args) |}.
Proof.
  intros Hkey Hne Hcorpus Hshape Hcustomer Hnan Hzero.
  unfold constructor. rewrite Hkey, Hcorpus, Hcustomer. simpl.
  destruct (String.eqb_spec key ""); [done|]. simpl.
  unfold truthyNumber. rewrite Hnan, Hzero. simpl.
  destruct Hshape as [(-> & -> & Hnan' & Hzero')|[-> Hids]].
  - by rewrite Hnan', Hzero'.
  - by destruct ids.
Qed.

(** X27. A corpus id passed as the number zero or NaN, or as an empty list,
    is refused as not provided, even when the environment names corpus ids:
    the environment is only consulted when the argument is missing. *)
Theorem vectara_constructor_refuses_falsy_corpus_id (args : @VectaraLibArgs number) key corpus :
  argApiKey args = Some key → key ≠ "" →
  argCorpusId args = Some corpus →
  (∃ id, corpus = OneCorpus id ∧ (isNaN id = true ∨ isZero id = true))
  ∨ corpus = ManyCorpora [] →
  construct args = Thrown (newError "Vectara corpus id is not provided.").
Proof.
  intros Hkey Hne Hcorpus Hfalsy.
  unfold constructor. rewrite Hkey, Hcorpus. simpl.
  destruct (String.eqb_spec key ""); [done|]. simpl.
  destruct Hfalsy as [(id & -> & Hid)| ->]; [|done].
  unfold truthyNumber. by destruct Hid as [-> | ->]; rewrite ?orb_true_r.
Qed.

(** X28. When the arguments give an API key but no corpus id, the corpus
    ids are the comma-separated parts of VECTARA_CORPUS_ID, each read as a
    number, in order; if any part does not read as a number the constructor
    throws, whatever else is given. *)
Theorem vectara_constructor_reads_corpus_ids_from_environment
    (args : @VectaraLibArgs number) key text :
  argApiKey args = Some key → key ≠ "" →
  argCorpusId args = None →
  getEnvironmentVariable "VECTARA_CORPUS_ID" = Some text →
  (Exists (λ part, isNaN (Number part) = true) (split text) →
   construct args = Thrown (newError "Vectara corpus id is not a number."))
  ∧ (Forall (λ part, isNaN (Number part) = false) (split text) →
     ∀ store, construct args = Returned store →
       corpusId store = Number <$> split text).
Proof.
  intros Hkey Hne Hcorpus Henv.
  assert (∀ parts,
            (Exists (λ part, isNaN (Number part) = true) parts →
             forEachResult (corpusIdOfText isNaN Number) parts
             = Thrown (newError "Vectara corpus id is not a number."))
            ∧ (Forall (λ part, isNaN (Number part) = false) parts →
               forEachResult (corpusIdOfText isNaN Number) parts
               = Returned (Number <$> parts))) as Hparts.
  { induction parts as [|part parts [IHbad IHgood]].
    - split; [by intros ?%Exists_nil|done].
    - split.
      + intros Hbad. cbn [forEachResult]. unfold corpusIdOfText at 1.
        destruct (isNaN (Number part)) eqn:Hpart; [done|].
        rewrite IHbad; [done|].
        apply Exists_cons in Hbad as [Hhere|Hlater]; [congruence|done].
      + intros Hgood. apply Forall_cons in Hgood as [Hpart Hgood].
        cbn [forEachResult]. unfold corpusIdOfText at 1.
        by rewrite Hpart, IHgood. }
  destruct (Hparts (split text)) as [Hbad Hgood].
  unfold constructor. rewrite Hkey, Hcorpus, Henv. simpl.
  destruct (String.eqb_spec key ""); [done|]. simpl.
  split.
  - intros Hexists. by rewrite (Hbad Hexists).
  - intros Hforall store. rewrite (Hgood Hforall).
    pose proof (split_not_nil text) as Hsplit.
    destruct (split text) as [|part parts]; [done|]. simpl.
    destruct (match argCustomerId args with
              | Some n => Some (CustomerNumber n)
              | None => CustomerText <$> getEnvironmentVariable "VECTARA_CUSTOMER_ID"
              end) as [[cn|ct]|]; [| |done].
    + destruct (truthyNumber isNaN isZero cn); [|done]. by intros [= <-].
    + destruct (negb (String.eqb ct "")); [|done]. by intros [= <-].
Qed.

End VectaraConstructor.

(** The title of the document replaces the title of the response; the
    language of the response stays. *)
Lemma vectara_document_metadata_overrides_response_metadata_witness :
  ∃ combined,
    Vectara.combineMetadata [MoreSamples.documentMetadata] MoreSamples.snippet
    = Vectara.Returned ("a snippet", combined, 9%Z)
    ∧ combined !! "title" = Some (JsString "document title")
    ∧ combined !! "lang" = Some (JsString "eng").
Proof.
  destruct (vectara_document_metadata_overrides_response_metadata
              [MoreSamples.documentMetadata] MoreSamples.snippet
              MoreSamples.documentMetadata eq_refl)
    as (combined & Hcombined & Hlookup).
  exists combined. split_and!; [exact Hcombined | |].
  - rewrite (Hlookup "title"). reflexivity.
  - rewrite (Hlookup "lang"). reflexivity.
Defined.

(** One response, one result. *)
Lemma vectara_search_returns_each_response_witness :
  ∃ results,
    (Vectara.similaritySearchWithScore MoreSamples.neverNaN MoreSamples.isZeroZ
       MoreSamples.literalZ Samples.showZ MoreSamples.agreeableService
       MoreSamples.vectaraStore "what" None None MoreSamples.freshVectara).1
    = Vectara.Returned results
    ∧ length results = 1.
Proof.
  destruct (vectara_search_returns_each_response
              MoreSamples.neverNaN MoreSamples.isZeroZ MoreSamples.literalZ
              Samples.showZ MoreSamples.agreeableService
              MoreSamples.vectaraStore "what" None None MoreSamples.freshVectara
              MoreSamples.oneResponse [] eq_refl)
    as (results & Hresults & Hlen & _).
  - repeat constructor.
  - exists results. split; [exact Hresults | exact Hlen].
Defined.

(** The service answers 503. *)
Lemma vectara_search_status_not_200_witness :
  (Vectara.similaritySearch MoreSamples.neverNaN MoreSamples.isZeroZ
     MoreSamples.literalZ Samples.showZ MoreSamples.secondRequestRefused
     MoreSamples.vectaraStore "what" None None MoreSamples.freshVectara).1
  = Vectara.Thrown (Vectara.newError "Vectara API returned status code 503").
Proof.
  apply (vectara_search_status_not_200
           MoreSamples.neverNaN MoreSamples.isZeroZ MoreSamples.literalZ
           Samples.showZ MoreSamples.secondRequestRefused
           MoreSamples.vectaraStore "what" None None MoreSamples.freshVectara
           503%Z (Vectara.Returned []) eq_refl).
  discriminate.
Defined.

(** The cat and the bird have no document_id and get the first two draws;
    the collar has one. *)
Lemma vectara_addDocuments_returns_one_id_per_document_witness :
  ∃ ids,
    (Vectara.addDocuments Samples.showZ MoreSamples.stringifyZ
       Samples.sampleUuid MoreSamples.agreeableService MoreSamples.vectaraStore
       [Samples.catDocument;
        {| pageContent := "collar";
           metadata := {[ "document_id" := JsString "doc-7" ]} |};
        Samples.birdDocument]
       MoreSamples.freshVectara).1
    = Vectara.Returned ids
    ∧ length ids = 3
    ∧ ∀ id, ids !! 2 = Some id → id = JsString "uuid-1".
Proof.
  destruct (vectara_addDocuments_returns_one_id_per_document
              Samples.showZ MoreSamples.stringifyZ Samples.sampleUuid
              MoreSamples.agreeableService MoreSamples.vectaraStore
              [Samples.catDocument;
               {| pageContent := "collar";
                  metadata := {[ "document_id" := JsString "doc-7" ]} |};
               Samples.birdDocument]
              MoreSamples.freshVectara)
    as (ids & Hids & Hlen & _ & _ & Hlookup).
  - simpl. lia.
  - intros history request. eexists. split; [reflexivity|]. by left.
  - exists ids. split_and!; [exact Hids | exact Hlen |].
    intros id Hid.
    destruct (Hlookup 2 Samples.birdDocument id eq_refl Hid) as [_ Hdrawn].
    exact (Hdrawn eq_refl).
Defined.

(** A store from arguments alone. *)
Lemma vectara_constructor_returns_configured_store_witness :
  Vectara.source
    {| Vectara.apiKey := "key"; Vectara.corpusId := [7%Z];
       Vectara.customerId := Vectara.CustomerNumber 42%Z;
       Vectara.verbose := false; Vectara.source := "langchainjs" |}
  = "langchainjs".
Proof.
  apply (vectara_constructor_returns_configured_store
           MoreSamples.neverNaN MoreSamples.isZeroZ MoreSamples.emptyEnvironment
           MoreSamples.numberOfText
           {| Vectara.argCustomerId := Some 42%Z;
              Vectara.argCorpusId := Some (Vectara.OneCorpus 7%Z);
              Vectara.argApiKey := Some "key";
              Vectara.argVerbose := None;
              Vectara.argSource := None |}
           {| Vectara.apiKey := "key"; Vectara.corpusId := [7%Z];
              Vectara.customerId := Vectara.CustomerNumber 42%Z;
              Vectara.verbose := false; Vectara.source := "langchainjs" |}).
  reflexivity.
Defined.

(** Arguments given, in an environment that holds other values. *)
Lemma vectara_constructor_prefers_arguments_witness :
  Vectara.constructor MoreSamples.neverNaN MoreSamples.isZeroZ
    MoreSamples.fullEnvironment MoreSamples.numberOfText
    {| Vectara.argCustomerId := Some 42%Z;
       Vectara.argCorpusId := Some (Vectara.ManyCorpora [7; 8]%Z);
       Vectara.argApiKey := Some "key";
       Vectara.argVerbose := Some true;
       Vectara.argSource := None |}
  = Vectara.Returned
      {| Vectara.apiKey := "key"; Vectara.corpusId := [7; 8]%Z;
         Vectara.customerId := Vectara.CustomerNumber 42%Z;
         Vectara.verbose := true; Vectara.source := "langchainjs" |}.
Proof.
  apply (vectara_constructor_prefers_arguments
           MoreSamples.neverNaN MoreSamples.isZeroZ MoreSamples.fullEnvironment
           MoreSamples.numberOfText
           {| Vectara.argCustomerId := Some 42%Z;
              Vectara.argCorpusId := Some (Vectara.ManyCorpora [7; 8]%Z);
              Vectara.argApiKey := Some "key";
              Vectara.argVerbose := Some true;
              Vectara.argSource := None |}
           "key" (Vectara.ManyCorpora [7; 8]%Z) 0%Z [7; 8]%Z 42%Z).
  - reflexivity.
  - discriminate.
  - reflexivity.
  - right. split; [reflexivity | discriminate].
  - reflexivity.
  - reflexivity.
  - reflexivity.
Defined.

(** Corpus id 0, in an environment that names corpus ids. *)
Lemma vectara_constructor_refuses_falsy_corpus_id_witness :
  Vectara.constructor MoreSamples.neverNaN MoreSamples.isZeroZ
    MoreSamples.fullEnvironment MoreSamples.numberOfText
    {| Vectara.argCustomerId := Some 42%Z;
       Vectara.argCorpusId := Some (Vectara.OneCorpus 0%Z);
       Vectara.argApiKey := Some "key";
       Vectara.argVerbose := None;
       Vectara.argSource := None |}
  = Vectara.Thrown (Vectara.newError "Vectara corpus id is not provided.").
Proof.
  apply (vectara_constructor_refuses_falsy_corpus_id
           MoreSamples.neverNaN MoreSamples.isZeroZ MoreSamples.fullEnvironment
           MoreSamples.numberOfText
           {| Vectara.argCustomerId := Some 42%Z;
              Vectara.argCorpusId := Some (Vectara.OneCorpus 0%Z);
              Vectara.argApiKey := Some "key";
              Vectara.argVerbose := None;
              Vectara.argSource := None |}
           "key" (Vectara.OneCorpus 0%Z)).
  - reflexivity.
  - discriminate.
  - reflexivity.
  - left. exists 0%Z. split; [reflexivity|]. by right.
Defined.

(** The corpus ids "1,2" of the environment. *)
Lemma vectara_constructor_reads_corpus_ids_from_environment_witness :
  Vectara.corpusId
    {| Vectara.apiKey := "key"; Vectara.corpusId := [1; 2]%Z;
       Vectara.customerId := Vectara.CustomerNumber 42%Z;
       Vectara.verbose := false; Vectara.source := "langchainjs" |}
  = MoreSamples.numberOfText <$> Vectara.split "1,2".
Proof.
  destruct (vectara_constructor_reads_corpus_ids_from_environment
              MoreSamples.neverNaN MoreSamples.isZeroZ MoreSamples.fullEnvironment
              MoreSamples.numberOfText
              {| Vectara.argCustomerId := Some 42%Z;
                 Vectara.argCorpusId := None;
                 Vectara.argApiKey := Some "key";
                 Vectara.argVerbose := None;
                 Vectara.argSource := None |}
              "key" "1,2")
    as [_ Hgood].
  - reflexivity.
  - discriminate.
  - reflexivity.
  - reflexivity.
  - apply Hgood; [repeat constructor | reflexivity].
Defined.
